(** * tmx2map: the map-creation pass of [tmx2map.py]

    A shallow embedding of lines 192-338 of [tmx2map/tmx2map.py]: the
    seeding of the [worldspawn] entity, the tile-layer loop that stamps
    prefabs onto cells and the object-layer loop; and, after it, of the
    loop that loads the prefabs (lines 145-188), of the step times (lines
    81-94 and 353) and of the name of the map file (line 114).

    Python objects that the script mutates ([m.Entity] instances and their
    [brushes] lists) live in an explicit heap addressed by locations, so
    that aliasing between the cached prefabs, the accumulator and the
    placed entities is visible.  Exceptions are results; the state reached
    when an exception is raised is kept.

    Floating point numbers are an interface ([FloatArith], [FloatText]),
    with the conversions of an [int] that can fail for want of range; the
    development is generic in it.  It is instantiated with exact rationals
    within the range of the doubles (to run the pass on concrete inputs)
    and with the reals (for the step times and for the trigonometry of
    the [mathhelper] of the spec).

    The file has the model first (values, heap, the script), then the
    vocabulary of the statements and the inputs the pass is run on, then
    the proofs: a frame property for every outcome of the pass, an
    invariant for the passes that complete, the properties of the pass
    that follow from them, and further properties of the pass, of the
    loader, of the step times and of the file names. *)

From Stdlib Require Import ZArith QArith Reals Lra Lia Ascii String.
From stdpp Require Import base gmap strings list fin_maps pretty.

Open Scope Z_scope.

(** ** Exceptions and results *)

Inductive exn :=
  | KeyError | IndexError | AttributeError | ValueError | TypeError
  | ZeroDivisionError | OverflowError.

Inductive result (A : Type) :=
  | Ok (a : A)
  | Raise (e : exn).
Arguments Ok {A} a.
Arguments Raise {A} e.

#[global] Instance result_ret : MRet result := λ A a, Ok a.

#[global] Instance result_bind : MBind result := λ A B f r,
  match r with
  | Ok a => f a
  | Raise e => Raise e
  end.

(** ** Floating point numbers

    [FloatArith] is the arithmetic the script performs on floats,
    [FloatText] the two built-ins [float(s)] and [str(x)].  An [int] is
    unbounded and a float is not: [float_of_int] is the conversion that
    Python applies to an [int] operand that meets a float, [int_truediv]
    the quotient [a / b] of two ints with [b] other than 0, and both are
    without result (an [OverflowError]) when the value is too large for a
    float.  [float_of_Z] gives the floats of small integer constants (the
    entries of [numpy.identity], the literal [0] of line 232). *)

Class FloatArith (F : Type) := {
  float_of_Z : Z → F;
  float_of_int : Z → option F;
  int_truediv : Z → Z → option F;
  fadd : F → F → F;
  fsub : F → F → F;
  fmul : F → F → F;
  fdiv : F → F → F;
  fis0 : F → bool;
  fge0 : F → bool
}.

Class FloatText (F : Type) := {
  float_of_string : string → option F;
  str_of_float : F → string
}.

Definition loc := positive.

(** [str.split(' ')]: every single space separates two fields. *)
Fixpoint split_spaces_aux (cur : string) (s : string) : list string :=
  match s with
  | EmptyString => [String.rev cur]
  | String c s' =>
      if Ascii.eqb c " "%char
      then String.rev cur :: split_spaces_aux EmptyString s'
      else split_spaces_aux (String c cur) s'
  end.

Definition split_spaces (s : string) : list string :=
  split_spaces_aux EmptyString s.

(** [' '.join(l)] *)
Definition join_spaces (l : list string) : string := String.concat " " l.

Section Placement.
Context {F : Type} `{!FloatArith F, !FloatText F}.

(** Python numbers: [int] is unbounded, [float] is [F]. *)
Inductive pynum :=
  | NInt (z : Z)
  | NFloat (f : F).

(** The float of a number.  An [int] is converted, with an
    [OverflowError] when it is too large. *)
Definition py_to_float (n : pynum) : result F :=
  match n with
  | NInt z =>
      match float_of_int z with
      | Some f => Ok f
      | None => Raise OverflowError
      end
  | NFloat f => Ok f
  end.

(** An operation one operand of which is a float: both operands are
    converted, the left one first. *)
Definition float_op (op : F → F → F) (a b : pynum) : result pynum :=
  x ← py_to_float a;
  y ← py_to_float b;
  mret (NFloat (op x y)).

Definition py_add (a b : pynum) : result pynum :=
  match a, b with
  | NInt x, NInt y => Ok (NInt (x + y))
  | _, _ => float_op fadd a b
  end.

Definition py_sub (a b : pynum) : result pynum :=
  match a, b with
  | NInt x, NInt y => Ok (NInt (x - y))
  | _, _ => float_op fsub a b
  end.

Definition py_mul (a b : pynum) : result pynum :=
  match a, b with
  | NInt x, NInt y => Ok (NInt (x * y))
  | _, _ => float_op fmul a b
  end.

(** [a / b]: true division, always a float.  Two ints are divided as
    ints, and only the quotient has to be in the range of the floats; with
    a float operand both operands are converted before the divisor is
    compared with 0. *)
Definition py_truediv (a b : pynum) : result pynum :=
  match a, b with
  | NInt x, NInt y =>
      if decide (y = 0) then Raise ZeroDivisionError
      else match int_truediv x y with
           | Some f => Ok (NFloat f)
           | None => Raise OverflowError
           end
  | _, _ =>
      x ← py_to_float a;
      y ← py_to_float b;
      if fis0 y then Raise ZeroDivisionError else Ok (NFloat (fdiv x y))
  end.

(** [a % b] and [a // b] on ints. *)
Definition py_mod (a b : Z) : result Z :=
  if decide (b = 0) then Raise ZeroDivisionError else Ok (a `mod` b).

Definition py_floordiv (a b : Z) : result Z :=
  if decide (b = 0) then Raise ZeroDivisionError else Ok (a `div` b).

(** Attribute values: strings, numbers, and references to list objects. *)
Inductive pyval :=
  | VStr (s : string)
  | VNum (n : pynum)
  | VRef (l : loc).

(** [str(v)], also what ["{}".format(v)] prints. *)
Definition py_str_num (n : pynum) : string :=
  match n with
  | NInt z => pretty z
  | NFloat f => str_of_float f
  end.

Definition py_str (v : pyval) : string :=
  match v with
  | VStr s => s
  | VNum n => py_str_num n
  | VRef _ => "[...]"
  end.

(** [float(v)] *)
Definition py_float (v : pyval) : result F :=
  match v with
  | VStr s =>
      match float_of_string s with
      | Some f => Ok f
      | None => Raise ValueError
      end
  | VNum n => py_to_float n
  | VRef _ => Raise TypeError
  end.

(** [tuple(map(float, l))] *)
Fixpoint floats_of_strings (l : list string) : result (list F) :=
  match l with
  | [] => Ok []
  | s :: l' =>
      match float_of_string s with
      | None => Raise ValueError
      | Some f =>
          match floats_of_strings l' with
          | Ok fs => Ok (f :: fs)
          | Raise e => Raise e
          end
      end
  end.

(** ** Vectors and matrices ([numpy]) *)

Definition vec3 : Type := F * F * F.
Definition vec4 : Type := F * F * F * F.
Definition mat4 : Type := vec4 * vec4 * vec4 * vec4.

Definition f0 : F := float_of_Z 0.
Definition f1 : F := float_of_Z 1.

Definition dot4 (a b : vec4) : F :=
  let '(a0, a1, a2, a3) := a in
  let '(b0, b1, b2, b3) := b in
  fadd (fadd (fadd (fmul a0 b0) (fmul a1 b1)) (fmul a2 b2)) (fmul a3 b3).

Definition column (m : mat4) (j : nat) : vec4 :=
  let '(r0, r1, r2, r3) := m in
  let pick (r : vec4) : F :=
    let '(x0, x1, x2, x3) := r in
    match j with O => x0 | 1%nat => x1 | 2%nat => x2 | _ => x3 end in
  (pick r0, pick r1, pick r2, pick r3).

(** [numpy.identity(4)] *)
Definition identity4 : mat4 :=
  ((f1, f0, f0, f0), (f0, f1, f0, f0), (f0, f0, f1, f0), (f0, f0, f0, f1)).

(** [numpy.dot(a, b)] on two 4x4 arrays. *)
Definition mat_mul (a b : mat4) : mat4 :=
  let '(r0, r1, r2, r3) := a in
  let row (r : vec4) : vec4 :=
    (dot4 r (column b 0), dot4 r (column b 1),
     dot4 r (column b 2), dot4 r (column b 3)) in
  (row r0, row r1, row r2, row r3).

(** [numpy.dot(m, v)] on a 4x4 array and a 4-vector. *)
Definition mat_vec (m : mat4) (v : vec4) : vec4 :=
  let '(r0, r1, r2, r3) := m in
  (dot4 r0 v, dot4 r1 v, dot4 r2 v, dot4 r3 v).

(** [tuple(numpy.dot(m, ( *p, 1))[:3])] *)
Definition transform_point (m : mat4) (p : vec3) : vec3 :=
  let '(x, y, z) := p in
  let '(x', y', z', _) := mat_vec m (x, y, z, f1) in
  (x', y', z').

(** [mat = numpy.identity(4); mat[:3, 3] = x, y, z] *)
Definition translation (x y z : F) : mat4 :=
  let '(r0, r1, r2, r3) := identity4 in
  let set3 (r : vec4) (v : F) : vec4 :=
    let '(a, b, c, _) := r in (a, b, c, v) in
  (set3 r0 x, set3 r1 y, set3 r2 z, r3).

(** The module [mathhelper] of the repository: three mirror matrices and
    the two conversions between a bearing in degrees and a vector. *)
Record MathHelper := {
  horizontal_flip : mat4;
  vertical_flip : mat4;
  diagonal_flip : mat4;
  vector_from_angle : F → vec3;
  angle_between : vec3 → F
}.

(** ** Geometry of [quake.map]

    An [m.Plane] and an [m.Brush] are written only while the script builds
    them (lines 294-313), before they are appended to a list; those of the
    cached prefabs are only read.  They are values here; the lists of
    brushes, which the script extends in place, are objects of the heap. *)

Record plane := Plane {
  points : list vec3;
  texture_name : string;
  offset : F * F;
  rotation : F;
  scale : F * F
}.

Record brush := Brush { planes : list plane }.

(** ** The heap *)

Inductive obj :=
  | OEntity (d : gmap string pyval)   (* an [m.Entity] and its [__dict__] *)
  | OList (bs : list brush).          (* a list of brushes *)

Record state := State {
  heap : gmap loc obj;
  entities : list loc;
  missing_gids : list Z;
  tiles_processed : Z;
  brush_count : Z;
  stdout : list string
}.

Definition M (A : Type) : Type := state → result A * state.

#[global] Instance M_ret : MRet M := λ A a st, (Ok a, st).

#[global] Instance M_bind : MBind M := λ A B f m st,
  match m st with
  | (Ok a, st') => f a st'
  | (Raise e, st') => (Raise e, st')
  end.

Definition raise {A} (e : exn) : M A := λ st, (Raise e, st).

Definition lift {A} (r : result A) : M A := λ st, (r, st).

Definition set_heap (h : gmap loc obj) (st : state) : state :=
  State h (entities st) (missing_gids st) (tiles_processed st)
        (brush_count st) (stdout st).

Definition alloc (o : obj) : M loc := λ st,
  let l := fresh (dom (heap st)) in
  (Ok l, set_heap (<[l := o]> (heap st)) st).

Definition read_dict (e : loc) : M (gmap string pyval) := λ st,
  match heap st !! e with
  | Some (OEntity d) => (Ok d, st)
  | _ => (Raise TypeError, st)
  end.

Definition write_dict (e : loc) (d : gmap string pyval) : M unit := λ st,
  (Ok tt, set_heap (<[e := OEntity d]> (heap st)) st).

(** The brushes of the list that [v] refers to. *)
Definition read_list (v : pyval) : M (list brush) := λ st,
  match v with
  | VRef l =>
      match heap st !! l with
      | Some (OList bs) => (Ok bs, st)
      | _ => (Raise TypeError, st)
      end
  | _ => (Raise TypeError, st)
  end.

(** [v.append(b)] *)
Definition list_append (v : pyval) (b : brush) : M unit :=
  bs ← read_list v;
  match v with
  | VRef l => λ st, (Ok tt, set_heap (<[l := OList (bs ++ [b])]> (heap st)) st)
  | _ => raise AttributeError
  end.

(** The literal [[]]. *)
Definition new_list : M pyval := l ← alloc (OList []); mret (VRef l).

(** [m.Entity()]: the constructor of [quake.map] gives the new object an
    empty list of brushes and no other attribute. *)
Definition new_Entity : M loc :=
  bl ← new_list;
  alloc (OEntity {["brushes" := bl]}).

(** [getattr(e, k)] on the [__dict__] of [e]. *)
Definition getattr (e : loc) (k : string) : M pyval :=
  d ← read_dict e;
  match d !! k with
  | Some v => mret v
  | None => raise AttributeError
  end.

(** Three names that [setattr] does not store in the [__dict__] of an
    instance: [__class__] and [__dict__] only take a class and a dict,
    which no value of the script is ([TypeError]), and [__weakref__] cannot
    be written ([AttributeError]). *)
Definition setattr_refuses (k : string) : option exn :=
  if decide (k = "__class__" ∨ k = "__dict__") then Some TypeError
  else if decide (k = "__weakref__") then Some AttributeError
  else None.

(** [setattr(e, k, v)] *)
Definition setattr (e : loc) (k : string) (v : pyval) : M unit :=
  d ← read_dict e;
  match setattr_refuses k with
  | Some x => raise x
  | None => write_dict e (<[k := v]> d)
  end.

(** [for x in xs: body] *)
Fixpoint for_each {A} (xs : list A) (body : A → M unit) : M unit :=
  match xs with
  | [] => mret tt
  | x :: xs' => body x;; for_each xs' body
  end.

(** [for i, x in enumerate(xs): body], counting from [i]. *)
Fixpoint for_enumerate {A} (i : Z) (xs : list A) (body : Z → A → M unit)
  : M unit :=
  match xs with
  | [] => mret tt
  | x :: xs' => body i x;; for_enumerate (i + 1) xs' body
  end.

(** ** The inputs of the pass: what [tmx], the mapping file and the prefab
    loader have produced when line 192 is reached. *)

(** [tmx.LayerTile] *)
Record tile := Tile { gid : Z; hflip : bool; vflip : bool; dflip : bool }.

(** The value of a [tmx.Property]: a string or a number. *)
Inductive scalar :=
  | SStr (s : string)
  | SNum (n : pynum).

Definition of_scalar (v : scalar) : pyval :=
  match v with
  | SStr s => VStr s
  | SNum n => VNum n
  end.

(** [tmx.Property] *)
Record property := Property { prop_name : string; prop_value : scalar }.

(** [tmx.Object] *)
Record object := Object {
  obj_x : pynum;
  obj_y : pynum;
  obj_name : string;
  obj_properties : list property
}.

(** The elements of [tilemap.layers]; the loop ignores every layer that is
    neither a [tmx.Layer] nor a [tmx.ObjectGroup]. *)
Inductive layer :=
  | Layer (layer_tiles : list tile)
  | ObjectGroup (objects : list object)
  | OtherLayer.

Record inputs := Inputs {
  width : Z;                      (* tilemap.width *)
  height : Z;                     (* tilemap.height *)
  tile_size_3d : pynum;           (* tile_mapping["tilesize"] *)
  tile_size_2d : Z;               (* tilemap.tilewidth *)
  tilemap_width_3d : pynum;       (* the variable assigned on line 150 *)
  tilemap_height_3d : pynum;      (* the variable assigned on line 151 *)
  layers : list layer;            (* tilemap.layers *)
  tiles : gmap Z (list loc);      (* gid -> prefab, a list of entities *)
  mathhelper : MathHelper
}.

(** Lines 150-151, which have run when line 192 is reached: the two
    variables hold [tilemap.width * tile_size_3d] and
    [tilemap.height * tile_size_3d]. *)
Definition dimensions_assigned (cfg : inputs) : Prop :=
  py_mul (NInt (width cfg)) (tile_size_3d cfg) = Ok (tilemap_width_3d cfg) ∧
  py_mul (NInt (height cfg)) (tile_size_3d cfg) = Ok (tilemap_height_3d cfg).

(** ** Script variables *)

Definition append_entity (e : loc) : M unit := λ st,
  (Ok tt, State (heap st) (entities st ++ [e]) (missing_gids st)
                (tiles_processed st) (brush_count st) (stdout st)).

Definition append_missing_gid (g : Z) : M unit := λ st,
  (Ok tt, State (heap st) (entities st) (missing_gids st ++ [g])
                (tiles_processed st) (brush_count st) (stdout st)).

Definition incr_tiles_processed : M unit := λ st,
  (Ok tt, State (heap st) (entities st) (missing_gids st)
                (tiles_processed st + 1) (brush_count st) (stdout st)).

Definition incr_brush_count : M unit := λ st,
  (Ok tt, State (heap st) (entities st) (missing_gids st)
                (tiles_processed st) (brush_count st + 1) (stdout st)).

Definition print (line : string) : M unit := λ st,
  (Ok tt, State (heap st) (entities st) (missing_gids st)
                (tiles_processed st) (brush_count st) (stdout st ++ [line])).

Definition get_missing_gids : M (list Z) := λ st, (Ok (missing_gids st), st).

(** ** Lines 193-200: the accumulator *)

Definition create_worldspawn (cfg : inputs) : M loc :=
  worldspawn ← new_Entity;
  setattr worldspawn "classname" (VStr "worldspawn");;
  wad ← match tiles cfg !! 2 with
        | None => raise KeyError
        | Some [] => raise IndexError
        | Some (first :: _) => getattr first "wad"
        end;
  setattr worldspawn "wad" wad;;
  bl ← new_list;
  setattr worldspawn "brushes" bl;;
  append_entity worldspawn;;
  mret worldspawn.

(** ** Lines 224-250: the transform of a cell *)

(** [x = index % width; y = tilemap.height - (index // height)] *)
Definition tile_xy (cfg : inputs) (index : Z) : result (Z * Z) :=
  x ← py_mod index (width cfg);
  q ← py_floordiv index (height cfg);
  mret (x, height cfg - q).

(** Line 227, in the order of evaluation:
    [x * tile_size_3d + (tile_size_3d / 2) - (tilemap_width_3d / 2)] *)
Definition tilemap_offset_x (cfg : inputs) (x : Z) : result pynum :=
  side ← py_mul (NInt x) (tile_size_3d cfg);
  half ← py_truediv (tile_size_3d cfg) (NInt 2);
  centre ← py_add side half;
  half_map ← py_truediv (tilemap_width_3d cfg) (NInt 2);
  py_sub centre half_map.

(** Line 228:
    [y * tile_size_3d - (tile_size_3d / 2) - (tilemap_height_3d / 2)] *)
Definition tilemap_offset_y (cfg : inputs) (y : Z) : result pynum :=
  side ← py_mul (NInt y) (tile_size_3d cfg);
  half ← py_truediv (tile_size_3d cfg) (NInt 2);
  centre ← py_sub side half;
  half_map ← py_truediv (tilemap_height_3d cfg) (NInt 2);
  py_sub centre half_map.

(** One [if tile.?flip:] block: multiply on the right, toggle the flag. *)
Definition flip_step (flag : bool) (m : mat4) (acc : mat4 * bool)
  : mat4 * bool :=
  if flag then (mat_mul acc.1 m, negb acc.2) else acc.

(** [flip_matrix] and [flip_face] after the three blocks. *)
Definition tile_flip (cfg : inputs) (t : tile) : mat4 * bool :=
  flip_step (dflip t) (diagonal_flip (mathhelper cfg))
    (flip_step (vflip t) (vertical_flip (mathhelper cfg))
       (flip_step (hflip t) (horizontal_flip (mathhelper cfg))
          (identity4, false))).

(** [(mat, flip_matrix, flip_face)] of the cell at [index]. *)
Definition tile_transform (cfg : inputs) (index : Z) (t : tile)
  : result (mat4 * mat4 * bool) :=
  xy ← tile_xy cfg index;
  ox ← tilemap_offset_x cfg xy.1;
  oy ← tilemap_offset_y cfg xy.2;
  fx ← py_to_float ox;
  fy ← py_to_float oy;
  let mat := translation fx fy (float_of_Z 0) in
  let flip := tile_flip cfg t in
  mret (mat_mul mat flip.1, flip.1, flip.2).

(** ** Lines 262-289: properties of a placed entity *)

(** [for key in entity.__dict__.keys(): if key != "brushes": setattr(e, key, ...)] *)
Definition copy_properties (template e : gmap string pyval)
  : gmap string pyval :=
  map_fold (λ key v acc, if decide (key = "brushes") then acc
                         else <[key := v]> acc) e template.

(** Lines 270-272 on the value of [e.origin]. *)
Definition place_origin (mat : mat4) (v : pyval) : result pyval :=
  match v with
  | VStr s =>
      origin ← floats_of_strings (split_spaces s);
      match origin with
      | [x; y; z] =>
          let '(x', y', z') := transform_point mat (x, y, z) in
          mret (VStr (join_spaces (str_of_float <$> [x'; y'; z'])))
      | _ => Raise ValueError
      end
  | _ => Raise AttributeError
  end.

(** Lines 280-282 and 287-289: a bearing through [flip_matrix]. *)
Definition mirror_bearing (cfg : inputs) (flip_matrix : mat4) (deg : F) : F :=
  angle_between (mathhelper cfg)
    (transform_point flip_matrix (vector_from_angle (mathhelper cfg) deg)).

(** Lines 279-284 on the value of [e.mangle]. *)
Definition place_mangle (cfg : inputs) (flip_matrix : mat4) (v : pyval)
  : result pyval :=
  match v with
  | VStr s =>
      mangle ← floats_of_strings (split_spaces s);
      match mangle with
      | pitch :: yaw :: roll :: _ =>
          let bearing := mirror_bearing cfg flip_matrix yaw in
          mret (VStr (join_spaces (str_of_float <$> [pitch; bearing; roll])))
      | _ => Raise IndexError
      end
  | _ => Raise AttributeError
  end.

(** Lines 268-272 on the [__dict__] of the entity. *)
Definition transform_origin (mat : mat4) (d : gmap string pyval)
  : result (gmap string pyval) :=
  match d !! "origin" with
  | Some v => o ← place_origin mat v; mret (<["origin" := o]> d)
  | None => mret d
  end.

(** Lines 275-276: [if not hasattr(e, 'angle'): setattr(e, 'angle', 0)]. *)
Definition set_default_angle (d : gmap string pyval) : gmap string pyval :=
  match d !! "angle" with
  | None => <["angle" := VNum (NInt 0)]> d
  | Some _ => d
  end.

(** Lines 278-289: [mangle] if there is one, else [angle]. *)
Definition rederive_angles (cfg : inputs) (flip_matrix : mat4)
    (d : gmap string pyval) : result (gmap string pyval) :=
  match d !! "mangle" with
  | Some v => m ← place_mangle cfg flip_matrix v; mret (<["mangle" := m]> d)
  | None =>
      match d !! "angle" with
      | None => Raise AttributeError
      | Some a =>
          angle ← py_float a;
          if fge0 angle
          then mret (<["angle" :=
                        VNum (NFloat (mirror_bearing cfg flip_matrix angle))]> d)
          else mret d
      end
  end.

(** Lines 268-289 on the [__dict__] of an entity that is not the
    accumulator. *)
Definition place_properties (cfg : inputs) (mat flip_matrix : mat4)
    (d : gmap string pyval) : result (gmap string pyval) :=
  d1 ← transform_origin mat d;
  rederive_angles cfg flip_matrix (set_default_angle d1).

(** ** Lines 291-314: brushes *)

Definition transform_plane (mat : mat4) (flip_face : bool) (copy_plane : plane)
  : plane :=
  let q_points := transform_point mat <$> points copy_plane in
  Plane (if flip_face then reverse q_points else q_points)
        (texture_name copy_plane) (offset copy_plane)
        (rotation copy_plane) (scale copy_plane).

Definition transform_brush (mat : mat4) (flip_face : bool) (copy_brush : brush)
  : brush :=
  Brush (transform_plane mat flip_face <$> planes copy_brush).

(** ** Lines 253-317: one template entity of the prefab *)

Definition is_worldspawn (v : pyval) : bool :=
  match v with
  | VStr s => bool_decide (s = "worldspawn")
  | _ => false
  end.

Definition place_entity (cfg : inputs) (mat flip_matrix : mat4)
    (flip_face : bool) (worldspawn entity : loc) : M unit :=
  c ← getattr entity "classname";
  e ← (if is_worldspawn c then mret worldspawn
       else
         e ← new_Entity;
         setattr e "classname" (VStr "func_unknown");;
         bl ← new_list;
         setattr e "brushes" bl;;
         mret e);
  template ← read_dict entity;
  d ← read_dict e;
  write_dict e (copy_properties template d);;
  c ← getattr e "classname";
  (if is_worldspawn c then mret tt
   else
     d ← read_dict e;
     d' ← lift (place_properties cfg mat flip_matrix d);
     write_dict e d');;
  bv ← getattr entity "brushes";
  brushes ← read_list bv;
  for_each brushes (λ copy_brush,
    incr_brush_count;;
    bl ← getattr e "brushes";
    list_append bl (transform_brush mat flip_face copy_brush));;
  c ← getattr e "classname";
  if is_worldspawn c then mret tt else append_entity e.

(** ** Lines 210-317: one cell of a tile layer *)

(** [not tiles.get(gid)]: no entry, or a prefab without entities. *)
Definition no_prefab (cfg : inputs) (g : Z) : bool :=
  match tiles cfg !! g with
  | None | Some [] => true
  | Some (_ :: _) => false
  end.

Definition place_tile (cfg : inputs) (worldspawn : loc) (index : Z) (t : tile)
  : M unit :=
  if decide (gid t = 0) then mret tt
  else
    missing ← get_missing_gids;
    if no_prefab cfg (gid t) && negb (bool_decide (gid t ∈ missing))
    then
      print ("WARNING: Missing tile mapping for gid: " +:+ pretty (gid t));;
      append_missing_gid (gid t)
    else
      incr_tiles_processed;;
      tr ← lift (tile_transform cfg index t);
      prefab ← match tiles cfg !! gid t with
               | Some p => mret p
               | None => raise KeyError
               end;
      for_each prefab (place_entity cfg tr.1.1 tr.1.2 tr.2 worldspawn).

(** ** Lines 320-338: one object of an object layer *)

(** [for prop in obj.properties], threading the local [z]. *)
Fixpoint copy_object_properties (e : loc) (z : pyval) (props : list property)
  : M pyval :=
  match props with
  | [] => mret z
  | prop :: props' =>
      if String.eqb (prop_name prop) "Z"
      then copy_object_properties e (of_scalar (prop_value prop)) props'
      else setattr e (prop_name prop) (of_scalar (prop_value prop));;
           copy_object_properties e z props'
  end.

(** Lines 332-334, in the order of evaluation: [scale], [ex] and [ey]. *)
Definition object_planar (cfg : inputs) (o : object) : result (pynum * pynum) :=
  scale ← py_truediv (tile_size_3d cfg) (NInt (tile_size_2d cfg));
  sx ← py_mul (obj_x o) scale;
  half_w ← py_truediv (tilemap_width_3d cfg) (NInt 2);
  ex ← py_sub sx half_w;
  top ← py_mul (NInt (height cfg)) (tile_size_3d cfg);
  sy ← py_mul (obj_y o) scale;
  down ← py_sub top sy;
  half_h ← py_truediv (tilemap_height_3d cfg) (NInt 2);
  ey ← py_sub down half_h;
  mret (ex, ey).

(** ["{} {} {}".format(ex, ey, z)] *)
Definition format_origin (ex ey : pynum) (z : pyval) : string :=
  py_str_num ex +:+ " " +:+ py_str_num ey +:+ " " +:+ py_str z.

Definition place_object (cfg : inputs) (o : object) : M unit :=
  e ← new_Entity;
  z ← copy_object_properties e (VNum (NInt 0)) (obj_properties o);
  xy ← lift (object_planar cfg o);
  setattr e "origin" (VStr (format_origin xy.1 xy.2 z));;
  setattr e "classname" (VStr (obj_name o));;
  append_entity e.

(** ** Lines 193-338 *)

Definition place_layer (cfg : inputs) (worldspawn : loc) (l : layer) : M unit :=
  match l with
  | Layer layer_tiles => for_enumerate 0 layer_tiles (place_tile cfg worldspawn)
  | ObjectGroup objects => for_each objects (place_object cfg)
  | OtherLayer => mret tt
  end.

Definition create_map (cfg : inputs) : M unit :=
  worldspawn ← create_worldspawn cfg;
  for_each (layers cfg) (place_layer cfg worldspawn).

(** The state at line 193, with the loaded prefabs in [h]. *)
Definition initial_state (h : gmap loc obj) : state := State h [] [] 0 0 [].

Definition run (cfg : inputs) (h : gmap loc obj) : result unit * state :=
  create_map cfg (initial_state h).

End Placement.

Arguments pynum F : clear implicits.
Arguments pyval F : clear implicits.
Arguments vec3 F : clear implicits.
Arguments vec4 F : clear implicits.
Arguments mat4 F : clear implicits.
Arguments MathHelper F : clear implicits.
Arguments plane F : clear implicits.
Arguments brush F : clear implicits.
Arguments obj F : clear implicits.
Arguments state F : clear implicits.
Arguments M F A : clear implicits.
Arguments scalar F : clear implicits.
Arguments property F : clear implicits.
Arguments object F : clear implicits.
Arguments layer F : clear implicits.
Arguments inputs F : clear implicits.

(** ** Floats as exact rationals

    An executable instance: arithmetic without rounding, which is what
    IEEE doubles compute as long as every intermediate value is a double
    (integers and halves of moderate size); an [int] or a quotient of ints
    beyond the range of the doubles has no float.  [float(s)] reads the
    ASCII decimal literals of Python, with their white space, sign,
    underscores and exponent, as the rational they denote (the words [inf]
    and [nan] denote none); [str(x)] prints an integral value as [N.0] and
    any other value by its decimal expansion (at most 17 fractional
    digits). *)

Definition digit_of (c : ascii) : option Z :=
  let n := Z.of_nat (nat_of_ascii c) in
  if (48 <=? n) && (n <=? 57) then Some (n - 48) else None.

(** The digits at the head of [s], a single underscore allowed between two
    of them: their value after [acc], their number after [n], and the
    rest. *)
Fixpoint read_digits (s : string) (acc : Z) (n : nat) : Z * nat * string :=
  match s with
  | EmptyString => (acc, n, s)
  | String c s' =>
      match digit_of c with
      | Some d => read_digits s' (10 * acc + d) (S n)
      | None =>
          if Ascii.eqb c "_"%char && negb (n =? 0)%nat then
            match s' with
            | String c' _ =>
                match digit_of c' with
                | Some _ => read_digits s' acc n
                | None => (acc, n, s)
                end
            | EmptyString => (acc, n, s)
            end
          else (acc, n, s)
      end
  end.

(** The white space of [str.strip], in ASCII. *)
Definition is_space (c : ascii) : bool :=
  let n := Z.of_nat (nat_of_ascii c) in
  (n =? 32) || ((9 <=? n) && (n <=? 13)) || ((28 <=? n) && (n <=? 31)).

Fixpoint lstrip (s : string) : string :=
  match s with
  | EmptyString => s
  | String c s' => if is_space c then lstrip s' else s
  end.

(** [s.strip()] *)
Definition strip (s : string) : string :=
  String.rev (lstrip (String.rev (lstrip s))).

(** An optional sign: whether it is [-], and what follows it. *)
Definition split_sign (s : string) : bool * string :=
  match s with
  | String c s' =>
      if Ascii.eqb c "-"%char then (true, s')
      else if Ascii.eqb c "+"%char then (false, s')
      else (false, s)
  | EmptyString => (false, s)
  end.

(** What follows the [e] of a literal: a sign and digits, to the end. *)
Definition parse_exponent (s : string) : option Z :=
  let '(negative, s1) := split_sign s in
  let '(e, n, rest) := read_digits s1 0 0 in
  match rest with
  | EmptyString =>
      if (n =? 0)%nat then None else Some (if negative then - e else e)
  | _ => None
  end.

Definition scale10 (q : Q) (e : Z) : Q :=
  if 0 <=? e then Qred (q * inject_Z (10 ^ e))
  else Qred (q / inject_Z (10 ^ (- e))).

(** Digits, a point and digits (one of the two groups may be empty), and
    an exponent or the end. *)
Definition parse_unsigned (s : string) : option Q :=
  let '(ip, n1, rest) := read_digits s 0 0 in
  let '(fp, n2, rest') :=
    match rest with
    | String c r =>
        if Ascii.eqb c "."%char then read_digits r 0 0 else (0, 0%nat, rest)
    | EmptyString => (0, 0%nat, rest)
    end in
  if (n1 + n2 =? 0)%nat then None
  else
    let mantissa := Qred (Qmake (ip * 10 ^ Z.of_nat n2 + fp)
                                (Z.to_pos (10 ^ Z.of_nat n2))) in
    match rest' with
    | EmptyString => Some mantissa
    | String c r =>
        if Ascii.eqb c "e"%char || Ascii.eqb c "E"%char
        then scale10 mantissa <$> parse_exponent r
        else None
    end.

Definition float_of_string_Q (s : string) : option Q :=
  let '(negative, s1) := split_sign (strip s) in
  if negative then Qopp <$> parse_unsigned s1 else parse_unsigned s1.

(** The fractional digits of [num / den], for [0 <= num < den]. *)
Fixpoint fraction_digits (fuel : nat) (num den : Z) : string :=
  match fuel with
  | O => EmptyString
  | S fuel' =>
      if decide (num = 0) then EmptyString
      else pretty ((10 * num) `div` den)
             +:+ fraction_digits fuel' ((10 * num) `mod` den) den
  end.

Definition str_of_float_Q (q : Q) : string :=
  let q := Qred q in
  let n := Qnum q in
  let d := Z.pos (Qden q) in
  let sign := if decide (n < 0) then "-" else "" in
  let a := Z.abs n in
  sign +:+ pretty (a `div` d) +:+ "." +:+
    (if decide (a `mod` d = 0) then "0" else fraction_digits 17 (a `mod` d) d).

(** An integer, or the quotient of two, is in the range of the doubles
    when its magnitude is below [2^1024 - 2^970], from where on the nearest
    double would be [2^1024]. *)
Definition float_limit : Z := 2 ^ 1024 - 2 ^ 970.

Definition float_of_int_Q (z : Z) : option Q :=
  if Z.abs z <? float_limit then Some (inject_Z z) else None.

Definition int_truediv_Q (a b : Z) : option Q :=
  if Z.abs a <? float_limit * Z.abs b
  then Some (Qred (inject_Z a / inject_Z b)) else None.

#[global] Instance Q_arith : FloatArith Q := {|
  float_of_Z := inject_Z;
  float_of_int := float_of_int_Q;
  int_truediv := int_truediv_Q;
  fadd a b := Qred (a + b);
  fsub a b := Qred (a - b);
  fmul a b := Qred (a * b);
  fdiv a b := Qred (a / b);
  fis0 a := Qeq_bool a 0;
  fge0 a := Qle_bool 0 a
|}.

#[global] Instance Q_text : FloatText Q := {|
  float_of_string := float_of_string_Q;
  str_of_float := str_of_float_Q
|}.

(** ** Floats as reals, and [mathhelper]

    Arithmetic without rounding and without bound, for the statements
    that are about exact values. *)

#[global] Instance R_arith : FloatArith R := {|
  float_of_Z := IZR;
  float_of_int z := Some (IZR z);
  int_truediv a b := Some (IZR a / IZR b)%R;
  fadd := Rplus;
  fsub := Rminus;
  fmul := Rmult;
  fdiv := Rdiv;
  fis0 a := if Req_dec_T a 0 then true else false;
  fge0 a := if Rle_dec 0 a then true else false
|}.

(** Modelled from the spec: [mathhelper.py] is not among the sources.  The
    horizontal mirror reverses the X axis ("bearing reversed along X"). *)
Definition spec_horizontal_flip : mat4 R :=
  ((-1, 0, 0, 0), (0, 1, 0, 0), (0, 0, 1, 0), (0, 0, 0, 1))%R.

(** Modelled from the spec: [mathhelper.vector_from_angle] is not among
    the sources.  "Convert the bearing component to a 2D unit vector";
    bearing 0 is along +X. *)
Definition spec_vector_from_angle (deg : R) : vec3 R :=
  (cos (deg * PI / 180), sin (deg * PI / 180), 0)%R.

(** Modelled from the spec: [mathhelper.angle_between] is not among the
    sources.  "Convert back to a bearing angle": the angle in degrees, in
    [0, 360), of the direction of the vector in the XY plane. *)
Definition spec_angle_between (v : vec3 R) : R :=
  let '(x, y, _) := v in
  (if Rlt_dec 0 x then
     if Rle_dec 0 y then atan (y / x) * 180 / PI
     else atan (y / x) * 180 / PI + 360
   else if Rlt_dec x 0 then atan (y / x) * 180 / PI + 180
   else if Rlt_dec 0 y then 90
   else if Rlt_dec y 0 then 270
   else 0)%R.

(** Modelled from the spec: the module [mathhelper], with the two mirror
    matrices the spec does not describe left open. *)
Definition spec_mathhelper (vertical diagonal : mat4 R) : MathHelper R := {|
  horizontal_flip := spec_horizontal_flip;
  vertical_flip := vertical;
  diagonal_flip := diagonal;
  vector_from_angle := spec_vector_from_angle;
  angle_between := spec_angle_between
|}.

(** ** Reading the heap *)

Section Views.
Context {F : Type} `{!FloatArith F, !FloatText F}.

(** The [__dict__] of the entity at [e]. *)
Definition get_dict (h : gmap loc (obj F)) (e : loc)
  : option (gmap string (pyval F)) :=
  match h !! e with
  | Some (OEntity d) => Some d
  | _ => None
  end.

(** The list of brushes at [l]. *)
Definition get_list (h : gmap loc (obj F)) (l : loc) : option (list (brush F)) :=
  match h !! l with
  | Some (OList bs) => Some bs
  | _ => None
  end.

(** [e.brushes] *)
Definition entity_brushes (h : gmap loc (obj F)) (e : loc)
  : option (list (brush F)) :=
  match get_dict h e with
  | Some d =>
      match d !! "brushes" with
      | Some (VRef l) => get_list h l
      | _ => None
      end
  | None => None
  end.

(** The value of attribute [k] of the entity at [e]. *)
Definition entity_attr (h : gmap loc (obj F)) (e : loc) (k : string)
  : option (pyval F) :=
  match get_dict h e with
  | Some d => d !! k
  | None => None
  end.

(** A loaded template entity: an entity of the heap whose [brushes]
    attribute is a list of the heap. *)
Definition loaded (h : gmap loc (obj F)) (t : loc) : Prop :=
  is_Some (get_dict h t) ∧ is_Some (entity_brushes h t).

(** Every entity of every cached prefab has been loaded. *)
Definition prefabs_loaded (cfg : inputs F) (h : gmap loc (obj F)) : Prop :=
  map_Forall (λ _ prefab, Forall (loaded h) prefab) (tiles cfg).

Definition is_world_template (h : gmap loc (obj F)) (t : loc) : bool :=
  match entity_attr h t "classname" with
  | Some c => is_worldspawn c
  | None => false
  end.

Definition template_brushes (h : gmap loc (obj F)) (t : loc) : list (brush F) :=
  default [] (entity_brushes h t).

(** The prefab the cell stamps: none for the empty gid 0 and for a gid
    without mapping. *)
Definition cell_prefab (cfg : inputs F) (t : tile) : list loc :=
  if decide (gid t = 0) then [] else default [] (tiles cfg !! gid t).

(** [(mat, flip_matrix, flip_face)] of a cell whose transform is defined. *)
Definition cell_transform (cfg : inputs F) (index : Z) (t : tile)
  : mat4 F * mat4 F * bool :=
  match tile_transform cfg index t with
  | Ok tr => tr
  | Raise _ => (identity4, identity4, false)
  end.

(** The brushes one cell contributes to the accumulator: the transformed
    brushes of the world entities of its prefab, in prefab order. *)
Definition cell_world_brushes (cfg : inputs F) (h : gmap loc (obj F))
    (index : Z) (t : tile) : list (brush F) :=
  let tr := cell_transform cfg index t in
  mjoin ((λ tpl, transform_brush tr.1.1 tr.2 <$> template_brushes h tpl)
           <$> filter (λ tpl, is_world_template h tpl = true) (cell_prefab cfg t)).

(** Modelled from the spec: [mathhelper.py] is not among the sources.
    What the spec says of it at bearing 0: "[angle = 0] (bearing along
    +X)", under the horizontal mirror "bearing reversed along X", and that
    bearing is "[angle = 180]". *)
Definition spec_bearing_0 (mh : MathHelper F) : Prop :=
  vector_from_angle mh (float_of_Z 0) = (f1, f0, f0) ∧
  transform_point (mat_mul identity4 (horizontal_flip mh)) (f1, f0, f0)
  = (float_of_Z (-1), f0, f0) ∧
  angle_between mh (float_of_Z (-1), f0, f0) = float_of_Z 180.

(** The number of mirror flags of a tile that are set. *)
Definition active_flips (t : tile) : nat :=
  length (filter (λ b : bool, b = true) [hflip t; vflip t; dflip t]).

(** The point [p'] is the point [p] taken through the matrix [mat]: its
    coordinates are the first three of the product of [mat] and
    [(x, y, z, 1)]. *)
Definition point_placed (mat : mat4 F) (p p' : vec3 F) : Prop :=
  ∃ w, mat_vec mat (p.1.1, p.1.2, p.2, f1) = (p'.1.1, p'.1.2, p'.2, w).

(** The plane [q] is the template plane [p] placed with the matrix [mat]:
    the same texture name, offset, rotation and scale, and as its points
    the points of [p] taken through [mat], in reverse order if
    [reversed]. *)
Definition plane_placed (mat : mat4 F) (reversed : bool) (p q : plane F)
  : Prop :=
  texture_name q = texture_name p ∧ offset q = offset p ∧
  rotation q = rotation p ∧ scale q = scale p ∧
  Forall2 (point_placed mat) (points p)
          (if reversed then reverse (points q) else points q).

(** The brush [b'] has the planes of the template brush [b], each placed
    with [mat], in the same order. *)
Definition brush_placed (mat : mat4 F) (reversed : bool) (b b' : brush F)
  : Prop :=
  Forall2 (plane_placed mat reversed) (planes b) (planes b').

(** Where an entity of the output list other than the accumulator comes
    from: a template entity stamped by a cell, or an object. *)
Inductive source :=
  | FromTile (index : Z) (t : tile) (template : loc)
  | FromObject (o : object F).

Definition cell_sources (cfg : inputs F) (h : gmap loc (obj F))
    (index : Z) (t : tile) : list source :=
  FromTile index t
    <$> filter (λ tpl, is_world_template h tpl = false) (cell_prefab cfg t).

(** Cells of a layer with their index, counting from [i]. *)
Fixpoint enumerate_from {A} (i : Z) (xs : list A) : list (Z * A) :=
  match xs with
  | [] => []
  | x :: xs' => (i, x) :: enumerate_from (i + 1) xs'
  end.

Definition layer_world_brushes (cfg : inputs F) (h : gmap loc (obj F))
    (l : layer F) : list (brush F) :=
  match l with
  | Layer ts =>
      mjoin ((λ c, cell_world_brushes cfg h c.1 c.2) <$> enumerate_from 0 ts)
  | _ => []
  end.

Definition layer_sources (cfg : inputs F) (h : gmap loc (obj F)) (l : layer F)
  : list source :=
  match l with
  | Layer ts => mjoin ((λ c, cell_sources cfg h c.1 c.2) <$> enumerate_from 0 ts)
  | ObjectGroup os => FromObject <$> os
  | OtherLayer => []
  end.

(** The value of the last property named [Z], 0 without one. *)
Definition object_z (props : list (property F)) : pyval F :=
  foldl (λ z p, if String.eqb (prop_name p) "Z" then of_scalar (prop_value p)
                else z) (VNum (NInt 0)) props.

(** The other properties, set in order on the attributes [d]. *)
Definition object_attrs (props : list (property F)) (d : gmap string (pyval F))
  : gmap string (pyval F) :=
  foldl (λ d p, if String.eqb (prop_name p) "Z" then d
                else <[prop_name p := of_scalar (prop_value p)]> d) d props.

(** The exception of the first property of an object that [setattr]
    refuses, if there is one; the property named [Z] is not set. *)
Fixpoint refused_property (props : list (property F)) : option exn :=
  match props with
  | [] => None
  | p :: props' =>
      if String.eqb (prop_name p) "Z" then refused_property props'
      else match setattr_refuses (prop_name p) with
           | Some x => Some x
           | None => refused_property props'
           end
  end.

(** The attributes of the entity placed for an object with the planar
    coordinates [xy], the constructor's list of brushes at [l]. *)
Definition object_dict (o : object F) (xy : pynum F * pynum F) (l : loc)
  : gmap string (pyval F) :=
  <["classname" := VStr (obj_name o)]>
    (<["origin" := VStr (format_origin xy.1 xy.2
                           (object_z (obj_properties o)))]>
       (object_attrs (obj_properties o) {["brushes" := VRef l]})).

(** The attributes a placed (non-world) entity starts from, before the
    template's are copied (lines 258-260): the constructor's list [l0] is
    replaced by the new list [l]. *)
Definition blank_dict (l l0 : loc) : gmap string (pyval F) :=
  <["brushes" := VRef l]> (<["classname" := VStr "func_unknown"]>
                             {["brushes" := VRef l0]}).

(** [describes cfg h0 ws lw h e src]: in the heap [h], the entity [e] is
    the one the pass builds for [src] from the prefabs of [h0]; it is not
    the accumulator [ws] and its brush list is not the accumulator's. *)
Definition describes (cfg : inputs F) (h0 : gmap loc (obj F)) (ws lw : loc)
    (h : gmap loc (obj F)) (e : loc) (src : source) : Prop :=
  e ≠ ws ∧ e ≠ lw ∧ (e ∉ dom h0) ∧
  match src with
  | FromTile index t template =>
      let tr := cell_transform cfg index t in
      ∃ d l l0 td,
        get_dict h e = Some d ∧ d !! "brushes" = Some (VRef l) ∧
        l ≠ lw ∧ l ≠ ws ∧
        get_list h l = Some (transform_brush tr.1.1 tr.2
                               <$> template_brushes h0 template) ∧
        get_dict h0 template = Some td ∧
        place_properties cfg tr.1.1 tr.1.2
          (copy_properties td (blank_dict l l0)) = Ok d
  | FromObject o =>
      ∃ l xy,
        get_dict h e = Some (object_dict o xy l) ∧
        l ≠ lw ∧ l ≠ ws ∧
        get_list h l = Some [] ∧
        object_planar cfg o = Ok xy
  end.

(** What one template entity of a stamped prefab adds to the accumulator
    and to the output list. *)
Definition template_world_brushes (cfg : inputs F) (h0 : gmap loc (obj F))
    (index : Z) (t : tile) (tpl : loc) : list (brush F) :=
  let tr := cell_transform cfg index t in
  if is_world_template h0 tpl
  then transform_brush tr.1.1 tr.2 <$> template_brushes h0 tpl else [].

Definition template_sources (h0 : gmap loc (obj F))
    (index : Z) (t : tile) (tpl : loc) : list source :=
  if is_world_template h0 tpl then [] else [FromTile index t tpl].

(** The brushes of the accumulator and the provenance of the other
    entities after the whole pass: layer after layer, in source order. *)
Definition world_brushes (cfg : inputs F) (h0 : gmap loc (obj F))
  : list (brush F) :=
  mjoin (layer_world_brushes cfg h0 <$> layers cfg).

Definition sources (cfg : inputs F) (h0 : gmap loc (obj F)) : list source :=
  mjoin (layer_sources cfg h0 <$> layers cfg).

(** The cells of all tile layers, with their index in their layer. *)
Definition cells (cfg : inputs F) : list (Z * tile) :=
  mjoin ((λ l, match l with
               | Layer ts => enumerate_from 0 ts
               | _ => []
               end) <$> layers cfg).

(** The brushes that go to the accumulator, each with the cell that stamps
    it: cell after cell, the brushes of the world entities of the prefab of
    the cell, in prefab order. *)
Definition world_stamps (cfg : inputs F) (h : gmap loc (obj F))
  : list (Z * tile * brush F) :=
  mjoin ((λ c,
     mjoin ((λ tpl, (λ b, (c, b)) <$> template_brushes h tpl)
              <$> filter (λ tpl, is_world_template h tpl = true)
                         (cell_prefab cfg c.2)))
    <$> cells cfg).

(** The number [k] of brushes in the world entities of the prefab of a
    cell. *)
Definition cell_world_count (cfg : inputs F) (h0 : gmap loc (obj F))
    (t : tile) : nat :=
  sum_list_with (λ tpl, length (template_brushes h0 tpl))
    (filter (λ tpl, is_world_template h0 tpl = true) (cell_prefab cfg t)).

(** ** Assertions on states *)

(** [hoare P m Q E]: from a state in [P], [m] ends in [Q] when it returns
    and in [E] when it raises. *)
Definition hoare {A} (P : state F → Prop) (m : M F A)
    (Q : A → state F → Prop) (E : state F → Prop) : Prop :=
  ∀ st, P st →
    match m st with
    | (Ok a, st') => Q a st'
    | (Raise _, st') => E st'
    end.

(** The objects of the initial heap [h0] are untouched, and an entity
    created since has a list of brushes created since. *)
Definition fresh_owned (h0 : gmap loc (obj F)) (st : state F) : Prop :=
  h0 ⊆ heap st ∧
  ∀ e d l, e ∉ dom h0 → heap st !! e = Some (OEntity d) →
           d !! "brushes" = Some (VRef l) → l ∉ dom h0.

(** The invariant of the pass: the prefabs of [h0] are untouched; the
    accumulator [ws] and its list [lw] were created by the pass; [lw] holds
    the brushes [W]; the output list is [ws] followed by one entity for
    every source of [S], in order. *)
Definition pass_inv (cfg : inputs F) (h0 : gmap loc (obj F)) (ws lw : loc)
    (W : list (brush F)) (S : list source) (st : state F) : Prop :=
  h0 ⊆ heap st ∧ (ws ∉ dom h0) ∧ (lw ∉ dom h0) ∧
  (∃ wd, get_dict (heap st) ws = Some wd ∧ wd !! "brushes" = Some (VRef lw) ∧
         wd !! "classname" = Some (VStr "worldspawn")) ∧
  get_list (heap st) lw = Some W ∧
  ∃ others, entities st = ws :: others ∧ NoDup others ∧
            Forall2 (describes cfg h0 ws lw (heap st)) others S.

End Views.

Arguments source F : clear implicits.

(** ** Inputs to run the pass on

    A small prefab cache over the rational floats: prefab 2 is a world
    entity with one brush and a light, prefab 3 a second world entity with
    its own [wad] and a [message]. *)

(** Modelled from the spec: [mathhelper.py] is not among the sources.  A
    [mathhelper] for the rational floats: the mirrors of the X axis, of
    the Y axis and of the diagonal; the two bearing conversions are exact
    along the four axis directions. *)
Definition axis_horizontal_flip : mat4 Q :=
  ((-1, 0, 0, 0), (0, 1, 0, 0), (0, 0, 1, 0), (0, 0, 0, 1))%Q.

Definition axis_vertical_flip : mat4 Q :=
  ((1, 0, 0, 0), (0, -1, 0, 0), (0, 0, 1, 0), (0, 0, 0, 1))%Q.

Definition axis_diagonal_flip : mat4 Q :=
  ((0, 1, 0, 0), (1, 0, 0, 0), (0, 0, 1, 0), (0, 0, 0, 1))%Q.

Definition axis_vector_from_angle (deg : Q) : vec3 Q :=
  (if Qeq_bool deg 90 then (0, 1, 0)
   else if Qeq_bool deg 180 then (-1, 0, 0)
   else if Qeq_bool deg 270 then (0, -1, 0)
   else (1, 0, 0))%Q.

Definition axis_angle_between (v : vec3 Q) : Q :=
  let '(x, y, _) := v in
  (if Qle_bool x (-1) then 180
   else if Qle_bool 1 y then 90
   else if Qle_bool y (-1) then 270
   else 0)%Q.

Definition axis_mathhelper : MathHelper Q := {|
  horizontal_flip := axis_horizontal_flip;
  vertical_flip := axis_vertical_flip;
  diagonal_flip := axis_diagonal_flip;
  vector_from_angle := axis_vector_from_angle;
  angle_between := axis_angle_between
|}.

Definition wall : brush Q :=
  Brush [Plane [(0, 0, 0); (64, 0, 0); (0, 64, 0)]%Q "wall" (0, 0)%Q 0%Q
               (1, 1)%Q].

Definition floor : brush Q :=
  Brush [Plane [(0, 0, 0); (0, 64, 0); (64, 64, 0); (64, 0, 0)]%Q "floor"
               (0, 0)%Q 0%Q (1, 1)%Q].

Definition prefab_heap : gmap loc (obj Q) :=
  <[1%positive := OEntity (<["classname" := VStr "worldspawn"]>
                             (<["wad" := VStr "base.wad"]>
                                {["brushes" := VRef 2%positive]}))]>
  (<[2%positive := OList [wall]]>
  (<[3%positive := OEntity (<["classname" := VStr "light"]>
                             (<["origin" := VStr "16 16 8"]>
                                {["brushes" := VRef 4%positive]}))]>
  (<[4%positive := OList []]>
  (<[5%positive := OEntity (<["classname" := VStr "worldspawn"]>
                             (<["wad" := VStr "other.wad"]>
                                (<["message" := VStr "hi"]>
                                   {["brushes" := VRef 6%positive]})))]>
  (<[6%positive := OList [floor; wall]]> ∅))))).

Definition prefab_tiles : gmap Z (list loc) :=
  <[2 := [1%positive; 3%positive]]> (<[3 := [5%positive]]> ∅).

(** A [width] x [height] grid of 32 pixel tiles, stamped with 64 unit
    prefabs. *)
Definition tilemap (width height : Z) (layers : list (layer Q)) : inputs Q :=
  Inputs width height (NInt 64) 32 (NInt (width * 64)) (NInt (height * 64))
         layers prefab_tiles axis_mathhelper.

Definition player : object Q :=
  Object (NInt 64) (NInt 64) "info_player_start" [Property "Z" (SStr "48")].

(** Two cells with the unmapped gid 7. *)
Definition two_missing_cells : inputs Q :=
  tilemap 4 4 [Layer [Tile 7 false false false; Tile 7 false false false]].

(** A grid of 4 columns and 2 rows, every cell stamped with prefab 2. *)
Definition wide_grid : inputs Q :=
  tilemap 4 2 [Layer (replicate 8 (Tile 2 false false false))].

(** A tile layer followed by an object layer. *)
Definition small_map : inputs Q :=
  tilemap 4 4 [Layer [Tile 2 false false false; Tile 0 false false false;
                      Tile 3 true false false; Tile 2 true true false];
               ObjectGroup [player]].

(** An object layer followed by a tile layer. *)
Definition objects_first : inputs Q :=
  tilemap 4 4 [ObjectGroup [player]; Layer [Tile 2 false false false]].

(** One cell stamped with prefab 3. *)
Definition second_world : inputs Q :=
  tilemap 4 4 [Layer [Tile 3 false false false]].

(** A cache whose prefab 2 is a world entity without [wad]. *)
Definition no_wad_heap : gmap loc (obj Q) :=
  <[1%positive := OEntity (<["classname" := VStr "worldspawn"]>
                             {["brushes" := VRef 2%positive]})]>
  (<[2%positive := OList [wall]]> ∅).

Definition no_wad : inputs Q :=
  Inputs 4 4 (NInt 64) 32 (NInt 256) (NInt 256)
         [Layer [Tile 2 false false false]]
         (<[2 := [1%positive]]> ∅) axis_mathhelper.

(** A second cache: prefab 2 is a world entity with one brush, a door with
    one brush and an [angle], and a spot with a [mangle]. *)
Definition furnished_heap : gmap loc (obj Q) :=
  <[1%positive := OEntity (<["classname" := VStr "worldspawn"]>
                             (<["wad" := VStr "base.wad"]>
                                {["brushes" := VRef 2%positive]}))]>
  (<[2%positive := OList [wall]]>
  (<[3%positive := OEntity (<["classname" := VStr "func_door"]>
                             (<["angle" := VStr "0"]>
                                {["brushes" := VRef 4%positive]}))]>
  (<[4%positive := OList [floor]]>
  (<[5%positive := OEntity (<["classname" := VStr "light"]>
                             (<["mangle" := VStr "0 180 -30"]>
                                {["brushes" := VRef 6%positive]}))]>
  (<[6%positive := OList []]> ∅))))).

Definition furnished_tiles : gmap Z (list loc) :=
  <[2 := [1%positive; 3%positive; 5%positive]]> ∅.

(** One cell of a 4x4 grid, stamped with that prefab under the horizontal
    mirror. *)
Definition mirrored_room : inputs Q :=
  Inputs 4 4 (NInt 64) 32 (NInt 256) (NInt 256)
         [Layer [Tile 2 true false false]] furnished_tiles axis_mathhelper.

(** The two predicates on the cache are decidable, by evaluation. *)
#[global] Instance loaded_dec {F} (h : gmap loc (obj F)) (t : loc)
  : Decision (loaded h t).
Proof. unfold loaded. apply _. Defined.

#[global] Instance prefabs_loaded_dec {F} (cfg : inputs F) (h : gmap loc (obj F))
  : Decision (prefabs_loaded cfg h).
Proof. unfold prefabs_loaded. apply _. Defined.

(** * The rest of the script: vocabulary

    What the further properties of the pass are stated with, and the parts
    of the script around the pass: the loop that loads the prefabs (lines
    145-188), the step times (lines 81-94 and 353) and the name of the map
    file (line 114). *)

Section Accounting.
Context {F : Type} `{!FloatArith F, !FloatText F}.

(** The line that line 218 prints for the gid [g]. *)
Definition missing_warning (g : Z) : string :=
  "WARNING: Missing tile mapping for gid: " +:+ pretty g.

(** The cells of one layer, with their index. *)
Definition layer_cells (l : layer F) : list (Z * tile) :=
  match l with
  | Layer ts => enumerate_from 0 ts
  | _ => []
  end.

(** A cell that holds a tile: its gid is not 0. *)
Definition occupied (c : Z * tile) : bool := negb (gid c.2 =? 0).

(** What the script counts and prints, apart from the heap and the output
    list. *)
Definition counters (st : state F) : list Z * Z * Z * list string :=
  (missing_gids st, tiles_processed st, brush_count st, stdout st).

(** The same without the number of brushes. *)
Definition progress_log (st : state F) : list Z * Z * list string :=
  (missing_gids st, tiles_processed st, stdout st).

(** [m] leaves the observation [obs] of the state as it was, whatever its
    outcome. *)
Definition unchanged {A B} (obs : state F → B) (m : M F A) : Prop :=
  ∀ st, obs (m st).2 = obs st.

(** The warnings and the list of missing gids go together: one warning for
    every gid of the list, in order, each gid once, each one the gid of a
    cell of the tilemap that holds a tile without usable prefab. *)
Definition warnings_inv (cfg : inputs F) (st : state F) : Prop :=
  NoDup (missing_gids st) ∧
  stdout st = missing_warning <$> missing_gids st ∧
  Forall (λ g, g ≠ 0 ∧ no_prefab cfg g = true ∧
               ∃ c, c ∈ cells cfg ∧ gid c.2 = g) (missing_gids st).

(** The number of brushes in the templates of the prefab of a cell. *)
Definition stamped_brushes (cfg : inputs F) (h0 : gmap loc (obj F))
    (t : tile) : nat :=
  sum_list_with (λ tpl, length (template_brushes h0 tpl)) (cell_prefab cfg t).

(** The number of brushes of the template of a source. *)
Definition source_brushes (h0 : gmap loc (obj F)) (src : source F) : nat :=
  match src with
  | FromTile _ _ tpl => length (template_brushes h0 tpl)
  | FromObject _ => 0
  end.

(** The number of brushes in the entities [es], which is what [m.dumps]
    finds to write. *)
Definition output_brushes (h : gmap loc (obj F)) (es : list loc) : nat :=
  sum_list_with (λ e, length (default [] (entity_brushes h e))) es.

(** An [origin] that lines 270-272 accept: the text of three floats. *)
Definition origin_ok (v : pyval F) : bool :=
  match v with
  | VStr s =>
      match floats_of_strings (split_spaces s) with
      | Ok [_; _; _] => true
      | _ => false
      end
  | _ => false
  end.

(** A [mangle] that lines 279-284 accept: the text of three floats or
    more. *)
Definition mangle_ok (v : pyval F) : bool :=
  match v with
  | VStr s =>
      match floats_of_strings (split_spaces s) with
      | Ok (_ :: _ :: _ :: _) => true
      | _ => false
      end
  | _ => false
  end.

(** An [angle] that [float] accepts. *)
Definition angle_ok (v : pyval F) : bool :=
  match py_float v with
  | Ok _ => true
  | Raise _ => false
  end.

(** The attributes lines 268-289 accept; the [angle], which is the
    integer 0 when the entity has none, is only read when there is no
    [mangle]. *)
Definition well_formed (d : gmap string (pyval F)) : bool :=
  match d !! "origin" with
  | Some v => origin_ok v
  | None => true
  end &&
  match d !! "mangle" with
  | Some v => mangle_ok v
  | None => angle_ok (default (VNum (NInt 0)) (d !! "angle"))
  end.

(** A template entity lines 253-317 can stamp: it has a classname, and if
    it is not a world entity its attributes are well formed. *)
Definition stampable (h : gmap loc (obj F)) (tpl : loc) : bool :=
  match get_dict h tpl with
  | Some td =>
      match td !! "classname" with
      | Some c => is_worldspawn c || well_formed td
      | None => false
      end
  | None => false
  end.

(** A cell the loop can stamp: it is empty, or its gid has a prefab whose
    entities can all be stamped. *)
Definition cell_stampable (cfg : inputs F) (h : gmap loc (obj F)) (t : tile)
  : bool :=
  bool_decide (gid t = 0) ||
  match tiles cfg !! gid t with
  | Some prefab => forallb (stampable h) prefab
  | None => false
  end.

(** The objects of all object layers. *)
Definition objects (cfg : inputs F) : list (object F) :=
  mjoin ((λ l, match l with
               | ObjectGroup os => os
               | _ => []
               end) <$> layers cfg).

(** An object lines 322-338 can place: [setattr] accepts its properties
    and lines 332-334 compute its coordinates. *)
Definition object_placeable (cfg : inputs F) (o : object F) : bool :=
  match refused_property (obj_properties o), object_planar cfg o with
  | None, Ok _ => true
  | _, _ => false
  end.

(** A cell whose transform lines 224-250 compute, if it holds a tile. *)
Definition cell_transformable (cfg : inputs F) (c : Z * tile) : bool :=
  bool_decide (gid c.2 = 0) ||
  match tile_transform cfg c.1 c.2 with
  | Ok _ => true
  | Raise _ => false
  end.

(** The gids of the cells [cs] that hold a tile and have no entry in the
    cache: the ones line 252 reads [tiles] at once they are in
    [missing_gids] and the guard of line 217 lets them pass. *)
Definition unmapped_gids (cfg : inputs F) (cs : list (Z * tile)) : list Z :=
  filter (λ g, g ≠ 0 ∧ tiles cfg !! g = None) ((λ c, gid c.2) <$> cs).

(** The invariant of the pass, for some accumulated brushes and sources. *)
Definition pass_inv_some (cfg : inputs F) (h0 : gmap loc (obj F)) (ws lw : loc)
    (st : state F) : Prop :=
  ∃ W S, pass_inv cfg h0 ws lw W S st.

End Accounting.

(** ** Lines 145-188: loading the prefabs *)

(** Whether the character [c] occurs in [s]. *)
Fixpoint has_char (c : ascii) (s : string) : bool :=
  match s with
  | EmptyString => false
  | String c' s' => Ascii.eqb c' c || has_char c s'
  end.

(** [os.path.basename] of a POSIX path: what follows the last slash. *)
Fixpoint basename_aux (cur : string) (p : string) : string :=
  match p with
  | EmptyString => String.rev cur
  | String c p' =>
      if Ascii.eqb c "/"%char then basename_aux EmptyString p'
      else basename_aux (String c cur) p'
  end.

Definition basename (p : string) : string := basename_aux EmptyString p.

(** A tileset of the tilemap ([tmx.Tileset]): the file of its image, the
    gid of its first tile and the number of its tiles. *)
Record tileset := Tileset {
  image_source : string;
  firstgid : Z;
  tilecount : Z
}.

(** An element of [tile_mapping["tilesets"]]: its [filename] and its
    object [tiles], from tile id to prefab file, in the order of the
    mapping file. *)
Record tileset_mapping := TilesetMapping {
  filename : string;
  mapped_tiles : list (string * string)
}.

(** [d[k]] on a JSON object. *)
Fixpoint dict_get (d : list (string * string)) (k : string) : option string :=
  match d with
  | [] => None
  | (k', v) :: d' => if String.eqb k' k then Some v else dict_get d' k
  end.

Section Loader.
(** [P] is what [m.loads] returns: a prefab. *)
Context {P : Type}.

(** What the loop asks of its surroundings: [int(tile_id)], the path
    [normpath(join(dirname(args.mapping_file), tile_filename))],
    [os.path.exists], and the prefab that [m.loads] reads from the text of
    an existing file (or the exception of [open], [read] or [m.loads]). *)
Record loader_env := LoaderEnv {
  py_int : string → option Z;
  tile_filepath : string → string;
  path_exists : string → bool;
  read_prefab : string → result P
}.

(** The dictionary [tiles] and what the loop has printed. *)
Record loader_state := LoaderState {
  cache : gmap Z P;
  printed : list string
}.

(** The line that line 181 prints. *)
Definition missing_file_warning (path : string) : string :=
  "WARNING: Missing 3d tile: " +:+ path.

(** Lines 174-185: one [tile_id] of a tileset. *)
Definition load_tile (env : loader_env) (first_gid : Z)
    (tiles_obj : list (string * string)) (tile_id : string) (s : loader_state)
  : result unit * loader_state :=
  match py_int env tile_id with
  | None => (Raise ValueError, s)
  | Some n =>
      let gid := n + first_gid in
      match dict_get tiles_obj tile_id with
      | None => (Raise KeyError, s)
      | Some tile_filename =>
          let path := tile_filepath env tile_filename in
          if negb (path_exists env path)
          then (Ok tt, LoaderState (cache s)
                         (printed s ++ [missing_file_warning path]))
          else match read_prefab env path with
               | Ok prefab => (Ok tt, LoaderState (<[gid := prefab]> (cache s))
                                                  (printed s))
               | Raise e => (Raise e, s)
               end
      end
  end.

(** [for x in xs: body], on the state of the loader. *)
Fixpoint load_each {A} (xs : list A)
    (body : A → loader_state → result unit * loader_state) (s : loader_state)
  : result unit * loader_state :=
  match xs with
  | [] => (Ok tt, s)
  | x :: xs' =>
      match body x s with
      | (Ok _, s') => load_each xs' body s'
      | (Raise e, s') => (Raise e, s')
      end
  end.

(** Line 165: the tilesets of the tilemap whose image has that file name. *)
Definition tileset_definitions (tilesets : list tileset) (name : string)
  : list tileset :=
  filter (λ t, basename (image_source t) = name) tilesets.

(** Lines 162-185: one tileset of the mapping file.  The keys of [tiles]
    are taken in their order; [tile_count] (line 170) is not used. *)
Definition load_tileset (env : loader_env) (tilesets : list tileset)
    (tm : tileset_mapping) (s : loader_state) : result unit * loader_state :=
  match tileset_definitions tilesets (filename tm) with
  | [] => (Ok tt, s)
  | tileset_definition :: _ =>
      load_each (mapped_tiles tm).*1
        (load_tile env (firstgid tileset_definition) (mapped_tiles tm)) s
  end.

(** Line 146 and the loop of lines 161-185. *)
Definition load_tiles (env : loader_env) (tilesets : list tileset)
    (mapping : list tileset_mapping) : result unit * loader_state :=
  load_each mapping (load_tileset env tilesets) (LoaderState ∅ []).

(** The tile entries the loop reaches, in its order, each with its gid and
    the path of its file: those of the tilesets of the mapping that the
    tilemap has, with a tile id that [int] reads. *)
Definition tile_entry (env : loader_env) (first_gid : Z)
    (tiles_obj : list (string * string)) (tile_id : string)
  : option (Z * string) :=
  n ← py_int env tile_id;
  tile_filename ← dict_get tiles_obj tile_id;
  Some (n + first_gid, tile_filepath env tile_filename).

Definition tileset_entries (env : loader_env) (tilesets : list tileset)
    (tm : tileset_mapping) : list (Z * string) :=
  match tileset_definitions tilesets (filename tm) with
  | [] => []
  | tileset_definition :: _ =>
      omap (tile_entry env (firstgid tileset_definition) (mapped_tiles tm))
           (mapped_tiles tm).*1
  end.

Definition entries (env : loader_env) (tilesets : list tileset)
    (mapping : list tileset_mapping) : list (Z * string) :=
  mjoin (tileset_entries env tilesets <$> mapping).

(** The entries of the gid [g] whose file exists. *)
Definition entries_of (env : loader_env) (g : Z) (es : list (Z * string))
  : list (Z * string) :=
  filter (λ e, e.1 = g ∧ path_exists env e.2 = true) es.

(** What the entries [es] have made of the state [s0]: every file that
    exists has been read, for every gid the cache holds the prefab of its
    last entry with a file, and every entry without file has its warning. *)
Definition loaded_by (env : loader_env) (es : list (Z * string))
    (s0 s : loader_state) : Prop :=
  (∀ g, cache s !! g
        = match last (entries_of env g es) with
          | Some e => match read_prefab env e.2 with
                      | Ok p => Some p
                      | Raise _ => None
                      end
          | None => cache s0 !! g
          end) ∧
  Forall (λ e, path_exists env e.2 = true → ∃ p, read_prefab env e.2 = Ok p) es ∧
  printed s
  = printed s0 ++ (missing_file_warning
                     <$> (filter (λ p, path_exists env p = false) es.*2)).

(** A tile id that lines 174-185 get past: [int] reads it, and its file is
    missing or can be read. *)
Definition tile_loadable (env : loader_env) (tiles_obj : list (string * string))
    (tile_id : string) : bool :=
  match py_int env tile_id, dict_get tiles_obj tile_id with
  | Some _, Some tile_filename =>
      negb (path_exists env (tile_filepath env tile_filename)) ||
      match read_prefab env (tile_filepath env tile_filename) with
      | Ok _ => true
      | Raise _ => false
      end
  | _, _ => false
  end.

(** A tileset of the mapping that lines 162-185 get past: the tilemap does
    not have it, or every one of its tile ids is loadable. *)
Definition tileset_loadable (env : loader_env) (tilesets : list tileset)
    (tm : tileset_mapping) : bool :=
  match tileset_definitions tilesets (filename tm) with
  | [] => true
  | _ :: _ => forallb (tile_loadable env (mapped_tiles tm)) (mapped_tiles tm).*1
  end.

End Loader.

Arguments loader_env P : clear implicits.
Arguments loader_state P : clear implicits.

(** ** Lines 81-94 and 353: the step times

    [start_time] and the readings of [time.time()] are floats;
    [step_timing] starts as the list [[0]]. *)

Section Timing.
Context {F : Type} `{!FloatArith F}.

(** Lines 91-92 of [record_step_time], when the clock reads [now]. *)
Definition record_step_time (start_time now : F)
    (step_timing : list (pynum F)) : result (list (pynum F)) :=
  match last step_timing with
  | Some previous =>
      elapsed ← py_sub (NFloat now) (NFloat start_time);
      delta ← py_sub elapsed previous;
      Ok (step_timing ++ [delta])
  | None => Raise IndexError
  end.

(** [sum(l)] *)
Definition py_sum (l : list (pynum F)) : result (pynum F) :=
  foldl (λ acc x, acc ≫= λ a, py_add a x) (Ok (NInt 0)) l.

(** [step_timing] after the calls of [record_step_time] at the readings
    [nows]. *)
Definition step_times (start_time : F) (nows : list F)
  : result (list (pynum F)) :=
  foldl (λ acc now, acc ≫= record_step_time start_time now)
        (Ok [NInt 0]) nows.

(** Line 353: the total that the script prints after its four steps
    (lines 132, 190, 342 and 350). *)
Definition total_seconds (start_time t1 t2 t3 t4 : F) : result (pynum F) :=
  step_timing ← step_times start_time [t1; t2; t3; t4];
  py_sum step_timing.

End Timing.

(** ** Line 114: the name of the map file *)

(** [s.split(sep)[0]]: what precedes the first separator. *)
Fixpoint first_field (sep : ascii) (s : string) : string :=
  match s with
  | EmptyString => EmptyString
  | String c s' =>
      if Ascii.eqb c sep then EmptyString else String c (first_field sep s')
  end.

(** [os.path.basename(args.tilemap_file).split('.')[0] + '.map'] *)
Definition map_name (tilemap_file : string) : string :=
  first_field "."%char (basename tilemap_file) +:+ ".map".

(** ** More inputs *)

(** Three cells with a tile, one of them with the unmapped gid 7. *)
Definition one_missing_cell : inputs Q :=
  tilemap 4 4 [Layer [Tile 2 false false false; Tile 7 false false false;
                      Tile 0 false false false; Tile 2 true false false]].

(** A cache in which the prefab of gid 4 has no entity. *)
Definition with_empty_prefab : inputs Q :=
  Inputs 4 4 (NInt 64) 32 (NInt 256) (NInt 256)
         [Layer [Tile 4 false false false; Tile 4 false false false]]
         (<[4 := []]> prefab_tiles) axis_mathhelper.

(** A grid of 2 columns and 4 rows. *)
Definition tall_grid : inputs Q :=
  tilemap 2 4 [Layer (replicate 8 (Tile 2 false false false))].

(** The attributes of the light of prefab 2. *)
Definition light_dict : gmap string (pyval Q) :=
  <["classname" := VStr "light"]>
    (<["origin" := VStr "16 16 8"]> {["brushes" := VRef 4%positive]}).

(** [int(s)] on ASCII text: white space around a sign and decimal
    digits, with single underscores between digits. *)
Definition decimal_int (s : string) : option Z :=
  let '(negative, s1) := split_sign (strip s) in
  let '(n, digits, rest) := read_digits s1 0 0 in
  match rest with
  | EmptyString =>
      if (digits =? 0)%nat then None else Some (if negative then - n else n)
  | _ => None
  end.

(** A directory [tiles] with every file but [gone.map]; a prefab is
    represented by the path it was read from. *)
Definition tiles_dir : loader_env string := {|
  py_int := decimal_int;
  tile_filepath := λ name, "tiles/" +:+ name;
  path_exists := λ path, negb (String.eqb path "tiles/gone.map");
  read_prefab := λ path, Ok path
|}.

(** Two tilesets of the tilemap with the same image file name. *)
Definition two_tilesets : list tileset :=
  [Tileset "img/walls.png" 1 4; Tileset "old/walls.png" 9 4].

(** A mapping with two ids for the gid 2, a file that is missing, and a
    tileset that the tilemap does not have. *)
Definition walls_mapping : list tileset_mapping :=
  [TilesetMapping "walls.png"
     [("1", "wall.map"); ("01", "wall2.map"); ("2", "gone.map")];
   TilesetMapping "floors.png" [("0", "floor.map")]].

(** * Proofs *)

Section Lemmas.
Context {F : Type} `{!FloatArith F, !FloatText F}.
Implicit Types (st : state F) (h : gmap loc (obj F)) (d : gmap string (pyval F)).

(** ** Rules for [hoare] *)

Lemma hoare_ret {A} (P : state F → Prop) (a : A) Q E :
  (∀ st, P st → Q a st) → hoare P (mret a) Q E.
Proof. intros H st HP. by apply H. Qed.

Lemma hoare_bind {A B} P (m : M F A) (f : A → M F B) R Q E :
  hoare P m R E → (∀ a, hoare (R a) (f a) Q E) → hoare P (m ≫= f) Q E.
Proof.
  intros Hm Hf st HP. specialize (Hm st HP).
  unfold mbind, M_bind. destruct (m st) as [[a|x] st1]; [|done].
  by apply Hf.
Qed.

Lemma hoare_conseq {A} (P P' : state F → Prop) (m : M F A) (Q Q' : A → state F → Prop) E :
  hoare P' m Q' E → (∀ st, P st → P' st) → (∀ a st, Q' a st → Q a st) →
  hoare P m Q E.
Proof.
  intros Hm HP HQ st Hst. specialize (Hm st (HP st Hst)).
  destruct (m st) as [[a|x] st1]; auto.
Qed.

Lemma hoare_lift {A} (P : state F → Prop) (r : result A) (Q : A → state F → Prop) E :
  (∀ st, P st → E st) → (∀ a st, r = Ok a → P st → Q a st) → hoare P (lift r) Q E.
Proof. intros HE HQ st HP. unfold lift. destruct r; auto. Qed.

Lemma hoare_for_each {A} (I : state F → Prop) (xs : list A) body E :
  (∀ x, x ∈ xs → hoare I (body x) (λ _, I) E) →
  hoare I (for_each xs body) (λ _, I) E.
Proof.
  induction xs as [|y ys IH]; intros Hb.
  - by apply hoare_ret.
  - cbn [for_each]. eapply hoare_bind.
    + apply Hb. by left.
    + intros ?. apply IH. intros z Hz. apply Hb. by right.
Qed.

Lemma hoare_for_enumerate {A} (I : state F → Prop) i (xs : list A) body E :
  (∀ j x, hoare I (body j x) (λ _, I) E) →
  hoare I (for_enumerate i xs body) (λ _, I) E.
Proof.
  intros Hb. revert i. induction xs as [|y ys IH]; intros i.
  - by apply hoare_ret.
  - cbn [for_enumerate]. eapply hoare_bind; [apply Hb|]. intros ?. apply IH.
Qed.


(** *** Properties of the pure helpers *)

Lemma copy_properties_union (td ed : gmap string (pyval F)) :
  copy_properties td ed = delete "brushes" td ∪ ed.
Proof.
  unfold copy_properties.
  apply (map_fold_weak_ind
           (λ r m, r = delete "brushes" m ∪ ed)).
  - by rewrite delete_empty, (left_id_L ∅ (∪)).
  - intros k v m r Hk ->. case_decide as Hd.
    + subst k. by rewrite delete_insert_eq, (delete_id m) by done.
    + by rewrite delete_insert_ne, insert_union_l by done.
Qed.

Lemma lookup_copy_properties (td ed : gmap string (pyval F)) k :
  copy_properties td ed !! k =
    if decide (k = "brushes") then ed !! k
    else match td !! k with Some v => Some v | None => ed !! k end.
Proof.
  rewrite copy_properties_union, lookup_union.
  case_decide as Hk.
  - subst k. rewrite lookup_delete_eq. by destruct (ed !! "brushes").
  - rewrite lookup_delete_ne by done.
    destruct (td !! k), (ed !! k); done.
Qed.

Lemma place_properties_lookup cfg mat fm (d d' : gmap string (pyval F)) k :
  place_properties cfg mat fm d = Ok d' →
  k ≠ "origin" → k ≠ "angle" → k ≠ "mangle" → d' !! k = d !! k.
Proof.
  unfold place_properties, transform_origin, rederive_angles, set_default_angle.
  intros H Ho Ha Hm. unfold mbind, result_bind, mret, result_ret in H.
  repeat case_match; simplify_eq; rewrite ?lookup_insert_ne by done; done.
Qed.


(** *** The frame: only fresh objects are written *)

Section Frame.
Variable h0 : gmap loc (obj F).
Abbreviation FO := (fresh_owned h0).

Lemma fresh_owned_alloc st (o : obj F) :
  FO st →
  (∀ d l, o = OEntity d → d !! "brushes" = Some (VRef l) → l ∉ dom h0) →
  FO (set_heap (<[fresh (dom (heap st)) := o]> (heap st)) st) ∧
  fresh (dom (heap st)) ∉ dom h0.
Proof.
  intros [Hsub Hown] Ho.
  assert (fresh (dom (heap st)) ∉ dom h0) as Hfr.
  { intros Hin. apply (is_fresh (dom (heap st))).
    by apply (subseteq_dom _ _ Hsub). }
  split; [|done]. split; cbn.
  - etrans; [done|]. apply insert_subseteq. apply not_elem_of_dom, is_fresh.
  - intros e d l He. rewrite lookup_insert. case_decide; [|by eauto].
    intros [= ->]. by eauto.
Qed.

Lemma fresh_owned_write st l (o : obj F) :
  FO st → l ∉ dom h0 →
  (∀ d l', o = OEntity d → d !! "brushes" = Some (VRef l') → l' ∉ dom h0) →
  FO (set_heap (<[l := o]> (heap st)) st).
Proof.
  intros [Hsub Hown] Hl Ho. split; cbn.
  - apply map_subseteq_spec. intros i x Hi.
    rewrite lookup_insert_ne; [by eapply lookup_weaken|].
    intros ->. apply Hl. by apply elem_of_dom.
  - intros e d l' He. rewrite lookup_insert. case_decide; [|by eauto].
    intros [= ->]. by eauto.
Qed.

Lemma frame_new_list :
  hoare FO new_list (λ v st, FO st ∧ ∀ l, v = VRef l → l ∉ dom h0) FO.
Proof.
  intros st Hst. unfold new_list, alloc, mbind, M_bind, mret, M_ret.
  destruct (fresh_owned_alloc st (OList []) Hst) as [H1 H2]; [done|].
  split; [done|]. by intros l [= <-].
Qed.

Lemma frame_new_Entity :
  hoare FO new_Entity (λ e st, FO st ∧ e ∉ dom h0) FO.
Proof.
  unfold new_Entity. eapply hoare_bind; [apply frame_new_list|].
  intros v st [Hst Hv]. unfold alloc.
  apply fresh_owned_alloc; [done|].
  intros d l [= <-]. rewrite lookup_singleton_eq. intros [= ->]. by apply Hv.
Qed.

Lemma frame_read_dict e :
  hoare FO (read_dict e)
    (λ d st, FO st ∧
             (e ∉ dom h0 → ∀ l, d !! "brushes" = Some (VRef l) → l ∉ dom h0))
    FO.
Proof.
  intros st Hst. unfold read_dict.
  destruct (heap st !! e) as [[d|]|] eqn:He; try done.
  split; [done|]. intros ? l Hl. by eapply (proj2 Hst).
Qed.

Lemma frame_getattr e k :
  hoare FO (getattr e k)
    (λ v st, FO st ∧
             (e ∉ dom h0 → k = "brushes" → ∀ l, v = VRef l → l ∉ dom h0))
    FO.
Proof.
  unfold getattr. eapply hoare_bind; [apply frame_read_dict|].
  intros d st [Hst Hd]. destruct (d !! k) as [v|] eqn:Hk; [|done].
  split; [done|]. intros He -> l ->. by eapply Hd.
Qed.

Lemma frame_write_dict e d :
  e ∉ dom h0 → (∀ l, d !! "brushes" = Some (VRef l) → l ∉ dom h0) →
  hoare FO (write_dict e d) (λ _, FO) FO.
Proof.
  intros He Hd st Hst. unfold write_dict.
  apply fresh_owned_write; [done..|]. intros ?? [= <-]. apply Hd.
Qed.

Lemma frame_setattr e k v :
  e ∉ dom h0 → (k = "brushes" → ∀ l, v = VRef l → l ∉ dom h0) →
  hoare FO (setattr e k v) (λ _, FO) FO.
Proof.
  intros He Hv. unfold setattr.
  eapply hoare_bind; [apply frame_read_dict|].
  intros d st [Hst Hd]. destruct (setattr_refuses k); [done|].
  apply frame_write_dict; [done| |done].
  intros l. rewrite lookup_insert. case_decide as Hk; [|by eauto].
  intros [= ->]. by eapply Hv.
Qed.

Lemma frame_list_append v b :
  (∀ l, v = VRef l → l ∉ dom h0) →
  hoare FO (list_append v b) (λ _, FO) FO.
Proof.
  intros Hv st Hst. unfold list_append, read_list, mbind, M_bind.
  destruct v as [| |l]; try done.
  destruct (heap st !! l) as [[|bs]|]; try done.
  apply fresh_owned_write; [done|by apply Hv|done].
Qed.

Lemma frame_read_list v : hoare FO (read_list v) (λ _, FO) FO.
Proof.
  intros st Hst. unfold read_list. destruct v as [| |l]; try done.
  by destruct (heap st !! l) as [[|bs]|].
Qed.

Lemma frame_script_variable (m : M F unit) :
  (∀ st, ∃ st', m st = (Ok tt, st') ∧ heap st' = heap st) →
  hoare FO m (λ _, FO) FO.
Proof.
  intros Hm st Hst. destruct (Hm st) as (st' & -> & Hh).
  unfold fresh_owned. by rewrite Hh.
Qed.

Lemma frame_place_entity cfg mat fm ff ws entity :
  ws ∉ dom h0 →
  hoare FO (place_entity cfg mat fm ff ws entity) (λ _, FO) FO.
Proof.
  intros Hws. unfold place_entity.
  eapply hoare_bind; [apply frame_getattr|]. intros c.
  eapply hoare_bind with (R := λ e st, FO st ∧ e ∉ dom h0).
  { intros st [Hst _]. destruct (is_worldspawn c); [done|].
    revert st Hst. eapply hoare_bind; [apply frame_new_Entity|].
    intros e st [Hst He]. revert st Hst.
    eapply hoare_bind; [by apply frame_setattr|]. intros [].
    eapply hoare_bind; [apply frame_new_list|]. intros bl st [Hst Hbl].
    revert st Hst.
    eapply hoare_bind; [apply frame_setattr; [done|by intros _]|]. intros [].
    by apply hoare_ret. }
  intros e st [Hst He]. revert st Hst.
  eapply hoare_bind; [apply frame_read_dict|]. intros td st [Hst _]. revert st Hst.
  eapply hoare_bind; [apply frame_read_dict|]. intros d st [Hst Hd]. revert st Hst.
  eapply hoare_bind.
  { apply frame_write_dict; [done|]. intros l.
    rewrite lookup_copy_properties. rewrite decide_True by done. by apply Hd. }
  intros [].
  eapply hoare_bind; [apply frame_getattr|]. intros c' st [Hst _]. revert st Hst.
  eapply hoare_bind with (R := λ _, FO).
  { destruct (is_worldspawn c'); [by apply hoare_ret|].
    eapply hoare_bind; [apply frame_read_dict|]. intros d1 st [Hst Hd1]. revert st Hst.
    eapply hoare_bind with (R := λ d' st, FO st ∧ d' !! "brushes" = d1 !! "brushes").
    { apply hoare_lift; [done|]. intros d' st Hpp Hst. split; [done|].
      by eapply place_properties_lookup. }
    intros d' st [Hst Hd']. apply frame_write_dict; [done| |done].
    intros l. rewrite Hd'. by apply Hd1. }
  intros [].
  eapply hoare_bind; [apply frame_getattr|]. intros bv st [Hst _]. revert st Hst.
  eapply hoare_bind; [apply frame_read_list|]. intros brushes.
  eapply hoare_bind.
  { apply hoare_for_each. intros copy_brush _.
    eapply hoare_bind; [by apply frame_script_variable; eexists|]. intros [].
    eapply hoare_bind; [apply frame_getattr|]. intros bl st [Hst Hbl].
    apply frame_list_append; [|done]. by apply Hbl. }
  intros [].
  eapply hoare_bind; [apply frame_getattr|]. intros c'' st [Hst _].
  destruct (is_worldspawn c''); [done|].
  apply frame_script_variable; [|done]. by eexists.
Qed.

Lemma frame_lift {A} (r : result A) : hoare FO (lift r) (λ _, FO) FO.
Proof. intros st Hst. unfold lift. by destruct r. Qed.

Lemma frame_place_tile cfg ws index t :
  ws ∉ dom h0 → hoare FO (place_tile cfg ws index t) (λ _, FO) FO.
Proof.
  intros Hws. unfold place_tile. case_decide; [by apply hoare_ret|].
  eapply hoare_bind with (R := λ _, FO); [by intros st Hst|]. intros missing.
  destruct (_ && _).
  - eapply hoare_bind; [|intros []]; apply frame_script_variable; by eexists.
  - eapply hoare_bind; [by apply frame_script_variable; eexists|]. intros [].
    eapply hoare_bind; [apply frame_lift|]. intros tr.
    eapply hoare_bind with (R := λ _, FO).
    { destruct (tiles cfg !! gid t); by intros st Hst. }
    intros prefab. apply hoare_for_each. intros entity _.
    by apply frame_place_entity.
Qed.

Lemma frame_copy_object_properties e z props :
  e ∉ dom h0 →
  hoare FO (copy_object_properties e z props) (λ _, FO) FO.
Proof.
  intros He. revert z. induction props as [|p props IH]; intros z; cbn.
  - by apply hoare_ret.
  - destruct (String.eqb _ _); [apply IH|].
    eapply hoare_bind; [|intros ?; apply IH].
    apply frame_setattr; [done|]. intros _ l. by destruct (prop_value p).
Qed.

Lemma frame_place_object cfg o : hoare FO (place_object cfg o) (λ _, FO) FO.
Proof.
  unfold place_object.
  eapply hoare_bind; [apply frame_new_Entity|]. intros e st [Hst He].
  revert st Hst.
  eapply hoare_bind; [by apply frame_copy_object_properties|]. intros z.
  eapply hoare_bind; [apply frame_lift|]. intros xy.
  eapply hoare_bind; [by apply frame_setattr|]. intros [].
  eapply hoare_bind; [by apply frame_setattr|]. intros [].
  apply frame_script_variable. by eexists.
Qed.

Lemma frame_place_layer cfg ws l :
  ws ∉ dom h0 → hoare FO (place_layer cfg ws l) (λ _, FO) FO.
Proof.
  intros Hws. destruct l as [ts|os|]; cbn.
  - apply hoare_for_enumerate. intros. by apply frame_place_tile.
  - apply hoare_for_each. intros. apply frame_place_object.
  - by apply hoare_ret.
Qed.

Lemma frame_create_worldspawn cfg :
  hoare FO (create_worldspawn cfg) (λ ws st, FO st ∧ ws ∉ dom h0) FO.
Proof.
  unfold create_worldspawn.
  eapply hoare_bind; [apply frame_new_Entity|]. intros ws st [Hst Hws].
  revert st Hst.
  eapply hoare_bind; [by apply frame_setattr|]. intros [].
  eapply hoare_bind with (R := λ _, FO).
  { destruct (tiles cfg !! 2) as [[|first ?]|]; [by intros st Hst| |by intros st Hst].
    eapply hoare_conseq; [apply frame_getattr|done|]. by intros ?? []. }
  intros wad.
  eapply hoare_bind; [by apply frame_setattr|]. intros [].
  eapply hoare_bind; [apply frame_new_list|]. intros bl st [Hst Hbl].
  revert st Hst.
  eapply hoare_bind; [apply frame_setattr; [done|by intros _]|]. intros [].
  eapply hoare_bind; [by apply frame_script_variable; eexists|]. intros [].
  by apply hoare_ret.
Qed.

Lemma frame_create_map cfg : hoare FO (create_map cfg) (λ _, FO) FO.
Proof.
  unfold create_map.
  eapply hoare_bind; [apply frame_create_worldspawn|]. intros ws st [Hst Hws].
  revert st Hst. apply hoare_for_each. intros. by apply frame_place_layer.
Qed.

End Frame.

(** C9: the pass never writes to an object of the initial heap.  Whether
    it completes or is aborted by an exception, every object that was in
    the heap when the pass started -- every template entity of every cached
    prefab with its attribute values, and every template list of brushes
    with its planes and points -- is in the final heap with the same
    content: a loaded template entity reads back the same attributes and
    the same brushes.  The cache [tiles] itself is an input that no line
    assigns, so a gid resolves to the same prefab throughout. *)
Theorem prefabs_never_mutated (cfg : inputs F) (h0 : gmap loc (obj F)) :
  h0 ⊆ heap (run cfg h0).2 ∧
  ∀ t, match get_dict h0 t, entity_brushes h0 t with
       | Some d, Some bs =>
           get_dict (heap (run cfg h0).2) t = Some d ∧
           entity_brushes (heap (run cfg h0).2) t = Some bs
       | _, _ => True
       end.
Proof.
  assert (fresh_owned h0 (initial_state h0)) as Hinit.
  { split; [done|]. intros e d l He Hl. cbn in Hl.
    exfalso. apply He. by apply elem_of_dom. }
  pose proof (frame_create_map h0 cfg _ Hinit) as H. unfold run.
  assert (h0 ⊆ heap (create_map cfg (initial_state h0)).2) as Hsub.
  { destruct (create_map cfg (initial_state h0)) as [[[]|x] st]; apply H. }
  split; [exact Hsub|].
  set (h' := heap (create_map cfg (initial_state h0)).2) in *.
  assert (∀ l o, h0 !! l = Some o → h' !! l = Some o) as Hmono.
  { intros l o Hl. by eapply lookup_weaken. }
  intros t. unfold entity_brushes, get_dict, get_list.
  destruct (h0 !! t) as [[d|]|] eqn:Ht; try done.
  destruct (d !! "brushes") as [[| |l]|] eqn:Hb; try done.
  destruct (h0 !! l) as [[|bs]|] eqn:Hl; try done.
  by rewrite (Hmono _ _ Ht), Hb, (Hmono _ _ Hl).
Qed.


(** ** Running the primitives *)

Lemma bind_ok {A B} (m : M F A) (f : A → M F B) st a st1 :
  m st = (Ok a, st1) → (m ≫= f) st = f a st1.
Proof. intros H. unfold mbind, M_bind. by rewrite H. Qed.

Lemma bind_raise {A B} (m : M F A) (f : A → M F B) st x st1 :
  m st = (Raise x, st1) → (m ≫= f) st = (Raise x, st1).
Proof. intros H. unfold mbind, M_bind. by rewrite H. Qed.

Lemma get_dict_Some h e d : get_dict h e = Some d ↔ h !! e = Some (OEntity d).
Proof. unfold get_dict. destruct (h !! e) as [[]|]; naive_solver. Qed.

Lemma get_list_Some h l bs : get_list h l = Some bs ↔ h !! l = Some (OList bs).
Proof. unfold get_list. destruct (h !! l) as [[]|]; naive_solver. Qed.

Lemma get_dict_insert_ne h l o e : l ≠ e → get_dict (<[l := o]> h) e = get_dict h e.
Proof. intros. unfold get_dict. by rewrite lookup_insert_ne. Qed.

Lemma get_list_insert_ne h l o e : l ≠ e → get_list (<[l := o]> h) e = get_list h e.
Proof. intros. unfold get_list. by rewrite lookup_insert_ne. Qed.

Lemma get_dict_insert h e d : get_dict (<[e := OEntity d]> h) e = Some d.
Proof. unfold get_dict. by rewrite lookup_insert_eq. Qed.

Lemma get_list_insert h l bs : get_list (<[l := OList bs]> h) l = Some bs.
Proof. unfold get_list. by rewrite lookup_insert_eq. Qed.

Lemma get_dict_list_ne h e l d bs :
  get_dict h e = Some d → get_list h l = Some bs → e ≠ l.
Proof. rewrite get_dict_Some, get_list_Some. congruence. Qed.

Lemma read_dict_ok st e d :
  get_dict (heap st) e = Some d → read_dict e st = (Ok d, st).
Proof. rewrite get_dict_Some. unfold read_dict. by intros ->. Qed.

Lemma getattr_ok st e d k v :
  get_dict (heap st) e = Some d → d !! k = Some v → getattr e k st = (Ok v, st).
Proof.
  intros Hd Hk. unfold getattr. rewrite (bind_ok _ _ _ _ _ (read_dict_ok _ _ _ Hd)).
  by rewrite Hk.
Qed.

Lemma getattr_missing st e d k :
  get_dict (heap st) e = Some d → d !! k = None →
  getattr e k st = (Raise AttributeError, st).
Proof.
  intros Hd Hk. unfold getattr. rewrite (bind_ok _ _ _ _ _ (read_dict_ok _ _ _ Hd)).
  by rewrite Hk.
Qed.

Lemma setattr_ok st e d k v :
  setattr_refuses k = None → get_dict (heap st) e = Some d →
  setattr e k v st = (Ok tt, set_heap (<[e := OEntity (<[k := v]> d)]> (heap st)) st).
Proof.
  intros Hk Hd. unfold setattr.
  rewrite (bind_ok _ _ _ _ _ (read_dict_ok _ _ _ Hd)). by rewrite Hk.
Qed.

Lemma setattr_refused st e d k v x :
  setattr_refuses k = Some x → get_dict (heap st) e = Some d →
  setattr e k v st = (Raise x, st).
Proof.
  intros Hk Hd. unfold setattr.
  rewrite (bind_ok _ _ _ _ _ (read_dict_ok _ _ _ Hd)). by rewrite Hk.
Qed.

Lemma read_list_ok st l bs :
  get_list (heap st) l = Some bs → read_list (VRef l) st = (Ok bs, st).
Proof. rewrite get_list_Some. unfold read_list. by intros ->. Qed.

Lemma list_append_ok st l bs b :
  get_list (heap st) l = Some bs →
  list_append (VRef l) b st
  = (Ok tt, set_heap (<[l := OList (bs ++ [b])]> (heap st)) st).
Proof.
  intros Hl. unfold list_append.
  by rewrite (bind_ok _ _ _ _ _ (read_list_ok _ _ _ Hl)).
Qed.

Lemma set_heap_id st : set_heap (heap st) st = st.
Proof. by destruct st. Qed.

(** The loop of lines 292-314 appends the transformed brushes, in order, to
    the list of whatever entity [e] is being filled. *)
Lemma transform_brushes_ok mat ff e d l (tbs : list (brush F)) : ∀ st bs,
  get_dict (heap st) e = Some d → d !! "brushes" = Some (VRef l) →
  get_list (heap st) l = Some bs →
  for_each tbs (λ copy_brush,
    incr_brush_count;;
    bl ← getattr e "brushes";
    list_append bl (transform_brush mat ff copy_brush)) st
  = (Ok tt,
     State (<[l := OList (bs ++ (transform_brush mat ff <$> tbs))]> (heap st))
           (entities st) (missing_gids st) (tiles_processed st)
           (brush_count st + Z.of_nat (length tbs)) (stdout st)).
Proof.
  induction tbs as [|b tbs IH]; intros st bs Hd Hb Hl.
  - cbn. rewrite app_nil_r, Z.add_0_r, insert_id by by apply get_list_Some.
    by destruct st.
  - cbn [for_each].
    erewrite bind_ok; last first.
    { erewrite bind_ok by reflexivity.
      erewrite bind_ok by (by eapply getattr_ok).
      by eapply list_append_ok. }
    rewrite (IH _ (bs ++ [transform_brush mat ff b])); cbn.
    + rewrite insert_insert_eq, <-(assoc_L (++)). do 2 f_equal. lia.
    + rewrite get_dict_insert_ne; [done|]. symmetry. by eapply get_dict_list_ne.
    + done.
    + apply get_list_insert.
Qed.


Lemma place_entity_world cfg mat fm ff ws tpl st td tl tbs wd lw wbs c :
  get_dict (heap st) tpl = Some td → td !! "classname" = Some c →
  is_worldspawn c = true →
  td !! "brushes" = Some (VRef tl) → get_list (heap st) tl = Some tbs →
  get_dict (heap st) ws = Some wd → wd !! "brushes" = Some (VRef lw) →
  get_list (heap st) lw = Some wbs →
  tpl ≠ ws → tl ≠ lw →
  place_entity cfg mat fm ff ws tpl st
  = (Ok tt,
     State (<[lw := OList (wbs ++ (transform_brush mat ff <$> tbs))]>
              (<[ws := OEntity (copy_properties td wd)]> (heap st)))
           (entities st) (missing_gids st) (tiles_processed st)
           (brush_count st + Z.of_nat (length tbs)) (stdout st)).
Proof.
  intros Htd Hc Hw Htl Htbs Hwd Hlw Hwbs Hne1 Hne2.
  assert (ws ≠ tl) as Hne3 by by eapply get_dict_list_ne.
  assert (ws ≠ lw) as Hne4 by by eapply get_dict_list_ne.
  assert (copy_properties td wd !! "classname" = Some c) as Hc'.
  { rewrite lookup_copy_properties, decide_False by done. by rewrite Hc. }
  unfold place_entity.
  erewrite bind_ok by (by eapply getattr_ok).
  rewrite Hw.
  erewrite bind_ok by reflexivity.
  erewrite bind_ok by (by eapply read_dict_ok).
  erewrite bind_ok by (by eapply read_dict_ok).
  erewrite bind_ok by reflexivity.
  erewrite bind_ok; last first.
  { eapply getattr_ok; [cbn [heap set_heap]; apply get_dict_insert|done]. }
  rewrite Hw.
  erewrite bind_ok by reflexivity.
  erewrite bind_ok; last first.
  { eapply getattr_ok; [cbn [heap set_heap]; by rewrite get_dict_insert_ne|done]. }
  erewrite bind_ok; last first.
  { eapply read_list_ok. cbn [heap set_heap]. by rewrite get_list_insert_ne. }
  erewrite bind_ok; last first.
  { eapply transform_brushes_ok; cbn [heap set_heap].
    - apply get_dict_insert.
    - rewrite lookup_copy_properties, decide_True by done. done.
    - by rewrite get_list_insert_ne. }
  erewrite bind_ok; last first.
  { eapply getattr_ok; cbn [heap set_heap]; [|exact Hc'].
    rewrite get_dict_insert_ne by done. apply get_dict_insert. }
  by rewrite Hw.
Qed.


Lemma new_list_ok st :
  new_list st = (Ok (VRef (fresh (dom (heap st)))),
                 set_heap (<[fresh (dom (heap st)) := OList []]> (heap st)) st).
Proof. done. Qed.

Lemma new_Entity_ok st :
  let l0 := fresh (dom (heap st)) in
  let h1 := <[l0 := OList []]> (heap st) in
  new_Entity st
  = (Ok (fresh (dom h1)),
     set_heap (<[fresh (dom h1) := OEntity {["brushes" := VRef l0]}]> h1) st).
Proof. done. Qed.

Lemma place_entity_other cfg mat fm ff ws tpl st td tl tbs c st' :
  get_dict (heap st) tpl = Some td → td !! "classname" = Some c →
  is_worldspawn c = false →
  td !! "brushes" = Some (VRef tl) → get_list (heap st) tl = Some tbs →
  place_entity cfg mat fm ff ws tpl st = (Ok tt, st') →
  ∃ e l l0 d',
    (e ∉ dom (heap st)) ∧ (l ∉ dom (heap st)) ∧
    heap st ⊆ heap st' ∧
    place_properties cfg mat fm (copy_properties td (blank_dict l l0)) = Ok d' ∧
    get_dict (heap st') e = Some d' ∧ d' !! "brushes" = Some (VRef l) ∧
    get_list (heap st') l = Some (transform_brush mat ff <$> tbs) ∧
    entities st' = entities st ++ [e].
Proof.
  intros Htd Hc Hw Htl Htbs.
  set (h := heap st).
  set (l0 := fresh (dom h)).
  set (h1 := <[l0 := OList []]> h).
  set (e := fresh (dom h1)).
  set (d0 := {["brushes" := VRef l0]} : gmap string (pyval F)).
  set (h2 := <[e := OEntity d0]> h1).
  set (d1 := <["classname" := VStr "func_unknown"]> d0).
  set (h3 := <[e := OEntity d1]> h2).
  set (l := fresh (dom h3)).
  set (h4 := <[l := OList []]> h3).
  set (h5 := <[e := OEntity (blank_dict l l0)]> h4).
  set (d2 := copy_properties td (blank_dict l l0)).
  set (h6 := <[e := OEntity d2]> h5).
  assert (l0 ∉ dom h) as Hl0 by apply is_fresh.
  assert (e ∉ dom h1) as He by apply is_fresh.
  assert (l ∉ dom h3) as Hl by apply is_fresh.
  assert (e ≠ l0 ∧ e ∉ dom h) as [Hel0 Heh].
  { unfold h1 in He. rewrite dom_insert_L in He. set_solver. }
  assert (l ≠ e ∧ l ≠ l0 ∧ l ∉ dom h) as (Hle & Hll0 & Hlh).
  { unfold h3, h2, h1 in Hl. rewrite !dom_insert_L in Hl. set_solver. }
  assert (∀ x, x ∈ dom h → x ≠ l0 ∧ x ≠ e ∧ x ≠ l) as Hold.
  { intros x Hx. repeat split; intros ->; done. }
  assert (tpl ∈ dom h) as Htpl.
  { apply elem_of_dom. apply get_dict_Some in Htd. by eexists. }
  assert (tl ∈ dom h) as Htl'.
  { apply elem_of_dom. apply get_list_Some in Htbs. by eexists. }
  destruct (Hold _ Htpl) as (? & ? & ?). destruct (Hold _ Htl') as (? & ? & ?).
  assert (d2 !! "classname" = Some c) as Hc2.
  { unfold d2. rewrite lookup_copy_properties, decide_False by done. by rewrite Hc. }
  assert (d2 !! "brushes" = Some (VRef l)) as Hb2.
  { unfold d2. rewrite lookup_copy_properties, decide_True by done.
    unfold blank_dict. by rewrite lookup_insert_eq. }
  unfold place_entity.
  erewrite bind_ok by (by eapply getattr_ok).
  rewrite Hw.
  erewrite bind_ok; last first.
  { erewrite bind_ok by apply new_Entity_ok.
    erewrite bind_ok; last first.
    { eapply setattr_ok; [done|]. cbn [heap set_heap]. apply get_dict_insert. }
    erewrite bind_ok by apply new_list_ok.
    erewrite bind_ok; last first.
    { eapply setattr_ok; [done|]. cbn [heap set_heap].
      fold h l0 h1 e d0 h2 d1 h3 l.
      rewrite get_dict_insert_ne by done. apply get_dict_insert. }
    reflexivity. }
  cbn [heap set_heap]. fold h l0 h1 e d0 h2 d1 h3 l h4.
  change (<["brushes":=VRef l]> d1) with (@blank_dict F l l0). fold h5.
  erewrite bind_ok; last first.
  { eapply read_dict_ok. cbn [heap set_heap]. unfold h5, h4, h3, h2, h1.
    by rewrite !get_dict_insert_ne. }
  erewrite bind_ok; last first.
  { eapply read_dict_ok. cbn [heap set_heap]. apply get_dict_insert. }
  erewrite bind_ok by reflexivity. cbn [heap set_heap]. fold d2 h6.
  erewrite bind_ok; last first.
  { eapply getattr_ok; [cbn [heap set_heap]; apply get_dict_insert|done]. }
  rewrite Hw.
  destruct (place_properties cfg mat fm d2) as [d'|x] eqn:Hpp; last first.
  { erewrite bind_raise; [done|].
    erewrite bind_ok; last first.
    { eapply read_dict_ok. cbn [heap set_heap]. apply get_dict_insert. }
    rewrite Hpp. reflexivity. }
  assert (d' !! "classname" = Some c) as Hc3.
  { by rewrite (place_properties_lookup _ _ _ _ _ _ Hpp). }
  assert (d' !! "brushes" = Some (VRef l)) as Hb3.
  { by rewrite (place_properties_lookup _ _ _ _ _ _ Hpp). }
  set (h7 := <[e := OEntity d']> h6).
  erewrite bind_ok; last first.
  { erewrite bind_ok; last first.
    { eapply read_dict_ok. cbn [heap set_heap]. apply get_dict_insert. }
    rewrite Hpp. erewrite bind_ok by reflexivity. reflexivity. }
  cbn [heap set_heap]. fold h7.
  erewrite bind_ok; last first.
  { eapply getattr_ok; [cbn [heap set_heap]|exact Htl].
    unfold h7, h6, h5, h4, h3, h2, h1. rewrite !get_dict_insert_ne by done.
    exact Htd. }
  erewrite bind_ok; last first.
  { eapply read_list_ok. cbn [heap set_heap].
    unfold h7, h6, h5, h4, h3, h2, h1. rewrite !get_list_insert_ne by done.
    exact Htbs. }
  erewrite bind_ok; last first.
  { eapply (transform_brushes_ok _ _ e d' l _ _ []); cbn [heap set_heap]; [|done|].
    - apply get_dict_insert.
    - unfold h7, h6, h5. rewrite !get_list_insert_ne by done.
      apply get_list_insert. }
  cbn [heap set_heap entities missing_gids tiles_processed brush_count stdout app].
  erewrite bind_ok; last first.
  { eapply getattr_ok; [cbn [heap]|done].
    rewrite get_dict_insert_ne by done. apply get_dict_insert. }
  rewrite Hw. unfold append_entity. cbn [heap set_heap entities].
  intros [= <-]. cbn [heap entities].
  exists e, l, l0, d'. split_and!; try done.
  - apply map_subseteq_spec. intros x o Hx.
    destruct (Hold x) as (? & ? & ?); [by apply elem_of_dom|].
    unfold h7, h6, h5, h4, h3, h2, h1. by rewrite !lookup_insert_ne.
  - rewrite get_dict_insert_ne by done. apply get_dict_insert.
  - apply get_list_insert.
Qed.


(** ** The invariant of the pass *)

Section Pass.
Variables (cfg : inputs F) (h0 : gmap loc (obj F)) (ws lw : loc).
Abbreviation Inv := (pass_inv cfg h0 ws lw).

Lemma describes_stable h h' e src :
  (∀ x o, x ≠ ws → x ≠ lw → h !! x = Some o → h' !! x = Some o) →
  describes cfg h0 ws lw h e src → describes cfg h0 ws lw h' e src.
Proof.
  intros Hh (Hws & Hlw & H0 & Hsrc). split_and!; try done.
  assert (∀ x d, x ≠ ws → x ≠ lw → get_dict h x = Some d → get_dict h' x = Some d) as Hd.
  { intros x d ??. rewrite !get_dict_Some. by apply Hh. }
  assert (∀ x bs, x ≠ ws → x ≠ lw → get_list h x = Some bs → get_list h' x = Some bs) as Hl.
  { intros x bs ??. rewrite !get_list_Some. by apply Hh. }
  destruct src as [index t tpl|o].
  - destruct Hsrc as (d & l & l0 & td & ? & ? & ? & ? & ? & ? & ?).
    exists d, l, l0, td. split_and!; auto.
  - destruct Hsrc as (l & xy & ? & ? & ? & ? & ?).
    exists l, xy. split_and!; auto.
Qed.

Lemma pass_inv_ext W S st st' :
  heap st' = heap st → entities st' = entities st → Inv W S st → Inv W S st'.
Proof. unfold pass_inv. by intros -> ->. Qed.

Lemma describes_in_dom h e src : describes cfg h0 ws lw h e src → e ∈ dom h.
Proof.
  intros (_ & _ & _ & Hsrc). apply elem_of_dom.
  destruct src; [destruct Hsrc as (d & ? & ? & ? & Hd & _)|destruct Hsrc as (? & ? & Hd & _)];
    apply get_dict_Some in Hd; by eexists.
Qed.

Lemma loaded_inv tpl :
  loaded h0 tpl →
  ∃ td tl tbs, get_dict h0 tpl = Some td ∧ td !! "brushes" = Some (VRef tl) ∧
               get_list h0 tl = Some tbs ∧ template_brushes h0 tpl = tbs.
Proof.
  intros [[td Htd] [tbs Hb]]. unfold template_brushes.
  unfold entity_brushes in *. rewrite Htd in *.
  destruct (td !! "brushes") as [[| |tl]|] eqn:Hl; try done.
  exists td, tl, tbs. by rewrite Hb.
Qed.

Lemma is_worldspawn_true (c : pyval F) :
  is_worldspawn c = true → c = VStr "worldspawn".
Proof. destruct c; try done. cbn. by intros ->%bool_decide_eq_true. Qed.

Lemma place_entity_inv index t tpl W S st st' :
  loaded h0 tpl → Inv W S st →
  place_entity cfg (cell_transform cfg index t).1.1 (cell_transform cfg index t).1.2
    (cell_transform cfg index t).2 ws tpl st = (Ok tt, st') →
  Inv (W ++ template_world_brushes cfg h0 index t tpl)
      (S ++ template_sources h0 index t tpl) st'.
Proof.
  intros (td & tl & tbs & Htd & Htl & Htbs & Hbr)%loaded_inv.
  intros (Hsub & Hws & Hlw & (wd & Hwd & Hwb & Hwc) & HW & others & Hent & Hnd & Hdesc) Hrun.
  assert (∀ x d, get_dict h0 x = Some d → get_dict (heap st) x = Some d) as Hd0.
  { intros x d. rewrite !get_dict_Some. intros. by eapply lookup_weaken. }
  assert (∀ x bs, get_list h0 x = Some bs → get_list (heap st) x = Some bs) as Hl0.
  { intros x bs. rewrite !get_list_Some. intros. by eapply lookup_weaken. }
  assert (tpl ≠ ws).
  { intros ->. apply Hws, elem_of_dom. apply get_dict_Some in Htd. by eexists. }
  assert (tl ≠ lw).
  { intros ->. apply Hlw, elem_of_dom. apply get_list_Some in Htbs. by eexists. }
  unfold template_world_brushes, template_sources, is_world_template, entity_attr.
  rewrite Htd, Hbr.
  destruct (td !! "classname") as [c|] eqn:Hc; last first.
  { unfold place_entity in Hrun. erewrite bind_raise in Hrun; [done|].
    eapply getattr_missing; eauto. }
  destruct (is_worldspawn c) eqn:Hw.
  - erewrite place_entity_world in Hrun by eauto. injection Hrun as <-.
    rewrite app_nil_r.
    assert (ws ≠ lw) by by eapply get_dict_list_ne.
    split_and!; cbn [heap entities]; try done.
    + apply map_subseteq_spec. intros x o Hx.
      rewrite !lookup_insert_ne; [by eapply lookup_weaken| |];
        intros ->; [apply Hws|apply Hlw]; by apply elem_of_dom.
    + exists (copy_properties td wd). split_and!.
      * rewrite get_dict_insert_ne by done. apply get_dict_insert.
      * by rewrite lookup_copy_properties, decide_True.
      * rewrite lookup_copy_properties, decide_False by done.
        rewrite Hc. by rewrite (is_worldspawn_true _ Hw).
    + apply get_list_insert.
    + exists others. split_and!; try done.
      eapply Forall2_impl; [done|]. intros e src. apply describes_stable.
      intros x o ??. by rewrite !lookup_insert_ne.
  - eapply place_entity_other in Hrun; eauto.
    destruct Hrun as (e & l & l0 & d' & He & Hl & Hsub' & Hpp & Hd' & Hb' & Hl' & Hent').
    rewrite app_nil_r.
    assert (∀ x o, heap st !! x = Some o → heap st' !! x = Some o) as Hmono.
    { intros x o ?. by eapply lookup_weaken. }
    assert (ws ∈ dom (heap st)).
    { apply elem_of_dom. apply get_dict_Some in Hwd. by eexists. }
    assert (lw ∈ dom (heap st)).
    { apply elem_of_dom. apply get_list_Some in HW. by eexists. }
    split_and!; try done.
    + by etrans.
    + exists wd. split_and!; try done. apply get_dict_Some, Hmono. by apply get_dict_Some.
    + apply get_list_Some, Hmono. by apply get_list_Some.
    + exists (others ++ [e]). split_and!.
      * by rewrite Hent', Hent.
      * apply NoDup_app. split_and!; [done| |apply NoDup_singleton].
        intros x Hx ->%list_elem_of_singleton.
        apply He. destruct (proj1 (list_elem_of_lookup _ _) Hx) as [i Hi].
        destruct (Forall2_lookup_l _ _ _ _ _ Hdesc Hi) as (src & _ & Hsrc).
        by eapply describes_in_dom.
      * apply Forall2_app.
        { eapply Forall2_impl; [done|]. intros e' src. apply describes_stable. eauto. }
        constructor; [|constructor].
        split_and!.
        -- by intros ->.
        -- by intros ->.
        -- intros Hin. apply He. by apply (subseteq_dom _ _ Hsub).
        -- exists d', l, l0, td. split_and!; try done; try by intros ->.
           by rewrite Hbr.
Qed.


(** A loop whose iterations each add to the accumulator and to the output
    list adds the concatenation. *)
Lemma for_each_inv {A} (w : A → list (brush F)) (s : A → list (source F))
    (xs : list A) (body : A → M F unit) :
  (∀ x W S st st', x ∈ xs → Inv W S st → body x st = (Ok tt, st') →
                   Inv (W ++ w x) (S ++ s x) st') →
  ∀ W S st st', Inv W S st → for_each xs body st = (Ok tt, st') →
                Inv (W ++ mjoin (w <$> xs)) (S ++ mjoin (s <$> xs)) st'.
Proof.
  induction xs as [|x xs IH]; intros Hbody W S st st' HI Hrun.
  - injection Hrun as <-. cbn. by rewrite !app_nil_r.
  - cbn [for_each] in Hrun. unfold mbind, M_bind in Hrun.
    destruct (body x st) as [[[]|?] st1] eqn:Hx; [|done].
    cbn. rewrite !(assoc_L (++)).
    eapply IH; [|by eapply Hbody; [left|..]|done].
    intros. eapply Hbody; [by right|done..].
Qed.

Lemma for_enumerate_for_each {A} (xs : list A) (body : Z → A → M F unit) i :
  for_enumerate i xs body = for_each (enumerate_from i xs) (λ c, body c.1 c.2).
Proof. revert i. induction xs as [|x xs IH]; intros i; cbn; [done|]. by rewrite IH. Qed.

Lemma join_filter {A B} (P : A → Prop) `{!∀ x, Decision (P x)}
    (f : A → list B) (l : list A) :
  mjoin (f <$> filter P l)
  = mjoin ((λ x, if decide (P x) then f x else []) <$> l).
Proof.
  induction l as [|x l IH]; [done|].
  rewrite filter_cons, !fmap_cons.
  change (mjoin (?a :: ?b)) with (a ++ mjoin b).
  destruct (decide (P x)); rewrite <-IH; [by rewrite fmap_cons|done].
Qed.

Lemma cell_world_brushes_templates index t :
  cell_world_brushes cfg h0 index t
  = mjoin (template_world_brushes cfg h0 index t <$> cell_prefab cfg t).
Proof.
  unfold cell_world_brushes. rewrite join_filter. f_equal.
  apply list_fmap_ext. intros _ tpl _. unfold template_world_brushes.
  by destruct (is_world_template h0 tpl).
Qed.

Lemma cell_sources_templates index t :
  cell_sources cfg h0 index t
  = mjoin (template_sources h0 index t <$> cell_prefab cfg t).
Proof.
  unfold cell_sources.
  trans (mjoin ((λ tpl, [FromTile index t tpl] : list (source F))
                  <$> filter (λ tpl, is_world_template h0 tpl = false)
                             (cell_prefab cfg t))).
  { generalize (filter (λ tpl, is_world_template h0 tpl = false)
                       (cell_prefab cfg t)).
    intros l. induction l as [|x l IH]; [done|]. cbn. by rewrite IH. }
  rewrite join_filter. f_equal.
  apply list_fmap_ext. intros _ tpl _. unfold template_sources.
  by destruct (is_world_template h0 tpl).
Qed.

Lemma place_tile_inv index t W S st st' :
  prefabs_loaded cfg h0 → Inv W S st →
  place_tile cfg ws index t st = (Ok tt, st') →
  Inv (W ++ cell_world_brushes cfg h0 index t)
      (S ++ cell_sources cfg h0 index t) st'.
Proof.
  intros Hload HI. unfold place_tile.
  rewrite cell_world_brushes_templates, cell_sources_templates.
  unfold cell_prefab.
  case_decide as Hg.
  { intros [= <-]. cbn. by rewrite !app_nil_r. }
  unfold mbind at 1, M_bind at 1. cbn [get_missing_gids].
  destruct (no_prefab cfg (gid t) && _) eqn:Hno.
  - apply andb_prop in Hno as [Hno _]. unfold no_prefab in Hno.
    intros [= <-]. cbn [print append_missing_gid].
    destruct (tiles cfg !! gid t) as [[|]|]; try done;
      cbn; rewrite !app_nil_r; by eapply pass_inv_ext.
  - unfold mbind at 1, M_bind at 1. cbn [incr_tiles_processed].
    unfold mbind at 1, M_bind at 1. unfold lift at 1.
    destruct (tile_transform cfg index t) as [tr|] eqn:Htr; [|done].
    destruct (tiles cfg !! gid t) as [prefab|] eqn:Hp; [|done].
    cbn [default]. unfold mbind at 1, M_bind at 1. cbn [mret M_ret].
    intros Hrun.
    eapply (for_each_inv (template_world_brushes cfg h0 index t)
                         (template_sources h0 index t)); [| |done].
    + intros tpl W' S' st1 st2 Hin HI' Hb.
      eapply place_entity_inv; [|done|].
      * eapply Forall_forall; [|done]. by eapply (map_Forall_lookup_1 _ _ _ _ Hload).
      * unfold cell_transform. by rewrite Htr.
    + by eapply pass_inv_ext.
Qed.

End Pass.

(** ** Objects *)

Lemma copy_object_properties_ok e (props : list (property F)) : ∀ d z st,
  refused_property props = None →
  get_dict (heap st) e = Some d →
  copy_object_properties e z props st
  = (Ok (foldl (λ z p, if String.eqb (prop_name p) "Z"
                       then of_scalar (prop_value p) else z) z props),
     set_heap (<[e := OEntity (object_attrs props d)]> (heap st)) st).
Proof.
  induction props as [|p props IH]; intros d z st Hr Hd.
  - cbn. rewrite insert_id by by apply get_dict_Some. by rewrite set_heap_id.
  - cbn [copy_object_properties foldl refused_property] in *.
    unfold object_attrs. cbn [foldl].
    destruct (String.eqb (prop_name p) "Z"); [by apply IH|].
    destruct (setattr_refuses (prop_name p)) eqn:Hp; [done|].
    erewrite bind_ok by by eapply setattr_ok.
    erewrite IH by (done || cbn [heap set_heap]; apply get_dict_insert).
    cbn [heap set_heap]. by rewrite insert_insert_eq.
Qed.

(** The loop of lines 325-330 stops at the first property that [setattr]
    refuses; the heap then holds the entity with the properties set before
    it. *)
Lemma copy_object_properties_raise e (props : list (property F)) x : ∀ d z st,
  refused_property props = Some x →
  get_dict (heap st) e = Some d →
  ∃ d', copy_object_properties e z props st
        = (Raise x, set_heap (<[e := OEntity d']> (heap st)) st).
Proof.
  induction props as [|p props IH]; intros d z st Hr Hd; [done|].
  cbn [copy_object_properties refused_property] in *.
  destruct (String.eqb (prop_name p) "Z"); [by eapply IH|].
  destruct (setattr_refuses (prop_name p)) eqn:Hp.
  - injection Hr as ->. exists d.
    erewrite bind_raise by by eapply setattr_refused.
    rewrite insert_id by by apply get_dict_Some. by rewrite set_heap_id.
  - erewrite bind_ok by by eapply setattr_ok.
    edestruct (IH (<[prop_name p := of_scalar (prop_value p)]> d) z) as [d' ->];
      [done|cbn [heap set_heap]; apply get_dict_insert|].
    exists d'. cbn [heap set_heap]. by rewrite insert_insert_eq.
Qed.

Lemma place_object_ok cfg (o : object F) st xy :
  refused_property (obj_properties o) = None →
  object_planar cfg o = Ok xy →
  let l := fresh (dom (heap st)) in
  let h1 := <[l := OList []]> (heap st) in
  let e := fresh (dom h1) in
  place_object cfg o st
  = (Ok tt,
     State (<[e := OEntity (object_dict o xy l)]> h1)
           (entities st ++ [e]) (missing_gids st) (tiles_processed st)
           (brush_count st) (stdout st)).
Proof.
  intros Hr Hxy l h1 e. unfold place_object.
  erewrite bind_ok by apply new_Entity_ok.
  erewrite bind_ok; last first.
  { eapply copy_object_properties_ok; [done|].
    cbn [heap set_heap]. apply get_dict_insert. }
  rewrite Hxy. erewrite bind_ok by reflexivity.
  erewrite bind_ok; last first.
  { eapply setattr_ok; [done|]. cbn [heap set_heap]. apply get_dict_insert. }
  erewrite bind_ok; last first.
  { eapply setattr_ok; [done|]. cbn [heap set_heap]. apply get_dict_insert. }
  cbn [heap set_heap append_entity entities missing_gids tiles_processed
       brush_count stdout].
  fold l h1 e. by rewrite !insert_insert_eq.
Qed.

(** Lines 322-338 on one object, outcome by outcome: the first refused
    property stops it, then the arithmetic of lines 332-334. *)
Lemma place_object_outcome cfg (o : object F) st :
  (place_object cfg o st).1
  = match refused_property (obj_properties o) with
    | Some x => Raise x
    | None =>
        match object_planar cfg o with
        | Ok _ => Ok tt
        | Raise x => Raise x
        end
    end.
Proof.
  destruct (refused_property (obj_properties o)) as [x|] eqn:Hr.
  - unfold place_object. erewrite bind_ok by apply new_Entity_ok.
    edestruct (copy_object_properties_raise) as [d' Hc]; [exact Hr| |].
    2: { erewrite bind_raise by exact Hc. done. }
    cbn [heap set_heap]. apply get_dict_insert.
  - destruct (object_planar cfg o) as [xy|x] eqn:Hxy.
    + by rewrite (place_object_ok cfg o st xy Hr Hxy).
    + unfold place_object. erewrite bind_ok by apply new_Entity_ok.
      erewrite bind_ok; last first.
      { eapply copy_object_properties_ok; [done|].
        cbn [heap set_heap]. apply get_dict_insert. }
      by rewrite Hxy.
Qed.

Lemma place_object_inv cfg h0 ws lw (o : object F) W S st st' :
  pass_inv cfg h0 ws lw W S st →
  place_object cfg o st = (Ok tt, st') →
  pass_inv cfg h0 ws lw W (S ++ [FromObject o]) st'.
Proof.
  intros (Hsub & Hws & Hlw & (wd & Hwd & Hwb & Hwc) & HW & others & Hent & Hnd & Hdesc).
  pose proof (place_object_outcome cfg o st) as Hout.
  destruct (refused_property (obj_properties o)) eqn:Hr;
    [intros Hrun; by rewrite Hrun in Hout|].
  destruct (object_planar cfg o) as [xy|x] eqn:Hxy;
    [|intros Hrun; by rewrite Hrun in Hout].
  clear Hout. rewrite (place_object_ok cfg o st xy Hr Hxy).
  set (l := fresh (dom (heap st))). set (h1 := <[l := OList []]> (heap st)).
  set (e := fresh (dom h1)).
  assert (l ∉ dom (heap st)) as Hl by apply is_fresh.
  assert (e ∉ dom h1) as He by apply is_fresh.
  assert (e ≠ l ∧ e ∉ dom (heap st)) as [Hel Heh].
  { unfold h1 in He. rewrite dom_insert_L in He. set_solver. }
  assert (ws ∈ dom (heap st)).
  { apply elem_of_dom. apply get_dict_Some in Hwd. by eexists. }
  assert (lw ∈ dom (heap st)).
  { apply elem_of_dom. apply get_list_Some in HW. by eexists. }
  assert (∀ x ob, heap st !! x = Some ob →
                 <[e := OEntity (object_dict o xy l)]> h1 !! x = Some ob)
    as Hmono.
  { intros x ob Hx. assert (x ∈ dom (heap st)) by (apply elem_of_dom; by eexists).
    unfold h1. rewrite !lookup_insert_ne; [done|by intros ->..]. }
  intros [= <-]. split_and!; cbn [heap entities]; try done.
  - apply map_subseteq_spec. intros x ob Hx. apply Hmono. by eapply lookup_weaken.
  - exists wd. split_and!; try done. apply get_dict_Some, Hmono. by apply get_dict_Some.
  - apply get_list_Some, Hmono. by apply get_list_Some.
  - exists (others ++ [e]). split_and!.
    + by rewrite Hent.
    + apply NoDup_app. split_and!; [done| |apply NoDup_singleton].
      intros x Hx ->%list_elem_of_singleton.
      apply Heh. destruct (proj1 (list_elem_of_lookup _ _) Hx) as [i Hi].
      destruct (Forall2_lookup_l _ _ _ _ _ Hdesc Hi) as (src & _ & Hsrc).
      by eapply describes_in_dom.
    + apply Forall2_app.
      { eapply Forall2_impl; [done|]. intros e' src. apply describes_stable.
        intros ????. by apply Hmono. }
      constructor; [|constructor]. split_and!.
      * by intros ->.
      * by intros ->.
      * intros Hin. apply Heh. by apply (subseteq_dom _ _ Hsub).
      * exists l, xy. split_and!; try done; try by intros ->.
        -- apply get_dict_insert.
        -- rewrite get_list_insert_ne by done. apply get_list_insert.
Qed.


(** ** The whole pass *)

Lemma read_dict_None st e :
  get_dict (heap st) e = None → read_dict e st = (Raise TypeError, st).
Proof.
  unfold get_dict, read_dict. by destruct (heap st !! e) as [[]|].
Qed.

(** Lines 195-200, case by case. *)
Lemma create_worldspawn_cases (cfg : inputs F) st :
  let l0 := fresh (dom (heap st)) in
  let h1 := <[l0 := OList []]> (heap st) in
  let ws := fresh (dom h1) in
  let d1 : gmap string (pyval F) :=
    <["classname" := VStr "worldspawn"]> {["brushes" := VRef l0]} in
  let h2 := <[ws := OEntity d1]> h1 in
  let lw := fresh (dom h2) in
  create_worldspawn cfg st =
    match tiles cfg !! 2 with
    | None => (Raise KeyError, set_heap h2 st)
    | Some [] => (Raise IndexError, set_heap h2 st)
    | Some (first :: _) =>
        match get_dict h2 first with
        | None => (Raise TypeError, set_heap h2 st)
        | Some d =>
            match d !! "wad" with
            | None => (Raise AttributeError, set_heap h2 st)
            | Some w =>
                (Ok ws,
                 State (<[ws := OEntity (<["brushes" := VRef lw]>
                                           (<["wad" := w]> d1))]>
                          (<[lw := OList []]> h2))
                       (entities st ++ [ws]) (missing_gids st)
                       (tiles_processed st) (brush_count st) (stdout st))
            end
        end
    end.
Proof.
  intros l0 h1 ws d1 h2 lw. unfold create_worldspawn.
  erewrite bind_ok by apply new_Entity_ok.
  erewrite bind_ok; last first.
  { eapply setattr_ok; [done|]. cbn [heap set_heap]. apply get_dict_insert. }
  cbn [heap set_heap]. fold l0 h1 ws. rewrite insert_insert_eq. fold d1 h2.
  destruct (tiles cfg !! 2) as [[|first rest]|]; [done| |done].
  destruct (get_dict h2 first) as [d|] eqn:Hd; last first.
  { erewrite bind_raise; [done|]. unfold getattr.
    erewrite bind_raise; [done|]. by apply read_dict_None. }
  destruct (d !! "wad") as [w|] eqn:Hw; last first.
  { erewrite bind_raise; [done|]. by eapply getattr_missing. }
  erewrite bind_ok by by eapply getattr_ok.
  erewrite bind_ok; last first.
  { eapply setattr_ok; [done|]. cbn [heap set_heap]. apply get_dict_insert. }
  erewrite bind_ok by apply new_list_ok.
  cbn [heap set_heap]. unfold h2 at 1 2. rewrite insert_insert_eq.
  assert (dom (<[ws:=OEntity (<["wad":=w]> d1)]> h1) = dom h2) as ->.
  { unfold h2. by rewrite !dom_insert_L. }
  fold lw.
  assert (lw ≠ ws) as Hne.
  { intros Heq. apply (is_fresh (dom h2)). fold lw. rewrite Heq.
    unfold h2. rewrite dom_insert_L. set_solver. }
  erewrite bind_ok; last first.
  { eapply setattr_ok; [done|]. cbn [heap set_heap].
    rewrite get_dict_insert_ne by done. apply get_dict_insert. }
  cbn [heap set_heap append_entity mbind M_bind mret M_ret entities missing_gids
       tiles_processed brush_count stdout].
  do 2 f_equal. unfold h2.
  rewrite (insert_insert_ne _ lw ws) by done.
  rewrite insert_insert_eq.
  rewrite (insert_insert_ne _ lw ws) by done.
  by rewrite insert_insert_eq.
Qed.

Lemma create_worldspawn_inv (cfg : inputs F) h0 ws st :
  create_worldspawn cfg (initial_state h0) = (Ok ws, st) →
  ∃ lw, pass_inv cfg h0 ws lw [] [] st.
Proof.
  rewrite create_worldspawn_cases. cbn [heap initial_state].
  set (l0 := fresh (dom h0)). set (h1 := <[l0 := OList []]> h0).
  set (ws' := fresh (dom h1)).
  set (d1 := <["classname" := VStr "worldspawn"]> {["brushes" := VRef l0]}).
  set (h2 := <[ws' := OEntity d1]> h1). set (lw := fresh (dom h2)).
  assert (l0 ∉ dom h0) as Hl0 by apply is_fresh.
  assert (ws' ∉ dom h1) as Hws by apply is_fresh.
  assert (lw ∉ dom h2) as Hlw by apply is_fresh.
  assert (ws' ≠ l0 ∧ ws' ∉ dom h0) as [? ?].
  { unfold h1 in Hws. rewrite dom_insert_L in Hws. set_solver. }
  assert (lw ≠ ws' ∧ lw ≠ l0 ∧ lw ∉ dom h0) as (? & ? & ?).
  { unfold h2, h1 in Hlw. rewrite !dom_insert_L in Hlw. set_solver. }
  destruct (tiles cfg !! 2) as [[|first rest]|]; try done.
  destruct (get_dict h2 first) as [d|]; [|done].
  destruct (d !! "wad") as [w|]; [|done].
  intros [= <- <-]. exists lw. split_and!; cbn [heap entities]; try done.
  - apply map_subseteq_spec. intros x o Hx.
    assert (x ∈ dom h0) by (apply elem_of_dom; by eexists).
    unfold h2, h1. rewrite !lookup_insert_ne; [done|by intros ->..].
  - eexists. split_and!; [apply get_dict_insert|by rewrite lookup_insert_eq|].
    unfold d1. rewrite !lookup_insert_ne by done. by rewrite lookup_insert_eq.
  - rewrite get_list_insert_ne by done. apply get_list_insert.
  - exists []. split_and!; [done|constructor|constructor].
Qed.

Lemma place_layer_inv cfg h0 ws lw (l : layer F) W S st st' :
  prefabs_loaded cfg h0 → pass_inv cfg h0 ws lw W S st →
  place_layer cfg ws l st = (Ok tt, st') →
  pass_inv cfg h0 ws lw (W ++ layer_world_brushes cfg h0 l)
    (S ++ layer_sources cfg h0 l) st'.
Proof.
  intros Hload HI. destruct l as [ts|os|]; cbn [place_layer].
  - rewrite for_enumerate_for_each. intros Hrun.
    eapply (for_each_inv cfg h0 ws lw
              (λ c, cell_world_brushes cfg h0 c.1 c.2)
              (λ c, cell_sources cfg h0 c.1 c.2)); [|done..].
    intros [i t] ??????. by eapply place_tile_inv.
  - intros Hrun. cbn [layer_world_brushes layer_sources].
    pose proof (for_each_inv cfg h0 ws lw (λ _, []) (λ o, [FromObject o])
                  os (place_object cfg)) as H.
    assert (∀ A (xs : list A), mjoin ((λ _, [] : list (brush F)) <$> xs) = []) as Hnil.
    { intros A xs. induction xs; [done|]. done. }
    assert (∀ xs : list (object F),
              mjoin ((λ o, [FromObject o]) <$> xs) = FromObject <$> xs) as Hsing.
    { intros xs. induction xs as [|x xs IH]; [done|]. rewrite !fmap_cons.
      change (mjoin (?a :: ?b)) with (a ++ mjoin b). by rewrite IH. }
    rewrite <-Hsing, <-(Hnil _ os). eapply H; [|done..].
    intros o W' S' st1 st2 _ HI' Hb. rewrite app_nil_r. by eapply place_object_inv.
  - intros [= <-]. cbn. by rewrite !app_nil_r.
Qed.

(** The pass as a whole, when it completes. *)
Lemma run_spec (cfg : inputs F) h0 st' :
  prefabs_loaded cfg h0 → run cfg h0 = (Ok tt, st') →
  ∃ ws lw,
    pass_inv cfg h0 ws lw (mjoin (layer_world_brushes cfg h0 <$> layers cfg))
      (mjoin (layer_sources cfg h0 <$> layers cfg)) st'.
Proof.
  intros Hload. unfold run, create_map, mbind, M_bind.
  destruct (create_worldspawn cfg (initial_state h0)) as [[ws|?] st] eqn:Hws;
    [|done].
  apply create_worldspawn_inv in Hws as [lw HI]. intros Hrun.
  exists ws, lw.
  eapply (for_each_inv cfg h0 ws lw (layer_world_brushes cfg h0)
            (layer_sources cfg h0) _ _ _ [] [] _ _ HI Hrun).
  Unshelve. intros. by eapply place_layer_inv.
Qed.


End Lemmas.

(** * The claims, over any floats *)

Section Claims.
Context {F : Type} `{!FloatArith F, !FloatText F}.
Implicit Types (st : state F) (h : gmap loc (obj F)) (d : gmap string (pyval F)).

Lemma mjoin_mjoin {A B C} (f : A → list B) (g : B → list C) (xs : list A) :
  mjoin ((λ x, mjoin (g <$> f x)) <$> xs) = mjoin (g <$> mjoin (f <$> xs)).
Proof.
  induction xs as [|x xs IH]; [done|]. rewrite !fmap_cons.
  change (mjoin (?a :: ?b)) with (a ++ mjoin b).
  by rewrite fmap_app, join_app, IH.
Qed.

Lemma world_brushes_cells (cfg : inputs F) h0 :
  world_brushes cfg h0
  = mjoin ((λ c, cell_world_brushes cfg h0 c.1 c.2) <$> cells cfg).
Proof.
  unfold world_brushes, cells. rewrite <-mjoin_mjoin. f_equal.
  apply list_fmap_ext. intros _ l _. by destruct l.
Qed.

Lemma tile_flip_parity (cfg : inputs F) (t : tile) :
  (tile_flip cfg t).2 = xorb (xorb (hflip t) (vflip t)) (dflip t).
Proof. unfold tile_flip, flip_step. by destruct (hflip t), (vflip t), (dflip t). Qed.

Lemma tile_transform_inv (cfg : inputs F) index t tr :
  tile_transform cfg index t = Ok tr →
  tr.1.2 = (tile_flip cfg t).1 ∧ tr.2 = (tile_flip cfg t).2 ∧
  ∃ x y ox oy fx fy,
    tile_xy cfg index = Ok (x, y) ∧
    tilemap_offset_x cfg x = Ok ox ∧ tilemap_offset_y cfg y = Ok oy ∧
    py_to_float ox = Ok fx ∧ py_to_float oy = Ok fy ∧
    tr.1.1 = mat_mul (translation fx fy (float_of_Z 0)) (tile_flip cfg t).1.
Proof.
  unfold tile_transform, mbind, result_bind, mret, result_ret.
  destruct (tile_xy cfg index) as [[x y]|] eqn:Hxy; [|done]. cbn [fst snd].
  destruct (tilemap_offset_x cfg x) as [ox|] eqn:Hx; [|done].
  destruct (tilemap_offset_y cfg y) as [oy|] eqn:Hy; [|done].
  destruct (py_to_float ox) as [fx|] eqn:Hfx; [|done].
  destruct (py_to_float oy) as [fy|] eqn:Hfy; [|done].
  intros [= <-]. split_and!; try done. by exists x, y, ox, oy, fx, fy.
Qed.

(** ** The cells of a pass that completes *)

Lemma for_each_all_ok {A} (xs : list A) (body : A → M F unit) st st' :
  for_each xs body st = (Ok tt, st') →
  ∀ x, x ∈ xs → ∃ s1 s2, body x s1 = (Ok tt, s2).
Proof.
  revert st. induction xs as [|y ys IH]; intros st Hrun x Hx;
    [by apply elem_of_nil in Hx|].
  cbn [for_each] in Hrun. unfold mbind, M_bind in Hrun.
  destruct (body y st) as [[[]|?] st1] eqn:Hy; [|done].
  apply elem_of_cons in Hx as [->|Hx]; [by eauto|by eapply IH].
Qed.

Lemma place_tile_transform_ok (cfg : inputs F) ws index t st st' :
  place_tile cfg ws index t st = (Ok tt, st') → cell_prefab cfg t ≠ [] →
  ∃ tr, tile_transform cfg index t = Ok tr.
Proof.
  unfold place_tile, cell_prefab. case_decide; [done|].
  unfold mbind at 1, M_bind at 1. cbn [get_missing_gids].
  destruct (tiles cfg !! gid t) as [prefab|] eqn:Hp; [|done]. cbn [default].
  intros Hrun Hne. unfold no_prefab in Hrun. rewrite Hp in Hrun.
  destruct prefab; [done|]. cbn [andb] in Hrun.
  unfold mbind at 1, M_bind at 1 in Hrun. cbn [incr_tiles_processed] in Hrun.
  unfold mbind at 1, M_bind at 1, lift at 1 in Hrun.
  destruct (tile_transform cfg index t); [by eauto|done].
Qed.

(** Every cell with a prefab of a pass that completes has a transform. *)
Lemma run_cell_transform (cfg : inputs F) h0 st' c :
  run cfg h0 = (Ok tt, st') → c ∈ cells cfg → cell_prefab cfg c.2 ≠ [] →
  ∃ tr, tile_transform cfg c.1 c.2 = Ok tr.
Proof.
  unfold run, create_map, mbind, M_bind.
  destruct (create_worldspawn cfg (initial_state h0)) as [[ws|?] st]; [|done].
  intros Hrun Hc Hne. unfold cells in Hc.
  apply list_elem_of_join in Hc as (cs & Hc & Hcs).
  apply list_elem_of_fmap in Hcs as (l & -> & Hl).
  destruct (for_each_all_ok _ _ _ _ Hrun l Hl) as (s1 & s2 & Hlayer).
  destruct l as [ts|os|]; [|by apply elem_of_nil in Hc..].
  cbn [place_layer] in Hlayer. rewrite for_enumerate_for_each in Hlayer.
  destruct (for_each_all_ok _ _ _ _ Hlayer c Hc) as (s3 & s4 & Htile).
  by eapply place_tile_transform_ok.
Qed.

Lemma tile_flip_odd (cfg : inputs F) (t : tile) :
  (tile_flip cfg t).2 = Nat.odd (active_flips t).
Proof.
  unfold tile_flip, flip_step, active_flips.
  by destruct (hflip t), (vflip t), (dflip t).
Qed.

Lemma transform_point_placed (mat : mat4 F) (p : vec3 F) :
  point_placed mat p (transform_point mat p).
Proof.
  destruct p as [[x y] z]. unfold point_placed, transform_point. cbn [fst snd].
  destruct (mat_vec mat (x, y, z, f1)) as [[[x' y'] z'] w]. by exists w.
Qed.

(** Lines 294-313 build a placed brush. *)
Lemma transform_brush_placed (mat : mat4 F) reversed (b : brush F) :
  brush_placed mat reversed b (transform_brush mat reversed b).
Proof.
  unfold brush_placed, transform_brush. cbn [planes].
  apply Forall2_fmap_r, Forall_Forall2_diag, Forall_forall. intros p _.
  unfold plane_placed, transform_plane. cbn [texture_name offset rotation scale
    points]. split_and!; [done..|].
  assert (Forall2 (point_placed mat) (points p)
                  (transform_point mat <$> points p)) as H.
  { apply Forall2_fmap_r, Forall_Forall2_diag, Forall_forall. intros q _.
    apply transform_point_placed. }
  destruct reversed; cbn [points]; [by rewrite reverse_involutive|done].
Qed.

Lemma Forall2_join_fmap {A B C} (R : B → C → Prop) (f : A → list B)
    (g : A → list C) (xs : list A) :
  (∀ x, x ∈ xs → Forall2 R (f x) (g x)) →
  Forall2 R (mjoin (f <$> xs)) (mjoin (g <$> xs)).
Proof.
  induction xs as [|x xs IH]; intros H; [constructor|].
  rewrite !fmap_cons. change (mjoin (?a :: ?b)) with (a ++ mjoin b).
  apply Forall2_app; [apply H; by left|]. apply IH. intros y Hy. apply H. by right.
Qed.

Lemma pass_inv_brushes cfg h0 ws lw W S st :
  pass_inv cfg h0 ws lw W S st → entity_brushes (heap st) ws = Some W.
Proof.
  intros (_ & _ & _ & (wd & Hwd & Hwb & _) & HW & _).
  unfold entity_brushes. by rewrite Hwd, Hwb.
Qed.

Lemma describes_brushes cfg h0 ws lw h e index t tpl :
  describes cfg h0 ws lw h e (FromTile index t tpl) →
  entity_brushes h e
  = Some (transform_brush (cell_transform cfg index t).1.1
                          (cell_transform cfg index t).2
            <$> template_brushes h0 tpl).
Proof.
  intros (_ & _ & _ & d & l & l0 & td & Hd & Hb & _ & _ & Hl & _).
  unfold entity_brushes. by rewrite Hd, Hb.
Qed.

Lemma sources_non_world (cfg : inputs F) h0 :
  Forall (λ src, match src with
                 | FromTile index t tpl =>
                     is_world_template h0 tpl = false ∧ tpl ∈ cell_prefab cfg t
                 | FromObject _ => True
                 end) (sources cfg h0).
Proof.
  unfold sources. apply Forall_forall. intros src Hin.
  apply list_elem_of_join in Hin as (ss & Hin & Hss).
  apply list_elem_of_fmap in Hss as (l & -> & _).
  destruct l as [ts|os|]; cbn in Hin.
  - apply list_elem_of_join in Hin as (cs & Hin & Hcs).
    apply list_elem_of_fmap in Hcs as ([i t] & -> & _).
    unfold cell_sources in Hin. cbn [fst snd] in Hin.
    apply list_elem_of_fmap in Hin as (tpl & -> & Htpl).
    by apply list_elem_of_filter in Htpl.
  - by apply list_elem_of_fmap in Hin as (o & -> & _).
  - by apply elem_of_nil in Hin.
Qed.

Lemma sources_cells (cfg : inputs F) h0 :
  Forall (λ src, match src with
                 | FromTile index t tpl =>
                     (index, t) ∈ cells cfg ∧ tpl ∈ cell_prefab cfg t ∧
                     is_world_template h0 tpl = false
                 | FromObject _ => True
                 end) (sources cfg h0).
Proof.
  unfold sources. apply Forall_forall. intros src Hin.
  apply list_elem_of_join in Hin as (ss & Hin & Hss).
  apply list_elem_of_fmap in Hss as (l & -> & Hl).
  destruct l as [ts|os|]; cbn in Hin.
  - apply list_elem_of_join in Hin as (cs & Hin & Hcs).
    apply list_elem_of_fmap in Hcs as ([i t] & -> & Hc).
    unfold cell_sources in Hin. cbn [fst snd] in Hin.
    apply list_elem_of_fmap in Hin as (tpl & -> & Htpl).
    apply list_elem_of_filter in Htpl as [Hw Htpl]. split_and!; [|done..].
    unfold cells. apply list_elem_of_join. exists (enumerate_from 0 ts).
    split; [done|]. apply list_elem_of_fmap. by exists (Layer ts).
  - by apply list_elem_of_fmap in Hin as (o & -> & _).
  - by apply elem_of_nil in Hin.
Qed.

Lemma Forall2_Forall_r_and {A B} (P : A → B → Prop) (Q : B → Prop) l k :
  Forall2 P l k → Forall Q k → Forall2 (λ x y, P x y ∧ Q y) l k.
Proof.
  induction 1 as [|x y l k HP _ IH]; [constructor|].
  intros [HQ Hk]%Forall_cons. constructor; auto.
Qed.

Lemma world_brushes_stamped (cfg : inputs F) h0 st' :
  run cfg h0 = (Ok tt, st') →
  Forall2 (λ b' s,
             ∃ tr, tile_transform cfg s.1.1 s.1.2 = Ok tr ∧
                   brush_placed tr.1.1 (Nat.odd (active_flips s.1.2)) s.2 b')
          (world_brushes cfg h0) (world_stamps cfg h0).
Proof.
  intros Hrun. rewrite world_brushes_cells. unfold world_stamps.
  apply Forall2_join_fmap. intros c Hc. unfold cell_world_brushes.
  apply Forall2_join_fmap. intros tpl Htpl.
  apply list_elem_of_filter in Htpl as [_ Htpl].
  destruct (run_cell_transform cfg h0 st' c Hrun Hc) as [tr Htr].
  { intros Hn. rewrite Hn in Htpl. by apply elem_of_nil in Htpl. }
  unfold cell_transform. rewrite Htr.
  apply Forall2_fmap, Forall_Forall2_diag, Forall_forall. intros b _.
  exists tr. cbn [fst snd]. split; [done|].
  rewrite <-(tile_flip_odd cfg).
  destruct (tile_transform_inv _ _ _ _ Htr) as (_ & <- & _).
  apply transform_brush_placed.
Qed.

(** C3: when the pass completes, every brush it has placed is a template
    brush of the prefab of a cell, plane by plane: a placed plane has the
    texture name, the offset, the rotation and the scale of the template
    plane, and its points are the points of the template plane taken
    through the placement matrix of the cell (homogeneous coordinate 1), in
    reverse order exactly when an odd number of the three mirror flags of
    the cell is set (one or three), in the same order when none or two are.
    This holds alike for the brushes of the accumulator, which are, cell
    after cell, the brushes of the world entities of the prefab, and for
    the brushes of every entity placed for another template entity. *)
Theorem plane_transform_and_winding (cfg : inputs F) h0 st' :
  prefabs_loaded cfg h0 → run cfg h0 = (Ok tt, st') →
  ∃ ws others W,
    entities st' = ws :: others ∧
    entity_brushes (heap st') ws = Some W ∧
    Forall2 (λ b' s,
               ∃ tr, tile_transform cfg s.1.1 s.1.2 = Ok tr ∧
                     brush_placed tr.1.1 (Nat.odd (active_flips s.1.2)) s.2 b')
            W (world_stamps cfg h0) ∧
    Forall2 (λ e src,
               match src with
               | FromTile index t tpl =>
                   is_world_template h0 tpl = false ∧
                   ∃ tr bs,
                     tile_transform cfg index t = Ok tr ∧
                     entity_brushes (heap st') e = Some bs ∧
                     Forall2 (brush_placed tr.1.1 (Nat.odd (active_flips t)))
                             (template_brushes h0 tpl) bs
               | FromObject _ => True
               end) others (sources cfg h0).
Proof.
  intros Hload Hrun.
  destruct (run_spec cfg h0 st' Hload Hrun) as (ws & lw & HI).
  pose proof (pass_inv_brushes _ _ _ _ _ _ _ HI) as Hb.
  destruct HI as (_ & _ & _ & _ & _ & others & Hent & _ & Hdesc).
  exists ws, others, (world_brushes cfg h0). split_and!; [done|done|..].
  - by eapply world_brushes_stamped.
  - eapply Forall2_impl.
    { apply Forall2_Forall_r_and; [exact Hdesc|apply sources_cells]. }
    intros e [index t tpl|o] [Hd Hs]; [|done]. destruct Hs as (Hc & Htpl & Hw).
    split; [done|].
    destruct (run_cell_transform cfg h0 st' (index, t) Hrun Hc) as [tr Htr].
    { intros Hn. cbn [snd] in Hn. rewrite Hn in Htpl. by apply elem_of_nil in Htpl. }
    cbn [fst snd] in Htr. exists tr. eexists. split; [done|].
    split; [by eapply describes_brushes|].
    unfold cell_transform. rewrite Htr.
    apply Forall2_fmap_r, Forall_Forall2_diag, Forall_forall. intros b _.
    rewrite <-(tile_flip_odd cfg).
    destruct (tile_transform_inv _ _ _ _ Htr) as (_ & <- & _).
    apply transform_brush_placed.
Qed.


Lemma transform_origin_lookup (mat : mat4 F) d d1 k :
  transform_origin mat d = Ok d1 → k ≠ "origin" → d1 !! k = d !! k.
Proof.
  unfold transform_origin, mbind, result_bind, mret, result_ret.
  destruct (d !! "origin") as [vo|]; [|by intros [= <-]].
  destruct (place_origin mat vo); [|done].
  intros [= <-] ?. by rewrite lookup_insert_ne.
Qed.

Lemma set_default_angle_lookup d k :
  set_default_angle d !! k
  = if decide (k = "angle") then Some (default (VNum (NInt 0)) (d !! "angle"))
    else d !! k.
Proof.
  unfold set_default_angle. case_decide as Hk.
  - subst k. destruct (d !! "angle") eqn:E; [done|]. by rewrite lookup_insert_eq.
  - destruct (d !! "angle"); [done|]. by rewrite lookup_insert_ne.
Qed.

Lemma place_properties_inv (cfg : inputs F) mat fm d d' :
  place_properties cfg mat fm d = Ok d' →
  ∃ d1, transform_origin mat d = Ok d1 ∧
        rederive_angles cfg fm (set_default_angle d1) = Ok d'.
Proof.
  unfold place_properties, mbind, result_bind.
  destruct (transform_origin mat d) as [d1|]; [|done]. by exists d1.
Qed.

(** Lines 274-289, attribute by attribute. *)
Lemma angles_rederived (cfg : inputs F) (mat flip_matrix : mat4 F)
    (d d' : gmap string (pyval F)) :
  place_properties cfg mat flip_matrix d = Ok d' →
  place_properties cfg mat flip_matrix (delete "angle" d)
  = place_properties cfg mat flip_matrix
      (<["angle" := VNum (NInt 0)]> (delete "angle" d)) ∧
  (∀ v, d !! "mangle" = Some v →
     ∃ s pitch yaw roll rest,
       v = VStr s ∧
       floats_of_strings (split_spaces s) = Ok (pitch :: yaw :: roll :: rest) ∧
       d' !! "mangle"
       = Some (VStr (join_spaces
            (str_of_float
               <$> [pitch;
                    angle_between (mathhelper cfg)
                      (transform_point flip_matrix
                         (vector_from_angle (mathhelper cfg) yaw));
                    roll]))) ∧
       d' !! "angle" = Some (default (VNum (NInt 0)) (d !! "angle"))) ∧
  (d !! "mangle" = None →
     ∃ angle,
       py_float (default (VNum (NInt 0)) (d !! "angle")) = Ok angle ∧
       d' !! "angle"
       = Some (if fge0 angle
               then VNum (NFloat
                      (angle_between (mathhelper cfg)
                         (transform_point flip_matrix
                            (vector_from_angle (mathhelper cfg) angle))))
               else default (VNum (NInt 0)) (d !! "angle"))).
Proof.
  intros (d1 & Hd1 & Hd')%place_properties_inv.
  pose proof (set_default_angle_lookup d1) as Hd2.
  assert (d1 !! "mangle" = d !! "mangle") as Hm1
    by by eapply transform_origin_lookup.
  assert (d1 !! "angle" = d !! "angle") as Ha1
    by by eapply transform_origin_lookup.
  split_and!.
  - unfold place_properties, transform_origin.
    rewrite !lookup_insert_ne, !lookup_delete_ne by done.
    assert (∀ x : gmap string (pyval F),
              set_default_angle (delete "angle" x)
              = set_default_angle (<["angle":=VNum (NInt 0)]> (delete "angle" x)))
      as Hdef.
    { intros x. unfold set_default_angle.
      by rewrite lookup_delete_eq, lookup_insert_eq. }
    destruct (d !! "origin") as [vo|]; cbn; [|by rewrite Hdef].
    destruct (place_origin mat vo) as [o|]; cbn; [|done].
    rewrite (insert_insert_ne _ "origin" "angle") by done.
    rewrite <-!(delete_insert_ne _ "angle" "origin") by done.
    by rewrite <-Hdef.
  - intros v Hv. unfold rederive_angles in Hd'.
    rewrite Hd2, decide_False, Hm1, Hv in Hd' by done.
    unfold place_mangle, mbind, result_bind, mret, result_ret in Hd'.
    destruct v as [s| |]; try done.
    destruct (floats_of_strings (split_spaces s))
      as [[|pitch [|yaw [|roll rest]]]|] eqn:Hfs; try done.
    injection Hd' as <-. exists s, pitch, yaw, roll, rest.
    split_and!; [done..|by rewrite lookup_insert_eq|].
    by rewrite lookup_insert_ne, Hd2, decide_True, Ha1.
  - intros Hv. unfold rederive_angles in Hd'.
    rewrite !Hd2, decide_False, decide_True, Hm1, Hv, Ha1 in Hd' by done.
    unfold mbind, result_bind, mret, result_ret in Hd'.
    destruct (py_float _) as [angle|]; [|done]. exists angle. split; [done|].
    destruct (fge0 angle); injection Hd' as <-.
    + by rewrite lookup_insert_eq.
    + by rewrite Hd2, decide_True, Ha1.
Qed.

Lemma copy_blank_lookup (td : gmap string (pyval F)) (l l0 : loc) k :
  k ≠ "brushes" → k ≠ "classname" →
  copy_properties td (blank_dict l l0) !! k = td !! k.
Proof.
  intros Hb Hc. rewrite lookup_copy_properties, decide_False by done.
  destruct (td !! k); [done|]. unfold blank_dict.
  rewrite !lookup_insert_ne by done. by rewrite lookup_singleton_ne.
Qed.

(** C6: when the pass completes, every entity placed for a template entity
    that is not a world entity has its bearings re-derived by lines 274-289
    from the attributes of the template.  With a [mangle] (pitch, bearing,
    roll) only the bearing is converted to a vector, taken through the
    mirror composite of the cell and converted back; pitch and roll are
    kept, and the [angle] is left as it is (0 if the template has none).
    Without [mangle], an [angle] that is at least 0 (0 if the template has
    none) is re-derived in the same way and a negative one is left untouched.
    The matrix of the bearings is the mirror composite alone; the placement
    matrix is a translation times it.  In a cell with the horizontal mirror
    only, an entity with [angle] 0 and without [mangle] ends with [angle]
    180, [mathhelper] being as the spec has it: bearing 0 along +X, a
    horizontal mirror that reverses X, and 180 the bearing of -X. *)
Theorem angle_rederivation (cfg : inputs F) h0 st' :
  prefabs_loaded cfg h0 → run cfg h0 = (Ok tt, st') →
  ∃ ws others,
    entities st' = ws :: others ∧
    Forall2 (λ e src,
      match src with
      | FromTile index t tpl =>
          let mh := mathhelper cfg in
          let flip_matrix := (tile_flip cfg t).1 in
          ∃ td d tr,
            get_dict h0 tpl = Some td ∧ get_dict (heap st') e = Some d ∧
            tile_transform cfg index t = Ok tr ∧
            tr.1.2 = flip_matrix ∧
            (∃ fx fy,
               tr.1.1 = mat_mul (translation fx fy (float_of_Z 0)) flip_matrix) ∧
            (∀ v, td !! "mangle" = Some v →
               ∃ s pitch yaw roll rest,
                 v = VStr s ∧
                 floats_of_strings (split_spaces s)
                 = Ok (pitch :: yaw :: roll :: rest) ∧
                 d !! "mangle"
                 = Some (VStr (join_spaces
                      (str_of_float
                         <$> [pitch;
                              angle_between mh
                                (transform_point flip_matrix
                                   (vector_from_angle mh yaw));
                              roll]))) ∧
                 d !! "angle" = Some (default (VNum (NInt 0)) (td !! "angle"))) ∧
            (td !! "mangle" = None →
               ∃ angle,
                 py_float (default (VNum (NInt 0)) (td !! "angle")) = Ok angle ∧
                 d !! "angle"
                 = Some (if fge0 angle
                         then VNum (NFloat
                                (angle_between mh
                                   (transform_point flip_matrix
                                      (vector_from_angle mh angle))))
                         else default (VNum (NInt 0)) (td !! "angle"))) ∧
            (hflip t = true → vflip t = false → dflip t = false →
             td !! "mangle" = None →
             py_float (default (VNum (NInt 0)) (td !! "angle"))
             = Ok (float_of_Z 0) →
             fge0 (float_of_Z 0) = true →
             spec_bearing_0 mh →
             d !! "angle" = Some (VNum (NFloat (float_of_Z 180))))
      | FromObject _ => True
      end) others (sources cfg h0).
Proof.
  intros Hload Hrun.
  destruct (run_spec cfg h0 st' Hload Hrun) as (ws & lw & HI).
  destruct HI as (_ & _ & _ & _ & _ & others & Hent & _ & Hdesc).
  exists ws, others. split; [done|].
  eapply Forall2_impl.
  { apply Forall2_Forall_r_and; [exact Hdesc|apply sources_cells]. }
  intros e [index t tpl|o] [Hd Hs]; [|done]. destruct Hs as (Hc & Htpl & Hw).
  destruct (run_cell_transform cfg h0 st' (index, t) Hrun Hc) as [tr Htr].
  { intros Hn. cbn [snd] in Hn. rewrite Hn in Htpl. by apply elem_of_nil in Htpl. }
  cbn [fst snd] in Htr.
  destruct Hd as (_ & _ & _ & d & l & l0 & td & Hgd & _ & _ & _ & _ & Htd & Hpp).
  unfold cell_transform in Hpp. rewrite Htr in Hpp.
  destruct (tile_transform_inv _ _ _ _ Htr)
    as (Hfm & _ & x & y & ox & oy & fx & fy & _ & _ & _ & _ & _ & Hmat).
  rewrite Hfm in Hpp.
  destruct (angles_rederived cfg _ _ _ _ Hpp) as (_ & Hm & Ha).
  rewrite !copy_blank_lookup in Hm, Ha by done.
  cbn zeta. exists td, d, tr. split_and!; [done..|by exists fx, fy|done|done|].
  intros Hh Hv Hdf Hnm Hz Hge (H1 & H2 & H3).
  destruct (Ha Hnm) as (angle & Hangle & ->).
  rewrite Hz in Hangle. injection Hangle as <-. rewrite Hge.
  unfold tile_flip, flip_step. rewrite Hh, Hv, Hdf. cbn [fst snd].
  by rewrite H1, H2, H3.
Qed.


Lemma Forall2_join_inv {A B} (P : A → B → Prop) (l : list A) (ks : list (list B)) :
  Forall2 P l (mjoin ks) → ∃ ls, l = mjoin ls ∧ Forall2 (Forall2 P) ls ks.
Proof.
  revert l. induction ks as [|k ks IH]; intros l.
  - intros ->%Forall2_nil_inv_r. by exists [].
  - change (mjoin (k :: ks)) with (k ++ mjoin ks).
    intros (l1 & l2 & H1 & H2 & ->)%Forall2_app_inv_r.
    destruct (IH _ H2) as (ls & -> & Hls). exists (l1 :: ls). split; [done|].
    by constructor.
Qed.

Lemma cell_world_brushes_length (cfg : inputs F) h0 index t :
  length (cell_world_brushes cfg h0 index t) = cell_world_count cfg h0 t.
Proof.
  unfold cell_world_brushes, cell_world_count.
  induction (filter _ (cell_prefab cfg t)) as [|tpl p IH]; [done|].
  rewrite fmap_cons. change (mjoin (?a :: ?b)) with (a ++ mjoin b).
  rewrite length_app, length_fmap, IH. done.
Qed.

Lemma length_join_fmap {A B} (f : A → list B) (xs : list A) :
  length (mjoin (f <$> xs)) = sum_list_with (λ x, length (f x)) xs.
Proof.
  induction xs as [|x xs IH]; [done|]. rewrite fmap_cons.
  change (mjoin (?a :: ?b)) with (a ++ mjoin b). rewrite length_app, IH. done.
Qed.

(** C4: when the pass completes, the single accumulator is the first
    entity of the output list and its brushes are, cell after cell in
    placement order, the transformed brushes of the world entities of the
    stamped prefabs: [k] brushes for a cell whose prefab's world entities
    hold [k] brushes, so the sum of the [k] in all.  The world template
    entities give no entity of the output list; every other template entity
    of every stamped cell gives one entity of its own, all distinct from
    each other and from the accumulator. *)
Theorem accumulator_merge (cfg : inputs F) h0 st' :
  prefabs_loaded cfg h0 → run cfg h0 = (Ok tt, st') →
  ∃ ws lw others,
    entities st' = ws :: others ∧ NoDup (ws :: others) ∧
    entity_brushes (heap st') ws
    = Some (mjoin ((λ c, cell_world_brushes cfg h0 c.1 c.2) <$> cells cfg)) ∧
    (∀ index t,
       length (cell_world_brushes cfg h0 index t) = cell_world_count cfg h0 t) ∧
    length (mjoin ((λ c, cell_world_brushes cfg h0 c.1 c.2) <$> cells cfg))
    = sum_list_with (λ c, cell_world_count cfg h0 c.2) (cells cfg) ∧
    Forall2 (describes cfg h0 ws lw (heap st')) others (sources cfg h0) ∧
    Forall (λ src, match src with
                   | FromTile index t tpl =>
                       is_world_template h0 tpl = false ∧
                       tpl ∈ cell_prefab cfg t
                   | FromObject _ => True
                   end) (sources cfg h0).
Proof.
  intros Hload Hrun.
  destruct (run_spec cfg h0 st' Hload Hrun) as (ws & lw & HI).
  pose proof (pass_inv_brushes _ _ _ _ _ _ _ HI) as Hb.
  destruct HI as (_ & _ & _ & _ & _ & others & Hent & Hnd & Hdesc).
  exists ws, lw, others. split_and!; try done.
  - apply NoDup_cons. split; [|done]. intros Hin.
    destruct (proj1 (list_elem_of_lookup _ _) Hin) as [i Hi].
    destruct (Forall2_lookup_l _ _ _ _ _ Hdesc Hi) as (src & _ & Hne & _).
    done.
  - rewrite Hb. f_equal. apply world_brushes_cells.
  - intros. apply cell_world_brushes_length.
  - rewrite length_join_fmap. induction (cells cfg) as [|[i t] cs IH]; [done|].
    cbn [sum_list_with fst snd]. by rewrite cell_world_brushes_length, IH.
  - apply sources_non_world.
Qed.

(** C8, as the code has it: when the pass completes, the accumulator is the
    first entity of the output list, and the others follow layer by layer
    in the source order of the layers: for a tile layer one entity for every
    non-world template entity of every stamped cell, in cell order and then
    prefab order, for an object layer one entity for every object, in
    object order.  Entities of tile layers precede entities of object
    layers only as far as their layers do. *)
Theorem output_order (cfg : inputs F) h0 st' :
  prefabs_loaded cfg h0 → run cfg h0 = (Ok tt, st') →
  ∃ ws lw chunks,
    entities st' = ws :: mjoin chunks ∧
    Forall2 (λ chunk l,
               Forall2 (describes cfg h0 ws lw (heap st')) chunk
                 (match l with
                  | Layer ts =>
                      mjoin ((λ c, FromTile c.1 c.2
                                <$> filter (λ tpl, is_world_template h0 tpl = false)
                                           (cell_prefab cfg c.2))
                             <$> enumerate_from 0 ts)
                  | ObjectGroup os => FromObject <$> os
                  | OtherLayer => []
                  end)) chunks (layers cfg).
Proof.
  intros Hload Hrun.
  destruct (run_spec cfg h0 st' Hload Hrun) as (ws & lw & HI).
  destruct HI as (_ & _ & _ & _ & _ & others & Hent & _ & Hdesc).
  apply Forall2_join_inv in Hdesc as (chunks & -> & Hchunks).
  exists ws, lw, chunks. split; [done|].
  rewrite Forall2_fmap_r in Hchunks.
  eapply Forall2_impl; [exact Hchunks|]. intros chunk l Hc. by destruct l.
Qed.


(** C5, as the code has it: a placement of a world template entity copies
    every attribute of the template other than [brushes] onto the
    accumulator, over an attribute of the same name if there is one (so the
    [wad] is taken again from every stamped world entity that has one); the
    attributes the template lacks, and the reference to the accumulator's
    own list of brushes, are unchanged, and the classname still is
    [worldspawn].  A placement of any other template entity leaves every
    attribute of the accumulator unchanged. *)
Theorem world_properties_copied (cfg : inputs F) mat fm ff ws tpl st st'
    td c tl tbs wd lw wbs :
  get_dict (heap st) tpl = Some td → td !! "classname" = Some c →
  td !! "brushes" = Some (VRef tl) → get_list (heap st) tl = Some tbs →
  get_dict (heap st) ws = Some wd → wd !! "brushes" = Some (VRef lw) →
  get_list (heap st) lw = Some wbs → tpl ≠ ws → tl ≠ lw →
  place_entity cfg mat fm ff ws tpl st = (Ok tt, st') →
  if is_worldspawn c then
    ∃ wd', get_dict (heap st') ws = Some wd' ∧
           (∀ k, wd' !! k = if decide (k = "brushes") then wd !! k
                            else match td !! k with
                                 | Some v => Some v
                                 | None => wd !! k
                                 end) ∧
           wd' !! "classname" = Some (VStr "worldspawn")
  else get_dict (heap st') ws = Some wd.
Proof.
  intros Htd Hc Htl Htbs Hwd Hlw Hwbs Hne1 Hne2 Hrun.
  destruct (is_worldspawn c) eqn:Hw.
  - erewrite place_entity_world in Hrun by eauto. injection Hrun as <-.
    exists (copy_properties td wd). cbn [heap]. split_and!.
    + assert (ws ≠ lw) by by eapply get_dict_list_ne.
      rewrite get_dict_insert_ne by done. apply get_dict_insert.
    + apply lookup_copy_properties.
    + rewrite lookup_copy_properties, decide_False, Hc by done.
      by rewrite (is_worldspawn_true _ Hw).
  - eapply place_entity_other in Hrun; eauto.
    destruct Hrun as (e & l & l0 & d' & _ & _ & Hsub & _).
    apply get_dict_Some. eapply lookup_weaken; [|done]. by apply get_dict_Some.
Qed.


Lemma object_z_last (props : list (property F)) :
  object_z props
  = match last (filter (λ p, prop_name p = "Z") props) with
    | Some p => of_scalar (prop_value p)
    | None => VNum (NInt 0)
    end.
Proof.
  unfold object_z. induction props as [|p props IH] using rev_ind; [done|].
  rewrite foldl_app, filter_app. cbn [foldl].
  destruct (String.eqb_spec (prop_name p) "Z") as [Hp|Hp].
  - rewrite filter_cons_True, filter_nil by done. by rewrite last_snoc.
  - rewrite filter_cons_False, filter_nil, app_nil_r by done. apply IH.
Qed.

Lemma object_attrs_lookup (props : list (property F)) d0 k :
  object_attrs props d0 !! k
  = if decide (k = "Z") then d0 !! k
    else match last (filter (λ p, prop_name p = k) props) with
         | Some p => Some (of_scalar (prop_value p))
         | None => d0 !! k
         end.
Proof.
  unfold object_attrs. induction props as [|p props IH] using rev_ind.
  { cbn. by case_decide. }
  rewrite foldl_app, filter_app. cbn [foldl].
  destruct (String.eqb_spec (prop_name p) "Z") as [Hp|Hp].
  - rewrite IH. case_decide as Hk; [done|].
    rewrite filter_cons_False, filter_nil, app_nil_r by congruence. done.
  - destruct (decide (prop_name p = k)) as [<-|Hpk].
    + rewrite lookup_insert_eq, decide_False by done.
      rewrite filter_cons_True, filter_nil by done. by rewrite last_snoc.
    + rewrite lookup_insert_ne, IH by done.
      rewrite filter_cons_False, filter_nil, app_nil_r by done. done.
Qed.

(** Lines 332-334, step by step. *)
Lemma object_planar_steps (cfg : inputs F) (o : object F)
    scale sx half_w ex top sy down half_h ey :
  py_truediv (tile_size_3d cfg) (NInt (tile_size_2d cfg)) = Ok scale →
  py_mul (obj_x o) scale = Ok sx →
  py_truediv (tilemap_width_3d cfg) (NInt 2) = Ok half_w →
  py_sub sx half_w = Ok ex →
  py_mul (NInt (height cfg)) (tile_size_3d cfg) = Ok top →
  py_mul (obj_y o) scale = Ok sy →
  py_sub top sy = Ok down →
  py_truediv (tilemap_height_3d cfg) (NInt 2) = Ok half_h →
  py_sub down half_h = Ok ey →
  object_planar cfg o = Ok (ex, ey).
Proof.
  intros H1 H2 H3 H4 H5 H6 H7 H8 H9. unfold object_planar.
  rewrite H1. cbn [mbind result_bind]. rewrite H2. cbn [mbind result_bind].
  rewrite H3. cbn [mbind result_bind]. rewrite H4. cbn [mbind result_bind].
  rewrite H5. cbn [mbind result_bind]. rewrite H6. cbn [mbind result_bind].
  rewrite H7. cbn [mbind result_bind]. rewrite H8. cbn [mbind result_bind].
  by rewrite H9.
Qed.

(** Lines 320-338 for one object, over any floats. *)
Lemma object_placed (cfg : inputs F) (o : object F) st xy :
  refused_property (obj_properties o) = None →
  object_planar cfg o = Ok xy →
  ∃ e l st' d,
    place_object cfg o st = (Ok tt, st') ∧
    entities st' = entities st ++ [e] ∧
    (e ∉ dom (heap st)) ∧ (l ∉ dom (heap st)) ∧
    heap st ⊆ heap st' ∧ brush_count st' = brush_count st ∧
    get_dict (heap st') e = Some d ∧ get_list (heap st') l = Some [] ∧
    (∀ k, k ≠ "classname" → k ≠ "origin" →
          d !! k = if decide (k = "Z") then None
                   else match last (filter (λ p, prop_name p = k)
                                           (obj_properties o)) with
                        | Some p => Some (of_scalar (prop_value p))
                        | None => if decide (k = "brushes")
                                  then Some (VRef l) else None
                        end) ∧
    d !! "classname" = Some (VStr (obj_name o)) ∧
    d !! "origin"
    = Some (VStr (
        py_str_num xy.1 +:+ " " +:+ py_str_num xy.2 +:+ " " +:+
        py_str (match last (filter (λ p, prop_name p = "Z") (obj_properties o)) with
                | Some p => of_scalar (prop_value p)
                | None => VNum (NInt 0)
                end))) ∧
    (Forall (λ p, prop_name p ≠ "brushes") (obj_properties o) →
     entity_brushes (heap st') e = Some []).
Proof.
  intros Hr Hxy. eexists _, (fresh (dom (heap st))), _, _.
  split; [by apply place_object_ok|]. cbn [heap entities brush_count].
  set (l := fresh (dom (heap st))). set (h1 := <[l := OList []]> (heap st)).
  set (e := fresh (dom h1)).
  assert (l ∉ dom (heap st)) as Hl by apply is_fresh.
  assert (e ≠ l ∧ e ∉ dom (heap st)) as [Hel Heh].
  { pose proof (is_fresh (dom h1)) as He. fold e in He. unfold h1 in He.
    rewrite dom_insert_L in He. set_solver. }
  assert (∀ k, k ≠ "classname" → k ≠ "origin" →
            object_dict o xy l !! k
            = if decide (k = "Z") then None
              else match last (filter (λ p, prop_name p = k)
                                      (obj_properties o)) with
                   | Some p => Some (of_scalar (prop_value p))
                   | None => if decide (k = "brushes")
                             then Some (VRef l) else None
                   end) as Hk.
  { intros k ??. unfold object_dict.
    rewrite !lookup_insert_ne, object_attrs_lookup by done.
    case_decide as HZ; [subst k; by rewrite lookup_singleton_ne|].
    destruct (last _); [done|]. case_decide as Hb.
    - subst k. by rewrite lookup_singleton_eq.
    - by rewrite lookup_singleton_ne. }
  split_and!; [done|done|done| |done|apply get_dict_insert| |exact Hk| | |].
  - etrans; [apply (insert_subseteq (heap st) l (OList []))|].
    { by apply not_elem_of_dom. }
    apply insert_subseteq. apply not_elem_of_dom, is_fresh.
  - rewrite get_list_insert_ne by done. apply get_list_insert.
  - unfold object_dict. by rewrite lookup_insert_eq.
  - unfold object_dict. rewrite lookup_insert_ne, lookup_insert_eq by done.
    unfold format_origin. by rewrite object_z_last.
  - intros Hnb. unfold entity_brushes. rewrite get_dict_insert, Hk by done.
    rewrite decide_False by done.
    assert (filter (λ p, prop_name p = "brushes") (obj_properties o) = []) as ->.
    { clear -Hnb. induction Hnb as [|p ps Hp _ IH]; [done|].
      by rewrite filter_cons_False. }
    cbn [last]. rewrite decide_True by done.
    rewrite get_list_insert_ne by done. apply get_list_insert.
Qed.


(** Lines 212-252 on a cell whose gid has no prefab: the first such cell
    is skipped with a warning, a later one with the same gid reaches the
    lookup of line 252. *)
Lemma place_tile_missing_first (cfg : inputs F) ws index t st :
  gid t ≠ 0 → no_prefab cfg (gid t) = true → gid t ∉ missing_gids st →
  place_tile cfg ws index t st
  = (Ok tt,
     State (heap st) (entities st) (missing_gids st ++ [gid t])
           (tiles_processed st) (brush_count st)
           (stdout st ++ ["WARNING: Missing tile mapping for gid: "
                          +:+ pretty (gid t)])).
Proof.
  intros Hg Hno Hin. unfold place_tile. rewrite decide_False by done.
  erewrite bind_ok by reflexivity. by rewrite Hno, bool_decide_eq_false_2.
Qed.

Lemma place_tile_missing_again (cfg : inputs F) ws index t st tr :
  gid t ≠ 0 → tiles cfg !! gid t = None → gid t ∈ missing_gids st →
  tile_transform cfg index t = Ok tr →
  place_tile cfg ws index t st
  = (Raise KeyError,
     State (heap st) (entities st) (missing_gids st)
           (tiles_processed st + 1) (brush_count st) (stdout st)).
Proof.
  intros Hg Hno Hin Htr. unfold place_tile. rewrite decide_False by done.
  erewrite bind_ok by reflexivity.
  rewrite bool_decide_eq_true_2, andb_false_r by done.
  erewrite bind_ok by reflexivity. rewrite Htr.
  erewrite bind_ok by reflexivity. by rewrite Hno.
Qed.

(** Lines 224-225: the column comes from the width, the row from the
    height. *)
Lemma tile_xy_spec (cfg : inputs F) index :
  width cfg ≠ 0 → height cfg ≠ 0 →
  tile_xy cfg index
  = Ok (index `mod` width cfg, height cfg - index `div` height cfg).
Proof.
  intros Hw Hh. unfold tile_xy, py_mod, py_floordiv.
  by rewrite !decide_False by done.
Qed.

Lemma run_seeding_raises (cfg : inputs F) h0 x st :
  create_worldspawn cfg (initial_state h0) = (Raise x, st) →
  run cfg h0 = (Raise x, st).
Proof. intros H. unfold run, create_map. by erewrite bind_raise. Qed.

(** C10, as the code has it: the accumulator takes its [wad] from the
    first entity of the prefab cached under gid 2, before any cell is
    processed.  Without a prefab for gid 2 the program stops with a
    [KeyError] before any cell is placed; so it does with an [IndexError]
    when that prefab has no entity, and with an [AttributeError] when its
    first entity has no [wad].  When the prefab has a first entity with a
    [wad], the seeding succeeds: the output list is the accumulator alone,
    with classname [worldspawn], that [wad] and no brush. *)
Theorem worldspawn_seeding (cfg : inputs F) h0 :
  (tiles cfg !! 2 = None →
     ∃ st, run cfg h0 = (Raise KeyError, st) ∧ entities st = [] ∧
           tiles_processed st = 0 ∧ brush_count st = 0) ∧
  (tiles cfg !! 2 = Some [] →
     ∃ st, run cfg h0 = (Raise IndexError, st) ∧ entities st = [] ∧
           tiles_processed st = 0 ∧ brush_count st = 0) ∧
  (∀ first rest d,
     tiles cfg !! 2 = Some (first :: rest) → get_dict h0 first = Some d →
     match d !! "wad" with
     | None =>
         ∃ st, run cfg h0 = (Raise AttributeError, st) ∧ entities st = [] ∧
               tiles_processed st = 0 ∧ brush_count st = 0
     | Some w =>
         ∃ ws st,
           create_worldspawn cfg (initial_state h0) = (Ok ws, st) ∧
           entities st = [ws] ∧
           entity_attr (heap st) ws "classname" = Some (VStr "worldspawn") ∧
           entity_attr (heap st) ws "wad" = Some w ∧
           entity_brushes (heap st) ws = Some [] ∧
           tiles_processed st = 0 ∧ brush_count st = 0
     end).
Proof.
  pose proof (create_worldspawn_cases cfg (initial_state h0)) as Hcw.
  cbn zeta in Hcw. cbn [heap initial_state] in Hcw.
  set (l0 := fresh (dom h0)) in *. set (h1 := <[l0 := OList []]> h0) in *.
  set (ws := fresh (dom h1)) in *.
  set (d1 := <["classname" := VStr "worldspawn"]> {["brushes" := VRef l0]}) in *.
  set (h2 := <[ws := OEntity d1]> h1) in *. set (lw := fresh (dom h2)) in *.
  split_and!.
  - intros H2. rewrite H2 in Hcw. eexists. split; [by apply run_seeding_raises|done].
  - intros H2. rewrite H2 in Hcw. eexists. split; [by apply run_seeding_raises|done].
  - intros first rest d H2 Hd. rewrite H2 in Hcw.
    assert (get_dict h2 first = Some d) as Hd2.
    { assert (first ∈ dom h0) as Hin.
      { apply elem_of_dom. apply get_dict_Some in Hd. by eexists. }
      assert (l0 ∉ dom h0) as Hl0 by apply is_fresh.
      assert (ws ∉ dom h1) as Hws by apply is_fresh.
      unfold h1 in Hws. rewrite dom_insert_L in Hws.
      unfold h2, h1. rewrite !get_dict_insert_ne; [done|intros ->..].
      all: set_solver. }
    rewrite Hd2 in Hcw. destruct (d !! "wad") as [w|].
    + exists ws. eexists. split; [exact Hcw|]. cbn [heap entities tiles_processed
        brush_count initial_state app].
      assert (lw ≠ ws) as Hne.
      { intros Heq. apply (is_fresh (dom h2)). fold lw. rewrite Heq.
        unfold h2. rewrite dom_insert_L. set_solver. }
      unfold entity_attr, entity_brushes. rewrite get_dict_insert.
      split_and!; [done| | | |done..].
      * unfold d1. rewrite !lookup_insert_ne by done. by rewrite lookup_insert_eq.
      * rewrite lookup_insert_ne by done. by rewrite lookup_insert_eq.
      * rewrite lookup_insert_eq. rewrite get_list_insert_ne by done.
        apply get_list_insert.
    + eexists. split; [by apply run_seeding_raises|done].
Qed.

End Claims.

(** * The claims on the two float instances *)

Lemma spec_vector_from_angle_0 : spec_vector_from_angle 0 = (1, 0, 0)%R.
Proof.
  unfold spec_vector_from_angle.
  replace (0 * PI / 180)%R with 0%R by lra. by rewrite cos_0, sin_0.
Qed.

Lemma spec_angle_between_back : spec_angle_between (-1, 0, 0)%R = 180%R.
Proof.
  unfold spec_angle_between.
  destruct (Rlt_dec 0 (-1)) as [?|_]; [lra|].
  destruct (Rlt_dec (-1) 0) as [_|?]; [|lra].
  replace (0 / -1)%R with 0%R by lra. rewrite atan_0. lra.
Qed.

(** The trigonometric [mathhelper] of the spec, over the reals, is as the
    spec has it at bearing 0. *)
Lemma spec_mathhelper_bearing_0 (vertical diagonal : mat4 R) :
  spec_bearing_0 (spec_mathhelper vertical diagonal).
Proof.
  unfold spec_bearing_0.
  cbn [spec_mathhelper vector_from_angle horizontal_flip angle_between].
  unfold f0, f1. cbn [float_of_Z R_arith]. split_and!.
  - apply spec_vector_from_angle_0.
  - unfold transform_point, mat_vec, mat_mul, identity4, spec_horizontal_flip,
      column, dot4, f0, f1. cbn [float_of_Z fadd fmul R_arith].
    repeat f_equal; lra.
  - apply spec_angle_between_back.
Qed.

(** So is the [mathhelper] of the rational floats. *)
Lemma axis_mathhelper_bearing_0 : spec_bearing_0 axis_mathhelper.
Proof. unfold spec_bearing_0. vm_compute. by split_and!. Qed.

(** The mirrored room is a run that completes, on a loaded cache. *)
Lemma mirrored_room_loaded : prefabs_loaded mirrored_room furnished_heap.
Proof. apply (bool_decide_unpack _). vm_compute. exact I. Qed.

Lemma mirrored_room_runs :
  run mirrored_room furnished_heap
  = (Ok tt, (run mirrored_room furnished_heap).2).
Proof. vm_compute. reflexivity. Qed.

Lemma mirrored_room_sources :
  sources mirrored_room furnished_heap
  = [FromTile 0 (Tile 2 true false false) 3%positive;
     FromTile 0 (Tile 2 true false false) 5%positive].
Proof. vm_compute. reflexivity. Qed.

Lemma mirrored_room_transform :
  tile_transform mirrored_room 0 (Tile 2 true false false)
  = Ok (cell_transform mirrored_room 0 (Tile 2 true false false)).
Proof. vm_compute. reflexivity. Qed.

(** In the mirrored room the door, whose template has [angle] "0", ends
    with [angle] 180; the spot, whose template has the [mangle]
    "0 180 -30", ends with the bearing 0 and gets [angle] 0. *)
Lemma angle_rederivation_witness :
  prefabs_loaded mirrored_room furnished_heap ∧
  run mirrored_room furnished_heap
  = (Ok tt, (run mirrored_room furnished_heap).2) ∧
  ∃ ws door spot,
    entities (run mirrored_room furnished_heap).2 = [ws; door; spot] ∧
    entity_attr (heap (run mirrored_room furnished_heap).2) door "angle"
    = Some (VNum (NFloat 180%Q)) ∧
    entity_attr (heap (run mirrored_room furnished_heap).2) spot "mangle"
    = Some (VStr "0.0 0.0 -30.0") ∧
    entity_attr (heap (run mirrored_room furnished_heap).2) spot "angle"
    = Some (VNum (NInt 0)).
Proof.
  split_and!; [exact mirrored_room_loaded|exact mirrored_room_runs|].
  destruct (angle_rederivation mirrored_room furnished_heap _
              mirrored_room_loaded mirrored_room_runs)
    as (ws & others & Hent & Hall).
  rewrite mirrored_room_sources in Hall.
  inversion Hall as [|door src1 others1 S1 Hdoor Hrest]; subst.
  inversion Hrest as [|spot src2 others2 S2 Hspot Hnil]; subst.
  inversion Hnil; subst. exists ws, door, spot. split; [exact Hent|].
  cbv zeta in Hdoor, Hspot.
  destruct Hdoor as (td & d & tr & Htd & Hd & _ & _ & _ & _ & _ & H180).
  destruct Hspot as (td' & d' & tr' & Htd' & Hd' & _ & _ & _ & Hm & _).
  assert (get_dict furnished_heap 3%positive
          = Some (<["classname" := VStr "func_door"]>
                    (<["angle" := VStr "0"]> {["brushes" := VRef 4%positive]})))
    as E by (vm_compute; reflexivity).
  rewrite E in Htd. injection Htd as <-.
  assert (get_dict furnished_heap 5%positive
          = Some (<["classname" := VStr "light"]>
                    (<["mangle" := VStr "0 180 -30"]>
                       {["brushes" := VRef 6%positive]})))
    as E' by (vm_compute; reflexivity).
  rewrite E' in Htd'. injection Htd' as <-.
  unfold entity_attr. rewrite Hd, Hd'. split_and!.
  - apply H180; [vm_compute; reflexivity..|exact axis_mathhelper_bearing_0].
  - destruct (Hm (VStr "0 180 -30") ltac:(vm_compute; reflexivity))
      as (s & pitch & yaw & roll & rest & Hs & Hf & Hmangle & _).
    injection Hs as <-.
    assert (floats_of_strings (split_spaces "0 180 -30")
            = Ok [0; 180; -30]%Q) as Ef by (vm_compute; reflexivity).
    rewrite Ef in Hf. injection Hf as <- <- <- <-.
    rewrite Hmangle. vm_compute. reflexivity.
  - destruct (Hm (VStr "0 180 -30") ltac:(vm_compute; reflexivity))
      as (s & pitch & yaw & roll & rest & _ & _ & _ & Hangle).
    rewrite Hangle. vm_compute. reflexivity.
Defined.

(** C7, as the code has it: for every object of an object layer whose
    properties [setattr] accepts and whose coordinates lines 332-334 can
    compute, the placer appends one new entity to the output list and
    changes nothing else; the property named [Z] is not copied -- the value
    of the last one is the vertical coordinate, 0 without one --, the last
    value of every other property name is copied as it is, the classname is
    the name of the object, and the origin is the text of the three
    coordinates [x * scale - tilemap_width_3d / 2],
    [height * tile_size_3d - y * scale - tilemap_height_3d / 2] and [z],
    with [scale = tile_size_3d / tile_size_2d] (the classname and the origin
    are set last, over a property of that name).  No brush is made or
    counted: the only list of brushes is the empty one of the constructor,
    which is the entity's [brushes] unless a property has that name.  A
    property that [setattr] refuses stops the placement with its exception.
    The two planar coordinates come from true divisions, so they are floats
    and print with a decimal point: with 2D tiles of 32, 3D tiles of 64 and
    a 4x4 grid, the object at (64, 64) with [Z] = 48 named
    [info_player_start] gets the origin ["0.0 0.0 48"] and the classname
    [info_player_start]. *)
Theorem object_placement :
  (∀ (F : Type) (arith : FloatArith F) (text : FloatText F) (cfg : inputs F)
     (o : object F) (st : state F)
     (scale sx half_w ex top sy down half_h ey : pynum F),
     refused_property (obj_properties o) = None →
     py_truediv (tile_size_3d cfg) (NInt (tile_size_2d cfg)) = Ok scale →
     py_mul (obj_x o) scale = Ok sx →
     py_truediv (tilemap_width_3d cfg) (NInt 2) = Ok half_w →
     py_sub sx half_w = Ok ex →
     py_mul (NInt (height cfg)) (tile_size_3d cfg) = Ok top →
     py_mul (obj_y o) scale = Ok sy →
     py_sub top sy = Ok down →
     py_truediv (tilemap_height_3d cfg) (NInt 2) = Ok half_h →
     py_sub down half_h = Ok ey →
     ∃ e l st' d,
       place_object cfg o st = (Ok tt, st') ∧
       entities st' = entities st ++ [e] ∧
       (e ∉ dom (heap st)) ∧ (l ∉ dom (heap st)) ∧
       heap st ⊆ heap st' ∧ brush_count st' = brush_count st ∧
       get_dict (heap st') e = Some d ∧ get_list (heap st') l = Some [] ∧
       (∀ k, k ≠ "classname" → k ≠ "origin" →
             d !! k = if decide (k = "Z") then None
                      else match last (filter (λ p, prop_name p = k)
                                              (obj_properties o)) with
                           | Some p => Some (of_scalar (prop_value p))
                           | None => if decide (k = "brushes")
                                     then Some (VRef l) else None
                           end) ∧
       d !! "classname" = Some (VStr (obj_name o)) ∧
       d !! "origin"
       = Some (VStr (
           py_str_num ex +:+ " " +:+ py_str_num ey +:+ " " +:+
           py_str (match last (filter (λ p, prop_name p = "Z")
                                      (obj_properties o)) with
                   | Some p => of_scalar (prop_value p)
                   | None => VNum (NInt 0)
                   end))) ∧
       (Forall (λ p, prop_name p ≠ "brushes") (obj_properties o) →
        entity_brushes (heap st') e = Some [])) ∧
  (∀ (F : Type) (arith : FloatArith F) (text : FloatText F) (cfg : inputs F)
     (o : object F) (st : state F) (x : exn),
     refused_property (obj_properties o) = Some x →
     (place_object cfg o st).1 = Raise x) ∧
  (let placed := place_object small_map player (initial_state ∅) in
   placed.1 = Ok tt ∧
   (λ e, entity_attr (heap placed.2) e "origin") <$> entities placed.2
   = [Some (VStr "0.0 0.0 48")] ∧
   (λ e, entity_attr (heap placed.2) e "classname") <$> entities placed.2
   = [Some (VStr "info_player_start")] ∧
   (λ e, entity_attr (heap placed.2) e "Z") <$> entities placed.2 = [None] ∧
   (λ e, entity_brushes (heap placed.2) e) <$> entities placed.2 = [Some []]).
Proof.
  split_and!.
  - intros F arith text cfg o st scale sx half_w ex top sy down half_h ey
      Hr H1 H2 H3 H4 H5 H6 H7 H8 H9.
    exact (object_placed cfg o st (ex, ey) Hr
             (object_planar_steps cfg o _ _ _ _ _ _ _ _ _
                H1 H2 H3 H4 H5 H6 H7 H8 H9)).
  - intros F arith text cfg o st x Hr.
    rewrite place_object_outcome. by rewrite Hr.
  - vm_compute. by split_and!.
Qed.

Lemma object_placement_witness :
  refused_property (obj_properties player) = None ∧
  py_truediv (tile_size_3d small_map) (NInt (tile_size_2d small_map))
  = Ok (NFloat 2%Q) ∧
  ∃ e l st' d,
    place_object small_map player (initial_state prefab_heap) = (Ok tt, st') ∧
    entities st' = [] ++ [e] ∧ (e ∉ dom prefab_heap) ∧
    get_dict (heap st') e = Some d ∧ get_list (heap st') l = Some [] ∧
    d !! "classname" = Some (VStr "info_player_start") ∧
    d !! "origin" = Some (VStr "0.0 0.0 48") ∧
    entity_brushes (heap st') e = Some [].
Proof.
  assert (refused_property (obj_properties player) = None) as Hr
    by (vm_compute; reflexivity).
  assert (py_truediv (tile_size_3d small_map) (NInt (tile_size_2d small_map))
          = Ok (NFloat 2%Q)) as H1 by (vm_compute; reflexivity).
  split; [exact Hr|]. split; [exact H1|].
  destruct (proj1 object_placement Q _ _ small_map player
              (initial_state prefab_heap)
              (NFloat 2%Q) (NFloat 128%Q) (NFloat 128%Q) (NFloat 0%Q)
              (NInt 256) (NFloat 128%Q) (NFloat 128%Q) (NFloat 128%Q)
              (NFloat 0%Q) Hr H1
              ltac:(vm_compute; reflexivity) ltac:(vm_compute; reflexivity)
              ltac:(vm_compute; reflexivity) ltac:(vm_compute; reflexivity)
              ltac:(vm_compute; reflexivity) ltac:(vm_compute; reflexivity)
              ltac:(vm_compute; reflexivity) ltac:(vm_compute; reflexivity))
    as (e & l & st' & d & Ha & Hb & Hc & _ & _ & _ & Hd & He & _ & Hf & Hg & Hh).
  exists e, l, st', d.
  split_and!; [exact Ha|exact Hb|exact Hc|exact Hd|exact He|exact Hf| |].
  - rewrite Hg. vm_compute. reflexivity.
  - apply Hh. repeat constructor. discriminate.
Defined.

(** C7, the instance as the claim has it: the origin of the placed entity
    is not ["0 0 48"]. *)
Lemma origin_prints_floats :
  (λ e, entity_attr (heap (place_object small_map player (initial_state ∅)).2)
          e "origin")
    <$> entities (place_object small_map player (initial_state ∅)).2
  ≠ [Some (VStr "0 0 48")].
Proof. vm_compute. intros [=]. Qed.

(** C1: the code departs from the claim.  On a layer of two cells with the
    same unmapped gid 7, the first cell is skipped with one warning; the
    second is counted as processed and its lookup [tiles[tile.gid]] raises
    [KeyError], which ends the pass. *)
Theorem second_missing_cell_raises :
  (run two_missing_cells prefab_heap).1 = Raise KeyError ∧
  stdout (run two_missing_cells prefab_heap).2
  = ["WARNING: Missing tile mapping for gid: 7"] ∧
  missing_gids (run two_missing_cells prefab_heap).2 = [7] ∧
  tiles_processed (run two_missing_cells prefab_heap).2 = 1 ∧
  length (entities (run two_missing_cells prefab_heap).2) = 1%nat.
Proof. vm_compute. by split_and!. Qed.

(** C2: the code departs from the claim.  On a grid of 4 columns and 2
    rows, the cell at index 6 is in column [6 mod 4 = 2] and row
    [6 div 4 = 1], the last row; the code divides by the height and takes
    [2 - 6 div 2 = -1] for its bottom-up row, which puts the cell at
    [y = -160], below the map that ends at [-64]. *)
Theorem row_from_height_on_wide_grid :
  width wide_grid = 4 ∧ height wide_grid = 2 ∧
  tile_xy wide_grid 6 = Ok (2, -1) ∧
  6 `mod` width wide_grid = 2 ∧ 6 `div` width wide_grid = 1 ∧
  height wide_grid - 6 `div` width wide_grid = 1 ∧
  tilemap_offset_y wide_grid (-1) = Ok (NFloat (-160)%Q) ∧
  tilemap_offset_y wide_grid 1 = Ok (NFloat (-32)%Q) ∧
  tilemap_offset_y wide_grid 0 = Ok (NFloat (-96)%Q).
Proof. vm_compute. by split_and!. Qed.

(** The inputs built by [tilemap] hold the dimensions that lines 150-151
    assign. *)
Lemma tilemap_dimensions (width height : Z) (layers : list (layer Q)) :
  dimensions_assigned (tilemap width height layers).
Proof. split; reflexivity. Qed.

(** The small map is a run that completes, on a loaded cache. *)
Lemma small_map_loaded : prefabs_loaded small_map prefab_heap.
Proof. apply (bool_decide_unpack _). vm_compute. exact I. Qed.

Lemma small_map_runs :
  run small_map prefab_heap = (Ok tt, (run small_map prefab_heap).2).
Proof. vm_compute. reflexivity. Qed.

(** In the mirrored room the door is placed with its one brush, the
    floor, under the horizontal mirror: the four points of the plane are
    taken through the matrix of the cell and their order is reversed. *)
Lemma plane_transform_and_winding_witness :
  prefabs_loaded mirrored_room furnished_heap ∧
  run mirrored_room furnished_heap
  = (Ok tt, (run mirrored_room furnished_heap).2) ∧
  points <$> planes floor
  = [[(0, 0, 0); (0, 64, 0); (64, 64, 0); (64, 0, 0)]%Q] ∧
  ∃ ws door spot placed,
    entities (run mirrored_room furnished_heap).2 = [ws; door; spot] ∧
    entity_brushes (heap (run mirrored_room furnished_heap).2) door
    = Some [placed] ∧
    brush_placed (cell_transform mirrored_room 0 (Tile 2 true false false)).1.1
                 true floor placed ∧
    points <$> planes placed
    = [[(-160, 96, 0); (-160, 160, 0); (-96, 160, 0); (-96, 96, 0)]%Q].
Proof.
  split_and!; [exact mirrored_room_loaded|exact mirrored_room_runs
              |vm_compute; reflexivity|].
  destruct (plane_transform_and_winding mirrored_room furnished_heap _
              mirrored_room_loaded mirrored_room_runs)
    as (ws & others & W & Hent & _ & _ & Hall).
  rewrite mirrored_room_sources in Hall.
  inversion Hall as [|door src1 others1 S1 Hdoor Hrest]; subst.
  inversion Hrest as [|spot src2 others2 S2 Hspot Hnil]; subst.
  inversion Hnil; subst.
  destruct Hdoor as (_ & tr & bs & Htr & Hbs & Hpl).
  rewrite mirrored_room_transform in Htr. injection Htr as <-.
  assert (template_brushes furnished_heap 3%positive = [floor]) as E
    by (vm_compute; reflexivity).
  rewrite E in Hpl.
  inversion Hpl as [|b placed bs1 bs2 Hplaced Hnil']; subst.
  inversion Hnil'; subst.
  exists ws, door, spot, placed.
  split_and!; [exact Hent|exact Hbs|exact Hplaced|].
  assert (∃ e1 e2 e3 q,
            entities (run mirrored_room furnished_heap).2 = [e1; e2; e3] ∧
            entity_brushes (heap (run mirrored_room furnished_heap).2) e2
            = Some [q] ∧
            points <$> planes q
            = [[(-160, 96, 0); (-160, 160, 0); (-96, 160, 0); (-96, 96, 0)]%Q])
    as (e1 & e2 & e3 & q & He & Hq & Hpts).
  { eexists _, _, _, _. vm_compute. split_and!; reflexivity. }
  rewrite Hent in He. injection He as -> -> ->.
  rewrite Hbs in Hq. injection Hq as ->. exact Hpts.
Defined.

Lemma accumulator_merge_witness :
  prefabs_loaded small_map prefab_heap ∧
  run small_map prefab_heap = (Ok tt, (run small_map prefab_heap).2) ∧
  ∃ ws others,
    entities (run small_map prefab_heap).2 = ws :: others ∧
    NoDup (ws :: others) ∧
    entity_brushes (heap (run small_map prefab_heap).2) ws
    = Some (mjoin ((λ c, cell_world_brushes small_map prefab_heap c.1 c.2)
                     <$> cells small_map)) ∧
    length (mjoin ((λ c, cell_world_brushes small_map prefab_heap c.1 c.2)
                     <$> cells small_map)) = 4%nat.
Proof.
  split_and!; [exact small_map_loaded|exact small_map_runs|].
  destruct (accumulator_merge small_map prefab_heap _
              small_map_loaded small_map_runs)
    as (ws & lw & others & H1 & H2 & H3 & _ & H4 & _).
  exists ws, others. split_and!; [exact H1|exact H2|exact H3|].
  rewrite H4. vm_compute. reflexivity.
Defined.

Lemma output_order_witness :
  prefabs_loaded small_map prefab_heap ∧
  run small_map prefab_heap = (Ok tt, (run small_map prefab_heap).2) ∧
  ∃ ws chunks,
    entities (run small_map prefab_heap).2 = ws :: mjoin chunks ∧
    length chunks = length (layers small_map).
Proof.
  split_and!; [exact small_map_loaded|exact small_map_runs|].
  destruct (output_order small_map prefab_heap _
              small_map_loaded small_map_runs)
    as (ws & lw & chunks & H1 & H2).
  exists ws, chunks. split; [exact H1|]. exact (Forall2_length _ _ _ H2).
Defined.

(** C8, as the claim has it: with the object layer before the tile layer,
    the entity of the object precedes the entity placed by the tile
    layer. *)
Lemma object_entity_before_tile_entity :
  (run objects_first prefab_heap).1 = Ok tt ∧
  (λ e, entity_attr (heap (run objects_first prefab_heap).2) e "classname")
    <$> entities (run objects_first prefab_heap).2
  = [Some (VStr "worldspawn"); Some (VStr "info_player_start");
     Some (VStr "light")] ∧
  layers objects_first
  = [ObjectGroup [player]; Layer [Tile 2 false false false]].
Proof. vm_compute. by split_and!. Qed.

(** C5, as the claim has it: stamping prefab 3, whose world entity has its
    own [wad] and a [message], changes the [wad] of the accumulator and
    gives it the [message]. *)
Lemma wad_overwritten_by_placement :
  match create_worldspawn second_world (initial_state prefab_heap) with
  | (Ok ws, st) =>
      let placed := place_tile second_world ws 0 (Tile 3 false false false) st in
      placed.1 = Ok tt ∧
      entity_attr (heap st) ws "wad" = Some (VStr "base.wad") ∧
      entity_attr (heap placed.2) ws "wad" = Some (VStr "other.wad") ∧
      entity_attr (heap st) ws "message" = None ∧
      entity_attr (heap placed.2) ws "message" = Some (VStr "hi")
  | (Raise _, _) => False
  end.
Proof. vm_compute. by split_and!. Qed.

Lemma world_properties_copied_witness :
  let st := (create_worldspawn second_world (initial_state prefab_heap)).2 in
  let st' := (place_entity second_world identity4 identity4 false
                8%positive 5%positive st).2 in
  place_entity second_world identity4 identity4 false 8%positive 5%positive st
  = (Ok tt, st') ∧
  ∃ wd', get_dict (heap st') 8%positive = Some wd' ∧
         wd' !! "wad" = Some (VStr "other.wad") ∧
         wd' !! "classname" = Some (VStr "worldspawn").
Proof.
  intros st st'.
  assert (place_entity second_world identity4 identity4 false
            8%positive 5%positive st = (Ok tt, st')) as Hrun
    by (vm_compute; reflexivity).
  split; [exact Hrun|].
  pose proof (world_properties_copied second_world identity4 identity4 false
                8%positive 5%positive st st'
                (default ∅ (get_dict prefab_heap 5%positive))
                (VStr "worldspawn") 6%positive [floor; wall]
                (default ∅ (get_dict (heap st) 8%positive)) 9%positive []) as H.
  destruct H as (wd' & H1 & H2 & H3);
    [vm_compute; reflexivity..|done|done|exact Hrun|].
  exists wd'. split_and!; [done| |done].
  rewrite H2. vm_compute. reflexivity.
Defined.

(** C10, as the claim has it: the prefab of gid 2 is loaded, its first
    entity has no [wad], and the seeding raises. *)
Lemma seeding_raises_without_wad :
  prefabs_loaded no_wad no_wad_heap ∧
  tiles no_wad !! 2 = Some [1%positive] ∧
  (run no_wad no_wad_heap).1 = Raise AttributeError ∧
  entities (run no_wad no_wad_heap).2 = [].
Proof.
  split; [apply (bool_decide_unpack _); vm_compute; exact I|].
  vm_compute. by split_and!.
Qed.

Lemma worldspawn_seeding_witness :
  tiles small_map !! 2 = Some [1%positive; 3%positive] ∧
  (∃ d, get_dict prefab_heap 1%positive = Some d ∧
        d !! "wad" = Some (VStr "base.wad")) ∧
  ∃ ws st,
    create_worldspawn small_map (initial_state prefab_heap) = (Ok ws, st) ∧
    entities st = [ws] ∧
    entity_attr (heap st) ws "wad" = Some (VStr "base.wad") ∧
    entity_brushes (heap st) ws = Some [].
Proof.
  assert (tiles small_map !! 2 = Some [1%positive; 3%positive]) as H1
    by (vm_compute; reflexivity).
  assert (get_dict prefab_heap 1%positive
          = Some (default ∅ (get_dict prefab_heap 1%positive))) as H2
    by (vm_compute; reflexivity).
  assert (default ∅ (get_dict prefab_heap 1%positive) !! "wad"
          = Some (VStr "base.wad")) as H3 by (vm_compute; reflexivity).
  split_and!; [exact H1|by eexists|].
  pose proof (proj2 (proj2 (worldspawn_seeding small_map prefab_heap))
                _ _ _ H1 H2) as H.
  rewrite H3 in H. destruct H as (ws & st & Ha & Hb & _ & Hc & Hd & _).
  exists ws, st. split_and!; [exact Ha|exact Hb|exact Hc|exact Hd].
Defined.

(** * Further properties of the script *)

Section Observations.
Context {F : Type} `{!FloatArith F, !FloatText F}.
Implicit Types (st : state F) (h : gmap loc (obj F)) (d : gmap string (pyval F)).

(** ** What a part of the pass leaves as it was *)

Section Unchanged.
Context {B : Type} (obs : state F → B).
Hypothesis obs_heap : ∀ h st, obs (set_heap h st) = obs st.
Hypothesis obs_entities : ∀ e st, obs (append_entity e st).2 = obs st.

Lemma unchanged_ret {A} (a : A) : unchanged obs (mret a : M F A).
Proof. done. Qed.

Lemma unchanged_raise {A} x : unchanged obs (raise x : M F A).
Proof. done. Qed.

Lemma unchanged_lift {A} (r : result A) : unchanged obs (lift r : M F A).
Proof. done. Qed.

Lemma unchanged_bind {A C} (m : M F A) (f : A → M F C) :
  unchanged obs m → (∀ a, unchanged obs (f a)) → unchanged obs (m ≫= f).
Proof.
  intros Hm Hf st. unfold mbind, M_bind. specialize (Hm st).
  destruct (m st) as [[a|x] st1]; cbn in *; [|done].
  by rewrite Hf.
Qed.

Lemma unchanged_for_each {A} (xs : list A) (body : A → M F unit) :
  (∀ x, unchanged obs (body x)) → unchanged obs (for_each xs body).
Proof.
  intros Hb. induction xs as [|x xs IH]; [done|].
  cbn [for_each]. apply unchanged_bind; [apply Hb|by intros].
Qed.

Lemma unchanged_alloc (o : obj F) : unchanged obs (alloc o).
Proof. intros st. apply obs_heap. Qed.

Lemma unchanged_read_dict e : unchanged obs (read_dict e).
Proof. intros st. unfold read_dict. by repeat case_match. Qed.

Lemma unchanged_write_dict e d : unchanged obs (write_dict e d).
Proof. intros st. apply obs_heap. Qed.

Lemma unchanged_read_list (v : pyval F) : unchanged obs (read_list v).
Proof. intros st. unfold read_list. by repeat case_match. Qed.

Lemma unchanged_list_append (v : pyval F) b : unchanged obs (list_append v b).
Proof.
  unfold list_append. apply unchanged_bind; [apply unchanged_read_list|].
  intros bs. destruct v; try apply unchanged_raise. intros st. apply obs_heap.
Qed.

Lemma unchanged_new_list : unchanged obs new_list.
Proof.
  unfold new_list. apply unchanged_bind; [apply unchanged_alloc|].
  intros. apply unchanged_ret.
Qed.

Lemma unchanged_new_Entity : unchanged obs new_Entity.
Proof.
  unfold new_Entity. apply unchanged_bind; [apply unchanged_new_list|].
  intros. apply unchanged_alloc.
Qed.

Lemma unchanged_getattr e k : unchanged obs (getattr e k).
Proof.
  unfold getattr. apply unchanged_bind; [apply unchanged_read_dict|].
  intros d. destruct (d !! k); [apply unchanged_ret|apply unchanged_raise].
Qed.

Lemma unchanged_setattr e k v : unchanged obs (setattr e k v).
Proof.
  unfold setattr. apply unchanged_bind; [apply unchanged_read_dict|].
  intros. destruct (setattr_refuses k);
    [apply unchanged_raise|apply unchanged_write_dict].
Qed.

Lemma unchanged_append_entity e : unchanged obs (append_entity e).
Proof. intros st. apply obs_entities. Qed.

Ltac unchanged_steps :=
  repeat first
    [ apply unchanged_new_Entity | apply unchanged_new_list
    | apply unchanged_setattr | apply unchanged_getattr
    | apply unchanged_read_dict | apply unchanged_write_dict
    | apply unchanged_read_list | apply unchanged_list_append
    | apply unchanged_lift | apply unchanged_append_entity
    | apply unchanged_ret | apply unchanged_raise
    | apply unchanged_for_each; intros
    | apply unchanged_bind; [|intros]
    | case_match ].

Lemma unchanged_create_worldspawn cfg : unchanged obs (create_worldspawn cfg).
Proof. unfold create_worldspawn. unchanged_steps. Qed.

Lemma unchanged_copy_object_properties e z (props : list (property F)) :
  unchanged obs (copy_object_properties e z props).
Proof.
  revert z. induction props as [|p props IH]; intros z; [apply unchanged_ret|].
  cbn [copy_object_properties]. case_match; [apply IH|].
  apply unchanged_bind; [apply unchanged_setattr|intros; apply IH].
Qed.

Lemma unchanged_place_object cfg (o : object F) :
  unchanged obs (place_object cfg o).
Proof.
  unfold place_object.
  apply unchanged_bind; [apply unchanged_new_Entity|intros].
  apply unchanged_bind; [apply unchanged_copy_object_properties|intros].
  unchanged_steps.
Qed.

Hypothesis obs_brush_count : ∀ st, obs (incr_brush_count st).2 = obs st.

Lemma unchanged_place_entity cfg mat fm ff ws entity :
  unchanged obs (place_entity cfg mat fm ff ws entity).
Proof.
  unfold place_entity.
  repeat first [ exact obs_brush_count | progress unchanged_steps ].
Qed.

End Unchanged.

Lemma unchanged_ok {A B} (obs : state F → B) (m : M F A) st r st' :
  unchanged obs m → m st = (r, st') → obs st' = obs st.
Proof. intros Hm Hrun. specialize (Hm st). by rewrite Hrun in Hm. Qed.

Lemma unchanged_log_place_entity cfg mat fm ff ws entity :
  unchanged progress_log (place_entity cfg mat fm ff ws entity).
Proof. by apply unchanged_place_entity. Qed.

(** ** Loops that complete *)

Lemma for_each_acc {A} (J : list A → state F → Prop) (xs : list A)
    (body : A → M F unit) :
  (∀ x vs st st', x ∈ xs → J vs st → body x st = (Ok tt, st') →
                  J (vs ++ [x]) st') →
  ∀ vs st st', J vs st → for_each xs body st = (Ok tt, st') → J (vs ++ xs) st'.
Proof.
  induction xs as [|x xs IH]; intros Hbody vs st st' HJ Hrun.
  - injection Hrun as <-. by rewrite app_nil_r.
  - cbn [for_each] in Hrun. unfold mbind, M_bind in Hrun.
    destruct (body x st) as [[[]|?] st1] eqn:Hx; [|done].
    rewrite (cons_middle x), (assoc_L (++)).
    eapply IH; [|by eapply Hbody; [left|..]|done].
    intros. eapply Hbody; [by right|done..].
Qed.

Lemma for_each_progress {A} (I : state F → Prop) (xs : list A)
    (body : A → M F unit) :
  (∀ x st, x ∈ xs → I st → ∃ st', body x st = (Ok tt, st') ∧ I st') →
  ∀ st, I st → ∃ st', for_each xs body st = (Ok tt, st') ∧ I st'.
Proof.
  induction xs as [|x xs IH]; intros Hbody st HI.
  - by exists st.
  - destruct (Hbody x st) as (st1 & Hx & HI1); [by left|done|].
    destruct (IH (λ y s Hy, Hbody y s (list_elem_of_further _ _ _ Hy)) st1 HI1)
      as (st2 & Hxs & HI2).
    exists st2. split; [|done]. cbn [for_each]. by erewrite bind_ok.
Qed.

(** ** One cell *)

Lemma cells_layer (cfg : inputs F) l c :
  l ∈ layers cfg → c ∈ layer_cells l → c ∈ cells cfg.
Proof.
  intros Hl Hc. unfold cells. apply list_elem_of_join.
  exists (layer_cells l). split; [done|].
  apply list_elem_of_fmap. by exists l.
Qed.

(** Lines 212-253 on one cell: it is skipped, or warned about, or
    stamped. *)
Lemma place_tile_cases (cfg : inputs F) ws index t st :
  place_tile cfg ws index t st =
    if decide (gid t = 0) then (Ok tt, st)
    else if no_prefab cfg (gid t) && negb (bool_decide (gid t ∈ missing_gids st))
    then (Ok tt, State (heap st) (entities st) (missing_gids st ++ [gid t])
                       (tiles_processed st) (brush_count st)
                       (stdout st ++ [missing_warning (gid t)]))
    else (tr ← lift (tile_transform cfg index t);
          prefab ← match tiles cfg !! gid t with
                   | Some p => mret p
                   | None => raise KeyError
                   end;
          for_each prefab (place_entity cfg tr.1.1 tr.1.2 tr.2 ws))
           (State (heap st) (entities st) (missing_gids st)
                  (tiles_processed st + 1) (brush_count st) (stdout st)).
Proof.
  unfold place_tile. case_decide; [done|].
  unfold mbind at 1, M_bind at 1. cbn [get_missing_gids].
  by destruct (no_prefab cfg (gid t) && _).
Qed.

Lemma stamp_eq (cfg : inputs F) ws index t tr prefab st :
  tile_transform cfg index t = Ok tr → tiles cfg !! gid t = Some prefab →
  (tr ← lift (tile_transform cfg index t);
   prefab ← match tiles cfg !! gid t with
            | Some p => mret p
            | None => raise KeyError
            end;
   for_each prefab (place_entity cfg tr.1.1 tr.1.2 tr.2 ws)) st
  = for_each prefab (place_entity cfg tr.1.1 tr.1.2 tr.2 ws) st.
Proof. intros Htr Hp. unfold mbind at 1, M_bind at 1, lift. by rewrite Htr, Hp. Qed.

Lemma unchanged_log_stamp (cfg : inputs F) ws index t :
  unchanged progress_log
    (tr ← lift (tile_transform cfg index t);
     prefab ← match tiles cfg !! gid t with
              | Some p => mret p
              | None => raise KeyError
              end;
     for_each prefab (place_entity cfg tr.1.1 tr.1.2 tr.2 ws)).
Proof.
  apply unchanged_bind; [by apply unchanged_lift|intros tr].
  apply unchanged_bind.
  - destruct (tiles cfg !! gid t); [by apply unchanged_ret|by apply unchanged_raise].
  - intros p. apply unchanged_for_each. intros. apply unchanged_log_place_entity.
Qed.

Lemma tile_transform_xy (cfg : inputs F) i j t :
  tile_xy cfg i = tile_xy cfg j → tile_transform cfg i t = tile_transform cfg j t.
Proof. unfold tile_transform. by intros ->. Qed.

(** ** The warnings *)

Lemma warnings_inv_log cfg st st' :
  progress_log st' = progress_log st → warnings_inv cfg st → warnings_inv cfg st'.
Proof. unfold progress_log, warnings_inv. intros [= -> _ ->]. done. Qed.

Lemma warnings_place_tile (cfg : inputs F) ws index t :
  (index, t) ∈ cells cfg →
  hoare (warnings_inv cfg) (place_tile cfg ws index t)
        (λ _, warnings_inv cfg) (warnings_inv cfg).
Proof.
  intros Hin st HK. rewrite place_tile_cases.
  case_decide as Hg; [done|].
  destruct (no_prefab cfg (gid t) && _) eqn:Hno.
  - apply andb_prop in Hno as [Hno Hnew].
    apply negb_true_iff, bool_decide_eq_false in Hnew.
    destruct HK as (Hnd & Hout & Hall). split_and!; cbn.
    + apply NoDup_app. split_and!; [done| |apply NoDup_singleton].
      intros g Hg1 ->%list_elem_of_singleton. done.
    + by rewrite fmap_app, Hout.
    + apply Forall_app. split; [done|]. apply Forall_singleton.
      split_and!; [done..|]. by exists (index, t).
  - match goal with |- context [?m (State ?a ?b ?c ?d ?e ?f)] =>
      pose proof (unchanged_log_stamp cfg ws index t (State a b c d e f)) as Hu
    end.
    match type of Hu with progress_log (?r).2 = _ =>
      destruct r as [[[]|x] st1]
    end; cbn in Hu; by eapply warnings_inv_log.
Qed.

Lemma warnings_place_layer (cfg : inputs F) ws l :
  l ∈ layers cfg →
  hoare (warnings_inv cfg) (place_layer cfg ws l)
        (λ _, warnings_inv cfg) (warnings_inv cfg).
Proof.
  intros Hl. destruct l as [ts|os|]; cbn [place_layer].
  - rewrite for_enumerate_for_each. apply hoare_for_each.
    intros [i t] Hc. apply warnings_place_tile. by eapply cells_layer.
  - apply hoare_for_each. intros o _ st HK.
    pose proof (unchanged_place_object progress_log (λ _ _, eq_refl)
                  (λ _ _, eq_refl) cfg o st) as Hu.
    destruct (place_object cfg o st) as [[[]|x] st1]; cbn in Hu;
      by eapply warnings_inv_log.
  - by apply hoare_ret.
Qed.

Lemma warnings_run (cfg : inputs F) h0 : warnings_inv cfg (run cfg h0).2.
Proof.
  assert (hoare (warnings_inv cfg) (create_map cfg)
                (λ _, warnings_inv cfg) (warnings_inv cfg)) as H.
  { unfold create_map. eapply hoare_bind.
    - intros st HK.
      pose proof (unchanged_create_worldspawn progress_log (λ _ _, eq_refl)
                    (λ _ _, eq_refl) cfg st) as Hu.
      destruct (create_worldspawn cfg st) as [[ws|x] st1]; cbn in Hu;
        eapply warnings_inv_log; [exact Hu|exact HK|exact Hu|exact HK].
    - intros ws. apply hoare_for_each. intros l Hl.
      by apply warnings_place_layer. }
  specialize (H (initial_state h0)). unfold run.
  destruct (create_map cfg (initial_state h0)) as [[[]|x] st]; apply H;
    (split_and!; [constructor|done|constructor]).
Qed.

(** X1: whatever the outcome of the pass, the warnings it has printed and
    its list of missing gids go together: no gid is on the list twice, the
    output is exactly one warning line for every gid of the list, in the
    order of the list, and every gid of the list is the non-zero gid of a
    cell of some tile layer for which the cache has no prefab, or a prefab
    without entities. *)
Theorem warnings_once_per_gid (cfg : inputs F) h0 :
  NoDup (missing_gids (run cfg h0).2) ∧
  stdout (run cfg h0).2 = missing_warning <$> missing_gids (run cfg h0).2 ∧
  Forall (λ g, g ≠ 0 ∧ no_prefab cfg g = true ∧
               ∃ c, c ∈ cells cfg ∧ gid c.2 = g)
         (missing_gids (run cfg h0).2).
Proof. apply warnings_run. Qed.

(** ** The number of tiles processed *)

Lemma place_tile_counted (cfg : inputs F) ws index t st st' :
  place_tile cfg ws index t st = (Ok tt, st') →
  tiles_processed st' + Z.of_nat (length (missing_gids st'))
  = tiles_processed st + Z.of_nat (length (missing_gids st))
    + (if occupied (index, t) then 1 else 0) ∧
  (∀ g, g ∈ missing_gids st → g ∈ missing_gids st') ∧
  (gid t ≠ 0 → no_prefab cfg (gid t) = true → gid t ∈ missing_gids st').
Proof.
  rewrite place_tile_cases. unfold occupied. cbn [snd].
  case_decide as Hg.
  { intros [= <-]. rewrite Hg. cbn. split_and!; [lia|done..]. }
  apply Z.eqb_neq in Hg as Hg'. rewrite Hg'. cbn [negb].
  destruct (no_prefab cfg (gid t) && _) eqn:Hno.
  - intros [= <-]. cbn. rewrite length_app. cbn. split_and!; [lia|..].
    + intros g ?. apply elem_of_app. by left.
    + intros _ _. apply elem_of_app. right. by apply list_elem_of_singleton.
  - intros Hrun.
    pose proof (unchanged_ok progress_log _ _ _ _
                  (unchanged_log_stamp cfg ws index t) Hrun) as Hu.
    unfold progress_log in Hu. cbn in Hu. injection Hu as Hm Htp _.
    rewrite Hm, Htp. split_and!; [lia|done|].
    intros _ Hnp. rewrite Hnp in Hno. cbn in Hno.
    by apply negb_false_iff, bool_decide_eq_true in Hno.
Qed.

(** X2: when the pass completes, every cell with a tile (a gid other than
    0) has either been counted in [tiles_processed] or has put its gid on
    the list of missing gids: the count plus the length of that list is the
    number of such cells in all tile layers.  The gid of every cell with a
    tile for which the cache has no prefab, or an empty one, is on the
    list. *)
Theorem tiles_processed_accounting (cfg : inputs F) h0 st' :
  run cfg h0 = (Ok tt, st') →
  tiles_processed st' + Z.of_nat (length (missing_gids st'))
  = Z.of_nat (length (filter (λ c, occupied c = true) (cells cfg))) ∧
  ∀ c, c ∈ cells cfg → gid c.2 ≠ 0 → no_prefab cfg (gid c.2) = true →
       gid c.2 ∈ missing_gids st'.
Proof.
  set (J := λ (vs : list (Z * tile)) (st : state F),
    tiles_processed st + Z.of_nat (length (missing_gids st))
    = Z.of_nat (length (filter (λ c, occupied c = true) vs)) ∧
    ∀ c, c ∈ vs → gid c.2 ≠ 0 → no_prefab cfg (gid c.2) = true →
         gid c.2 ∈ missing_gids st).
  assert (∀ ws l vs st st1, J vs st → place_layer cfg ws l st = (Ok tt, st1) →
            J (vs ++ layer_cells l) st1) as Hlayer.
  { intros ws l vs st st1 HJ. destruct l as [ts|os|]; cbn [place_layer layer_cells].
    - rewrite for_enumerate_for_each.
      apply (for_each_acc J); [|done].
      intros [i t] vs' s1 s2 _ [Hc Hm] Hrun. cbn [fst snd] in Hrun.
      apply place_tile_counted in Hrun as (Hc' & Hmono & Hnew).
      split.
      + rewrite Hc', Hc, filter_app, length_app, filter_cons, filter_nil.
        destruct (occupied (i, t)); rewrite ?decide_True, ?decide_False by done;
          cbn; lia.
      + intros c [Hin| ->%list_elem_of_singleton]%elem_of_app ??; auto.
    - intros Hrun. rewrite app_nil_r.
      assert (progress_log st1 = progress_log st) as Hu.
      { eapply unchanged_ok; [|exact Hrun]. apply unchanged_for_each.
        intros. by apply unchanged_place_object. }
      unfold progress_log in Hu. injection Hu as Hm Htp _. unfold J.
      by rewrite Hm, Htp.
    - intros [= <-]. by rewrite app_nil_r. }
  unfold run, create_map. unfold mbind, M_bind.
  destruct (create_worldspawn cfg (initial_state h0)) as [[ws|?] st] eqn:Hws;
    [|done].
  assert (progress_log st = progress_log (initial_state h0)) as Hu.
  { eapply unchanged_ok; [|exact Hws]. by apply unchanged_create_worldspawn. }
  intros Hrun.
  assert (J [] st) as HJ.
  { unfold progress_log in Hu. cbn in Hu. injection Hu as Hm Htp _. unfold J.
    rewrite Hm, Htp. split; [done|]. intros c Hc. by apply elem_of_nil in Hc. }
  pose proof (for_each_acc (λ ls st, J (mjoin (layer_cells <$> ls)) st)
                (layers cfg) (place_layer cfg ws)) as Hacc.
  apply (Hacc) with (vs := []) in Hrun; [exact Hrun| |exact HJ].
  intros l ls s1 s2 _ HJ1 Hl. rewrite fmap_app, join_app. cbn.
  rewrite app_nil_r. by eapply Hlayer.
Qed.

(** X3: a gid whose prefab was loaded but has no entity is treated as a
    missing mapping at its first cell (a warning, the gid noted, the cell
    not counted); at every later cell it is counted as processed and
    nothing is added to the output, and the cell raises an exception only
    if the computation of its transform does. *)
Theorem empty_prefab_counted (cfg : inputs F) ws index t st :
  gid t ≠ 0 → tiles cfg !! gid t = Some [] →
  place_tile cfg ws index t st
  = if bool_decide (gid t ∈ missing_gids st)
    then (match tile_transform cfg index t with
          | Ok _ => Ok tt
          | Raise x => Raise x
          end,
          State (heap st) (entities st) (missing_gids st)
                (tiles_processed st + 1) (brush_count st) (stdout st))
    else (Ok tt,
          State (heap st) (entities st) (missing_gids st ++ [gid t])
                (tiles_processed st) (brush_count st)
                (stdout st ++ [missing_warning (gid t)])).
Proof.
  intros Hg Hp. rewrite place_tile_cases, decide_False by done.
  unfold no_prefab. rewrite Hp. cbn [andb].
  destruct (bool_decide (gid t ∈ missing_gids st)); cbn [negb]; [|done].
  unfold mbind at 1, M_bind at 1, lift.
  by destruct (tile_transform cfg index t) as [tr|x].
Qed.

(** X4: the place of a cell comes from [x = index % width] and
    [y = height - index // height].  On a grid that is at most as high as
    it is wide, no two cells of a layer get the same [x] and [y].  On a
    grid that is higher than wide, the cells 0 and [width] (the first
    cells of the first two rows) get the same [x] and [y], and so the same
    transform whatever the tile. *)
Theorem cell_positions (cfg : inputs F) :
  (0 < height cfg ≤ width cfg →
   ∀ i j, 0 ≤ i < width cfg * height cfg → 0 ≤ j < width cfg * height cfg →
          tile_xy cfg i = tile_xy cfg j → i = j) ∧
  (0 < width cfg < height cfg →
   tile_xy cfg 0 = tile_xy cfg (width cfg) ∧
   ∀ t, tile_transform cfg 0 t = tile_transform cfg (width cfg) t).
Proof.
  split.
  - intros [Hh Hwh] i j Hi Hj. rewrite !tile_xy_spec by lia.
    intros [= Hm Hd].
    assert (i `div` height cfg = j `div` height cfg) as Hd' by lia.
    pose proof (Z.div_mod i (height cfg)) as Ei.
    pose proof (Z.div_mod j (height cfg)) as Ej.
    pose proof (Z.mod_pos_bound i (height cfg) Hh) as Bi.
    pose proof (Z.mod_pos_bound j (height cfg) Hh) as Bj.
    assert (-(width cfg) < i - j < width cfg) as Hb
      by (rewrite Ei, Ej, Hd' by lia; lia).
    pose proof (Z.div_mod i (width cfg)) as Wi.
    pose proof (Z.div_mod j (width cfg)) as Wj.
    assert (i - j = width cfg * (i `div` width cfg - j `div` width cfg)) as Hk
      by (rewrite Wi, Wj at 1 by lia; lia).
    assert (i `div` width cfg - j `div` width cfg = 0) as Hz by nia.
    rewrite Hz in Hk. lia.
  - intros [Hw Hwh].
    assert (tile_xy cfg 0 = tile_xy cfg (width cfg)) as Hxy.
    { rewrite !tile_xy_spec by lia.
      rewrite Z.mod_0_l, Z_mod_same_full, Z.div_0_l by lia.
      by rewrite (Z.div_small (width cfg) (height cfg)) by lia. }
    split; [done|]. intros t. by apply tile_transform_xy.
Qed.

(** ** Lines 268-289, outcome by outcome *)

Lemma place_origin_ok (mat : mat4 F) v :
  origin_ok v = true → ∃ o, place_origin mat v = Ok o.
Proof.
  unfold origin_ok, place_origin. destruct v as [s| |]; try done.
  destruct (floats_of_strings (split_spaces s)) as [[|x [|y [|z [|]]]]|]; try done.
  intros _. unfold mbind, result_bind.
  destruct (transform_point mat (x, y, z)) as [[x' y'] z']. by eexists.
Qed.

Lemma place_mangle_ok cfg (fm : mat4 F) v :
  mangle_ok v = true → ∃ o, place_mangle cfg fm v = Ok o.
Proof.
  unfold mangle_ok, place_mangle. destruct v as [s| |]; try done.
  destruct (floats_of_strings (split_spaces s)) as [[|x [|y [|z ?]]]|]; try done.
  intros _. cbn. by eexists.
Qed.

Lemma place_properties_ok cfg (mat fm : mat4 F) d :
  well_formed d = true → ∃ d', place_properties cfg mat fm d = Ok d'.
Proof.
  unfold well_formed. intros [Ho Ha]%andb_prop.
  unfold place_properties, transform_origin.
  assert (∃ d1, (match d !! "origin" with
                 | Some v => o ← place_origin mat v; mret (<["origin" := o]> d)
                 | None => mret d
                 end) = Ok d1 ∧ d1 !! "mangle" = d !! "mangle" ∧
                d1 !! "angle" = d !! "angle") as (d1 & -> & Hm & Han).
  { destruct (d !! "origin") as [v|]; [|by exists d].
    destruct (place_origin_ok mat v Ho) as [o ->]. cbn.
    eexists. split; [done|]. by rewrite !lookup_insert_ne. }
  cbn. unfold rederive_angles, set_default_angle.
  destruct (d !! "mangle") as [v|] eqn:Hdm.
  - assert (∀ d2 : gmap string (pyval F), d2 !! "mangle" = Some v →
              ∃ d', (match d2 !! "mangle" with
                     | Some v => m ← place_mangle cfg fm v;
                                 mret (<["mangle" := m]> d2)
                     | None =>
                         match d2 !! "angle" with
                         | None => Raise AttributeError
                         | Some a =>
                             angle ← py_float a;
                             if fge0 angle
                             then mret (<["angle" :=
                                    VNum (NFloat (mirror_bearing cfg fm angle))]> d2)
                             else mret d2
                         end
                     end) = Ok d') as H.
    { intros d2 ->. destruct (place_mangle_ok cfg fm v Ha) as [o ->]. by eexists. }
    apply H. destruct (d1 !! "angle"); [done|]. by rewrite lookup_insert_ne.
  - rewrite <-Han in Ha. unfold angle_ok in Ha.
    destruct (d1 !! "angle") as [a|] eqn:Hd1a; cbn [default from_option] in Ha;
      unfold Datatypes.id in Ha.
    + rewrite Hm, Hd1a.
      destruct (py_float a) as [x|]; [|done]. cbn.
      destruct (fge0 x); by eexists.
    + rewrite lookup_insert_ne, Hm, lookup_insert_eq by done.
      destruct (py_float (VNum (NInt 0))) as [x|]; [|done]. cbn.
      destruct (fge0 x); by eexists.
Qed.

Lemma well_formed_copy (td : gmap string (pyval F)) (l l0 : loc) :
  well_formed (copy_properties td (blank_dict l l0)) = well_formed td.
Proof.
  unfold well_formed. rewrite !lookup_copy_properties.
  rewrite !decide_False by done. unfold blank_dict.
  rewrite !lookup_insert_ne by done. rewrite !lookup_singleton_ne by done.
  by destruct (td !! "origin"), (td !! "mangle"), (td !! "angle").
Qed.

Lemma rederive_angles_lookup (cfg : inputs F) fm d d' k :
  rederive_angles cfg fm d = Ok d' → k ≠ "angle" → k ≠ "mangle" →
  d' !! k = d !! k.
Proof.
  unfold rederive_angles, mbind, result_bind, mret, result_ret.
  intros H Ha Hm. repeat case_match; simplify_eq;
    rewrite ?lookup_insert_ne by done; done.
Qed.

Lemma rederive_angles_keys (cfg : inputs F) fm d d' k :
  rederive_angles cfg fm d = Ok d' → is_Some (d' !! k) ↔ is_Some (d !! k).
Proof.
  unfold rederive_angles, mbind, result_bind, mret, result_ret.
  intros H. repeat case_match; simplify_eq; try done.
  - destruct (decide (k = "mangle")) as [->|].
    + rewrite lookup_insert_eq. split; by eauto.
    + by rewrite lookup_insert_ne.
  - destruct (decide (k = "angle")) as [->|].
    + rewrite lookup_insert_eq. split; by eauto.
    + by rewrite lookup_insert_ne.
Qed.

Lemma place_origin_inv (mat : mat4 F) v o :
  place_origin mat v = Ok o →
  ∃ s x y z, v = VStr s ∧ floats_of_strings (split_spaces s) = Ok [x; y; z] ∧
    o = VStr (join_spaces (str_of_float
              <$> [(transform_point mat (x, y, z)).1.1;
                   (transform_point mat (x, y, z)).1.2;
                   (transform_point mat (x, y, z)).2])).
Proof.
  unfold place_origin, mbind, result_bind. destruct v as [s| |]; try done.
  destruct (floats_of_strings (split_spaces s)) as [[|x [|y [|z [|]]]]|] eqn:Hs;
    try done.
  destruct (transform_point mat (x, y, z)) as [[x' y'] z'] eqn:Ht.
  intros [= <-]. exists s, x, y, z. split_and!; [reflexivity|exact Hs|].
  by rewrite Ht.
Qed.

Lemma origin_placed (cfg : inputs F) mat fm d d' :
  place_properties cfg mat fm d = Ok d' →
  match d !! "origin" with
  | None => d' !! "origin" = None
  | Some v => ∃ o, place_origin mat v = Ok o ∧ d' !! "origin" = Some o
  end.
Proof.
  intros (d1 & Hd1 & Hd')%place_properties_inv.
  rewrite (rederive_angles_lookup _ _ _ _ _ Hd') by done.
  rewrite set_default_angle_lookup, decide_False by done.
  unfold transform_origin, mbind, result_bind, mret, result_ret in Hd1.
  destruct (d !! "origin") as [v|] eqn:Hv.
  - destruct (place_origin mat v) as [o|]; [|done]. injection Hd1 as <-.
    exists o. by rewrite lookup_insert_eq.
  - by injection Hd1 as <-.
Qed.

Lemma place_properties_keys (cfg : inputs F) mat fm d d' k :
  place_properties cfg mat fm d = Ok d' →
  is_Some (d' !! k) ↔ is_Some (d !! k) ∨ k = "angle".
Proof.
  intros (d1 & Hd1 & Hd')%place_properties_inv.
  rewrite (rederive_angles_keys _ _ _ _ k Hd').
  rewrite set_default_angle_lookup.
  assert (is_Some (d1 !! k) ↔ is_Some (d !! k)) as Hk.
  { unfold transform_origin, mbind, result_bind, mret, result_ret in Hd1.
    destruct (d !! "origin") as [v|] eqn:Hv; [|by injection Hd1 as <-].
    destruct (place_origin mat v) as [o|]; [|done]. injection Hd1 as <-.
    destruct (decide (k = "origin")) as [->|].
    - rewrite lookup_insert_eq, Hv. split; by eauto.
    - by rewrite lookup_insert_ne. }
  case_decide as Ha.
  - split; [by right|by eauto].
  - rewrite Hk. split; [by left|]. by intros [?|?].
Qed.

(** ** One template entity that is not a world entity *)

(** The placement builds a new entity and fails exactly when lines 268-289
    do; it has then counted nothing and appended nothing. *)
Lemma place_entity_other_run cfg mat fm ff ws tpl st td tl tbs c :
  get_dict (heap st) tpl = Some td → td !! "classname" = Some c →
  is_worldspawn c = false →
  td !! "brushes" = Some (VRef tl) → get_list (heap st) tl = Some tbs →
  ∃ l l0 : loc,
    match place_properties cfg mat fm (copy_properties td (blank_dict l l0)) with
    | Ok _ =>
        ∃ st', place_entity cfg mat fm ff ws tpl st = (Ok tt, st') ∧
               brush_count st' = brush_count st + Z.of_nat (length tbs)
    | Raise x =>
        ∃ st', place_entity cfg mat fm ff ws tpl st = (Raise x, st') ∧
               entities st' = entities st ∧ counters st' = counters st
    end.
Proof.
  intros Htd Hc Hw Htl Htbs.
  set (h := heap st).
  set (l0 := fresh (dom h)).
  set (h1 := <[l0 := OList []]> h).
  set (e := fresh (dom h1)).
  set (d0 := {["brushes" := VRef l0]} : gmap string (pyval F)).
  set (h2 := <[e := OEntity d0]> h1).
  set (d1 := <["classname" := VStr "func_unknown"]> d0).
  set (h3 := <[e := OEntity d1]> h2).
  set (l := fresh (dom h3)).
  set (h4 := <[l := OList []]> h3).
  set (h5 := <[e := OEntity (blank_dict l l0)]> h4).
  set (d2 := copy_properties td (blank_dict l l0)).
  set (h6 := <[e := OEntity d2]> h5).
  assert (l0 ∉ dom h) as Hl0 by apply is_fresh.
  assert (e ∉ dom h1) as He by apply is_fresh.
  assert (l ∉ dom h3) as Hl by apply is_fresh.
  assert (e ≠ l0 ∧ e ∉ dom h) as [Hel0 Heh].
  { unfold h1 in He. rewrite dom_insert_L in He. set_solver. }
  assert (l ≠ e ∧ l ≠ l0 ∧ l ∉ dom h) as (Hle & Hll0 & Hlh).
  { unfold h3, h2, h1 in Hl. rewrite !dom_insert_L in Hl. set_solver. }
  assert (∀ x, x ∈ dom h → x ≠ l0 ∧ x ≠ e ∧ x ≠ l) as Hold.
  { intros x Hx. repeat split; intros ->; done. }
  assert (tpl ∈ dom h) as Htpl.
  { apply elem_of_dom. apply get_dict_Some in Htd. by eexists. }
  assert (tl ∈ dom h) as Htl'.
  { apply elem_of_dom. apply get_list_Some in Htbs. by eexists. }
  destruct (Hold _ Htpl) as (? & ? & ?). destruct (Hold _ Htl') as (? & ? & ?).
  assert (d2 !! "classname" = Some c) as Hc2.
  { unfold d2. rewrite lookup_copy_properties, decide_False by done. by rewrite Hc. }
  assert (d2 !! "brushes" = Some (VRef l)) as Hb2.
  { unfold d2. rewrite lookup_copy_properties, decide_True by done.
    unfold blank_dict. by rewrite lookup_insert_eq. }
  exists l, l0. fold d2.
  unfold place_entity.
  erewrite bind_ok by (by eapply getattr_ok).
  rewrite Hw.
  erewrite bind_ok; last first.
  { erewrite bind_ok by apply new_Entity_ok.
    erewrite bind_ok; last first.
    { eapply setattr_ok; [done|]. cbn [heap set_heap]. apply get_dict_insert. }
    erewrite bind_ok by apply new_list_ok.
    erewrite bind_ok; last first.
    { eapply setattr_ok; [done|]. cbn [heap set_heap].
      fold h l0 h1 e d0 h2 d1 h3 l.
      rewrite get_dict_insert_ne by done. apply get_dict_insert. }
    reflexivity. }
  cbn [heap set_heap]. fold h l0 h1 e d0 h2 d1 h3 l h4.
  change (<["brushes":=VRef l]> d1) with (@blank_dict F l l0). fold h5.
  erewrite bind_ok; last first.
  { eapply read_dict_ok. cbn [heap set_heap]. unfold h5, h4, h3, h2, h1.
    by rewrite !get_dict_insert_ne. }
  erewrite bind_ok; last first.
  { eapply read_dict_ok. cbn [heap set_heap]. apply get_dict_insert. }
  erewrite bind_ok by reflexivity. cbn [heap set_heap]. fold d2 h6.
  erewrite bind_ok; last first.
  { eapply getattr_ok; [cbn [heap set_heap]; apply get_dict_insert|done]. }
  rewrite Hw.
  destruct (place_properties cfg mat fm d2) as [d'|x] eqn:Hpp; last first.
  { eexists. split.
    - erewrite bind_raise; [done|].
      erewrite bind_ok; last first.
      { eapply read_dict_ok. cbn [heap set_heap]. apply get_dict_insert. }
      rewrite Hpp. reflexivity.
    - done. }
  assert (d' !! "classname" = Some c) as Hc3.
  { by rewrite (place_properties_lookup _ _ _ _ _ _ Hpp). }
  assert (d' !! "brushes" = Some (VRef l)) as Hb3.
  { by rewrite (place_properties_lookup _ _ _ _ _ _ Hpp). }
  set (h7 := <[e := OEntity d']> h6).
  erewrite bind_ok; last first.
  { erewrite bind_ok; last first.
    { eapply read_dict_ok. cbn [heap set_heap]. apply get_dict_insert. }
    rewrite Hpp. erewrite bind_ok by reflexivity. reflexivity. }
  cbn [heap set_heap]. fold h7.
  erewrite bind_ok; last first.
  { eapply getattr_ok; [cbn [heap set_heap]|exact Htl].
    unfold h7, h6, h5, h4, h3, h2, h1. rewrite !get_dict_insert_ne by done.
    exact Htd. }
  erewrite bind_ok; last first.
  { eapply read_list_ok. cbn [heap set_heap].
    unfold h7, h6, h5, h4, h3, h2, h1. rewrite !get_list_insert_ne by done.
    exact Htbs. }
  erewrite bind_ok; last first.
  { eapply (transform_brushes_ok _ _ e d' l _ _ []); cbn [heap set_heap]; [|done|].
    - apply get_dict_insert.
    - unfold h7, h6, h5. rewrite !get_list_insert_ne by done.
      apply get_list_insert. }
  cbn [heap set_heap entities missing_gids tiles_processed brush_count stdout app].
  erewrite bind_ok; last first.
  { eapply getattr_ok; [cbn [heap]|done].
    rewrite get_dict_insert_ne by done. apply get_dict_insert. }
  rewrite Hw. unfold append_entity. cbn [heap set_heap entities].
  eexists. split; [reflexivity|]. done.
Qed.

(** X5: a template entity can only be stamped if it has a classname.  The
    entity placed for a template entity that is not a world entity is a
    new object, appended to the output list; it has the classname of the
    template (never the placeholder [func_unknown] that line 259 gives
    it), the value of the template for every attribute other than
    [brushes], [origin], [angle] and [mangle], exactly the attributes of
    the template and [angle], and a list of brushes of its own. *)
Theorem placed_entity_attributes (cfg : inputs F) mat fm ff ws tpl st st'
    td tl tbs :
  get_dict (heap st) tpl = Some td →
  td !! "brushes" = Some (VRef tl) → get_list (heap st) tl = Some tbs →
  place_entity cfg mat fm ff ws tpl st = (Ok tt, st') →
  ∃ c, td !! "classname" = Some c ∧
    (is_worldspawn c = false →
     ∃ e d l,
      entities st' = entities st ++ [e] ∧ (e ∉ dom (heap st)) ∧
      get_dict (heap st') e = Some d ∧
      d !! "classname" = Some c ∧
      (∀ k, k ≠ "brushes" → k ≠ "origin" → k ≠ "angle" → k ≠ "mangle" →
            d !! k = td !! k) ∧
      (∀ k, is_Some (d !! k) ↔ is_Some (td !! k) ∨ k = "angle") ∧
      d !! "brushes" = Some (VRef l) ∧ (l ∉ dom (heap st))).
Proof.
  intros Htd Htl Htbs Hrun.
  destruct (td !! "classname") as [c|] eqn:Hc; last first.
  { unfold place_entity in Hrun.
    erewrite bind_raise in Hrun by (by eapply getattr_missing). done. }
  exists c. split; [done|].
  intros Hw.
  destruct (place_entity_other _ _ _ _ _ _ _ _ _ _ _ _ Htd Hc Hw Htl Htbs Hrun)
    as (e & l & l0 & d' & He & Hl & Hsub & Hpp & Hd' & Hb & Hbs & Hent).
  exists e, d', l. split_and!; try done.
  - rewrite (place_properties_lookup _ _ _ _ _ _ Hpp) by done.
    rewrite lookup_copy_properties, decide_False by done. by rewrite Hc.
  - intros k ????. rewrite (place_properties_lookup _ _ _ _ _ _ Hpp) by done.
    rewrite lookup_copy_properties, decide_False by done.
    destruct (td !! k) eqn:Hk; [done|]. unfold blank_dict.
    destruct (decide (k = "classname")) as [->|]; [congruence|].
    rewrite !lookup_insert_ne by done. by rewrite lookup_singleton_ne.
  - intros k. rewrite (place_properties_keys _ _ _ _ _ _ Hpp).
    rewrite lookup_copy_properties. case_decide as Hk.
    + subst k. unfold blank_dict. rewrite lookup_insert_eq, Htl.
      split; intros _; left; by eauto.
    + destruct (td !! k) eqn:Hk'; [done|]. unfold blank_dict.
      destruct (decide (k = "classname")) as [->|]; [congruence|].
      rewrite !lookup_insert_ne by done. by rewrite lookup_singleton_ne.
Qed.

(** X6: the entity placed for a template entity that is not a world entity
    has an [origin] exactly when the template has one.  The [origin] of
    the template then is the text of three floats separated by single
    spaces, and the [origin] of the placed entity is the text of that
    point moved by the whole matrix of the cell (translation included),
    its three coordinates printed by [str] and joined by spaces. *)
Theorem placed_entity_origin (cfg : inputs F) mat fm ff ws tpl st st'
    td tl tbs c :
  get_dict (heap st) tpl = Some td →
  td !! "brushes" = Some (VRef tl) → get_list (heap st) tl = Some tbs →
  td !! "classname" = Some c → is_worldspawn c = false →
  place_entity cfg mat fm ff ws tpl st = (Ok tt, st') →
  ∃ e, entities st' = entities st ++ [e] ∧
    match td !! "origin" with
    | None => entity_attr (heap st') e "origin" = None
    | Some v =>
        ∃ s x y z,
          v = VStr s ∧ floats_of_strings (split_spaces s) = Ok [x; y; z] ∧
          entity_attr (heap st') e "origin"
          = Some (VStr (join_spaces (str_of_float
                   <$> [(transform_point mat (x, y, z)).1.1;
                        (transform_point mat (x, y, z)).1.2;
                        (transform_point mat (x, y, z)).2])))
    end.
Proof.
  intros Htd Htl Htbs Hc Hw Hrun.
  destruct (place_entity_other _ _ _ _ _ _ _ _ _ _ _ _ Htd Hc Hw Htl Htbs Hrun)
    as (e & l & l0 & d' & He & Hl & Hsub & Hpp & Hd' & Hb & Hbs & Hent).
  exists e. split; [done|]. unfold entity_attr. rewrite Hd'.
  pose proof (origin_placed _ _ _ _ _ Hpp) as Ho.
  rewrite lookup_copy_properties, decide_False in Ho by done.
  destruct (td !! "origin") as [v|].
  - destruct Ho as (o & Ho & ->).
    apply place_origin_inv in Ho as (s & x & y & z & -> & Hs & ->).
    by exists s, x, y, z.
  - unfold blank_dict in Ho. rewrite !lookup_insert_ne in Ho by done.
    by rewrite lookup_singleton_ne in Ho.
Qed.

(** The arithmetic of the script raises [OverflowError] and
    [ZeroDivisionError] only. *)
Definition arithmetic_error (x : exn) : Prop :=
  x = ZeroDivisionError ∨ x = OverflowError.

Lemma py_to_float_raises (n : pynum F) x :
  py_to_float n = Raise x → arithmetic_error x.
Proof.
  destruct n as [z|f]; cbn; [|done].
  destruct (float_of_int z); [done|]. intros [= <-]. by right.
Qed.

Lemma float_op_raises op (a b : pynum F) x :
  float_op op a b = Raise x → arithmetic_error x.
Proof.
  unfold float_op, mbind, result_bind.
  destruct (py_to_float a) eqn:Ha; [|intros [= <-]; by eapply py_to_float_raises].
  destruct (py_to_float b) eqn:Hb; [done|intros [= <-]; by eapply py_to_float_raises].
Qed.

Lemma py_add_raises (a b : pynum F) x : py_add a b = Raise x → arithmetic_error x.
Proof. destruct a, b; try done; apply float_op_raises. Qed.

Lemma py_sub_raises (a b : pynum F) x : py_sub a b = Raise x → arithmetic_error x.
Proof. destruct a, b; try done; apply float_op_raises. Qed.

Lemma py_mul_raises (a b : pynum F) x : py_mul a b = Raise x → arithmetic_error x.
Proof. destruct a, b; try done; apply float_op_raises. Qed.

Lemma py_truediv_raises (a b : pynum F) x :
  py_truediv a b = Raise x → arithmetic_error x.
Proof.
  assert (∀ a b : pynum F,
            (x ← py_to_float a; y ← py_to_float b;
             if fis0 y then Raise ZeroDivisionError
             else Ok (NFloat (fdiv x y))) = Raise x → arithmetic_error x) as H.
  { intros a' b'. unfold mbind, result_bind.
    destruct (py_to_float a') eqn:Ha;
      [|intros [= <-]; by eapply py_to_float_raises].
    destruct (py_to_float b') as [y|] eqn:Hb;
      [|intros [= <-]; by eapply py_to_float_raises].
    destruct (fis0 y); [|done]. intros [= <-]. by left. }
  destruct a as [p|p], b as [q|q]; try apply H.
  cbn. case_decide; [intros [= <-]; by left|].
  destruct (int_truediv p q); [done|]. intros [= <-]. by right.
Qed.

Lemma object_planar_raises (cfg : inputs F) (o : object F) x :
  object_planar cfg o = Raise x → arithmetic_error x.
Proof.
  unfold object_planar, mbind, result_bind.
  repeat match goal with
  | |- context [match ?r with Ok _ => _ | Raise _ => _ end] =>
      let E := fresh "E" in
      destruct r eqn:E;
      [|intros [= <-];
        first [ by eapply py_truediv_raises | by eapply py_mul_raises
              | by eapply py_sub_raises ]]
  end.
  done.
Qed.

Lemma refused_property_raises (props : list (property F)) x :
  refused_property props = Some x → x = TypeError ∨ x = AttributeError.
Proof.
  induction props as [|p props IH]; [done|]. cbn [refused_property].
  destruct (String.eqb _ _); [done|]. unfold setattr_refuses.
  repeat case_decide; try done; intros [= <-]; by eauto.
Qed.

(** X7: the placement of an object of an object layer stops at the first
    property that [setattr] refuses, with its exception ([TypeError] for
    [__class__] and [__dict__], [AttributeError] for [__weakref__]; the
    property [Z] is never set); otherwise it fails exactly when the
    arithmetic of lines 332-334 does, and with its exception, which can only
    be a [ZeroDivisionError] or an [OverflowError].  It raises no other
    exception, whatever the object and the state. *)
Theorem object_placement_total (cfg : inputs F) (o : object F) st :
  (place_object cfg o st).1
  = match refused_property (obj_properties o) with
    | Some x => Raise x
    | None =>
        match object_planar cfg o with
        | Ok _ => Ok tt
        | Raise x => Raise x
        end
    end ∧
  ∀ x, (place_object cfg o st).1 = Raise x →
       x = TypeError ∨ x = AttributeError ∨
       x = ZeroDivisionError ∨ x = OverflowError.
Proof.
  split; [apply place_object_outcome|].
  intros x. rewrite place_object_outcome.
  destruct (refused_property (obj_properties o)) as [y|] eqn:Hr.
  - intros [= <-]. destruct (refused_property_raises _ _ Hr); by eauto.
  - destruct (object_planar cfg o) as [xy|y] eqn:Hxy; [done|].
    intros [= <-]. destruct (object_planar_raises _ _ _ Hxy); by eauto.
Qed.

(** ** Stamping under the invariant of the pass *)

Section Stamping.
Variables (cfg : inputs F) (h0 : gmap loc (obj F)) (ws lw : loc).

Lemma place_entity_progress mat fm ff tpl W S st :
  loaded h0 tpl → stampable h0 tpl = true → pass_inv cfg h0 ws lw W S st →
  ∃ st', place_entity cfg mat fm ff ws tpl st = (Ok tt, st').
Proof.
  intros Hload Hst (Hsub & Hws & Hlw & (wd & Hwd & Hwb & Hwc) & HW & _).
  destruct (loaded_inv h0 tpl Hload) as (td & tl & tbs & Htd & Htl & Htbs & _).
  unfold stampable in Hst. rewrite Htd in Hst.
  destruct (td !! "classname") as [c|] eqn:Hc; [|done].
  assert (get_dict (heap st) tpl = Some td) as Htd'.
  { apply get_dict_Some. eapply lookup_weaken; [|done]. by apply get_dict_Some. }
  assert (get_list (heap st) tl = Some tbs) as Htbs'.
  { apply get_list_Some. eapply lookup_weaken; [|done]. by apply get_list_Some. }
  destruct (is_worldspawn c) eqn:Hw.
  - eexists. eapply place_entity_world; try done.
    + intros ->. apply Hws. apply elem_of_dom. apply get_dict_Some in Htd.
      by eexists.
    + intros ->. apply Hlw. apply elem_of_dom. apply get_list_Some in Htbs.
      by eexists.
  - cbn in Hst.
    destruct (place_entity_other_run cfg mat fm ff ws tpl st td tl tbs c
                Htd' Hc Hw Htl Htbs') as (l & l0 & H).
    destruct (place_properties_ok cfg mat fm (copy_properties td (blank_dict l l0)))
      as [d' Hd']; [by rewrite well_formed_copy|].
    rewrite Hd' in H. destruct H as (st' & H & _). by exists st'.
Qed.

Lemma place_entity_count mat fm ff tpl W S st st' :
  loaded h0 tpl → pass_inv cfg h0 ws lw W S st →
  place_entity cfg mat fm ff ws tpl st = (Ok tt, st') →
  brush_count st' = brush_count st + Z.of_nat (length (template_brushes h0 tpl)).
Proof.
  intros Hload (Hsub & Hws & Hlw & (wd & Hwd & Hwb & Hwc) & HW & _) Hrun.
  destruct (loaded_inv h0 tpl Hload) as (td & tl & tbs & Htd & Htl & Htbs & ->).
  assert (get_dict (heap st) tpl = Some td) as Htd'.
  { apply get_dict_Some. eapply lookup_weaken; [|done]. by apply get_dict_Some. }
  assert (get_list (heap st) tl = Some tbs) as Htbs'.
  { apply get_list_Some. eapply lookup_weaken; [|done]. by apply get_list_Some. }
  destruct (td !! "classname") as [c|] eqn:Hc; last first.
  { unfold place_entity in Hrun.
    erewrite bind_raise in Hrun by (by eapply getattr_missing). done. }
  destruct (is_worldspawn c) eqn:Hw.
  - erewrite place_entity_world in Hrun; try done.
    + by injection Hrun as <-.
    + intros ->. apply Hws. apply elem_of_dom. apply get_dict_Some in Htd.
      by eexists.
    + intros ->. apply Hlw. apply elem_of_dom. apply get_list_Some in Htbs.
      by eexists.
  - destruct (place_entity_other_run cfg mat fm ff ws tpl st td tl tbs c
                Htd' Hc Hw Htl Htbs') as (l & l0 & H).
    destruct (place_properties _ _ _ _); destruct H as (st1 & H1 & H2);
      rewrite H1 in Hrun; [|done].
    by injection Hrun as <-.
Qed.

Lemma place_tile_count index t W S st st' :
  prefabs_loaded cfg h0 → pass_inv cfg h0 ws lw W S st →
  place_tile cfg ws index t st = (Ok tt, st') →
  brush_count st' = brush_count st + Z.of_nat (stamped_brushes cfg h0 t).
Proof.
  intros Hload HI. rewrite place_tile_cases. unfold stamped_brushes, cell_prefab.
  case_decide as Hg.
  { intros [= <-]. cbn. lia. }
  destruct (no_prefab cfg (gid t) && _) eqn:Hno.
  - apply andb_prop in Hno as [Hno _]. unfold no_prefab in Hno.
    intros [= <-]. destruct (tiles cfg !! gid t) as [[|]|]; try done; cbn; lia.
  - unfold mbind at 1, M_bind at 1. unfold lift at 1.
    destruct (tile_transform cfg index t) as [tr|] eqn:Htr; [|done].
    destruct (tiles cfg !! gid t) as [prefab|] eqn:Hp; [|done].
    cbn [default]. unfold mbind at 1, M_bind at 1. cbn [mret M_ret].
    intros Hrun.
    set (s0 := State (heap st) (entities st) (missing_gids st)
                     (tiles_processed st + 1) (brush_count st) (stdout st)) in *.
    set (J := λ (vs : list loc) (s : state F),
           pass_inv_some cfg h0 ws lw s ∧
           brush_count s = brush_count st
             + Z.of_nat (sum_list_with (λ tpl, length (template_brushes h0 tpl)) vs)).
    assert (J [] s0) as HJ.
    { split; [|cbn; lia]. exists W, S. by eapply pass_inv_ext. }
    apply (for_each_acc J) with (vs := []) in Hrun; [apply Hrun| |exact HJ].
    intros tpl vs s1 s2 Hin [(W' & S' & HI') Hc] Hb.
    assert (loaded h0 tpl) as Hl.
    { eapply Forall_forall; [|done]. by eapply (map_Forall_lookup_1 _ _ _ _ Hload). }
    split.
    + eexists _, _. eapply (place_entity_inv cfg h0 ws lw index t); [done..|].
      unfold cell_transform. by rewrite Htr.
    + rewrite (place_entity_count _ _ _ _ _ _ _ _ Hl HI' Hb), Hc.
      rewrite sum_list_with_app. cbn. lia.
Qed.

Lemma place_layer_count (l : layer F) W S st st' :
  prefabs_loaded cfg h0 → pass_inv cfg h0 ws lw W S st →
  place_layer cfg ws l st = (Ok tt, st') →
  brush_count st' = brush_count st
    + Z.of_nat (sum_list_with (λ c, stamped_brushes cfg h0 c.2) (layer_cells l)).
Proof.
  intros Hload HI. destruct l as [ts|os|]; cbn [place_layer layer_cells].
  - rewrite for_enumerate_for_each. intros Hrun.
    set (J := λ (vs : list (Z * tile)) (s : state F),
           pass_inv_some cfg h0 ws lw s ∧
           brush_count s = brush_count st
             + Z.of_nat (sum_list_with (λ c, stamped_brushes cfg h0 c.2) vs)).
    apply (for_each_acc J) with (vs := []) in Hrun; [apply Hrun| |].
    + intros [i t] vs s1 s2 _ [(W' & S' & HI') Hc] Hb. cbn [fst snd] in Hb.
      split.
      * eexists _, _. by eapply place_tile_inv.
      * rewrite (place_tile_count _ _ _ _ _ _ Hload HI' Hb), Hc.
        rewrite sum_list_with_app. cbn. lia.
    + split; [by exists W, S|cbn; lia].
  - intros Hrun. cbn.
    assert (counters st' = counters st) as Hu.
    { eapply unchanged_ok; [|exact Hrun]. apply unchanged_for_each.
      intros. by apply unchanged_place_object. }
    unfold counters in Hu. injection Hu as _ _ -> _. lia.
  - intros [= <-]. cbn. lia.
Qed.

Lemma place_tile_progress index t st :
  prefabs_loaded cfg h0 → cell_transformable cfg (index, t) = true →
  cell_stampable cfg h0 t = true →
  pass_inv_some cfg h0 ws lw st →
  ∃ st', place_tile cfg ws index t st = (Ok tt, st') ∧
         pass_inv_some cfg h0 ws lw st'.
Proof.
  intros Hload Hct Ht (W & S & HI).
  assert (∀ st', place_tile cfg ws index t st = (Ok tt, st') →
                 place_tile cfg ws index t st = (Ok tt, st') ∧
                 pass_inv_some cfg h0 ws lw st') as Hinv.
  { intros st' Hrun. split; [done|]. eexists _, _. by eapply place_tile_inv. }
  rewrite place_tile_cases in *.
  case_decide as Hg; [by eexists; apply Hinv|].
  destruct (no_prefab cfg (gid t) && _) eqn:Hno; [by eexists; apply Hinv|].
  assert (∃ prefab, tiles cfg !! gid t = Some prefab ∧
                    forallb (stampable h0) prefab = true) as (prefab & Hp & Hst).
  { unfold cell_stampable in Ht. rewrite bool_decide_eq_false_2 in Ht by done.
    cbn [orb] in Ht. destruct (tiles cfg !! gid t) as [prefab|]; [|done].
    by exists prefab. }
  assert (∃ tr, tile_transform cfg index t = Ok tr) as [tr Htr].
  { unfold cell_transformable in Hct. cbn [fst snd] in Hct.
    rewrite bool_decide_eq_false_2 in Hct by done. cbn [orb] in Hct.
    destruct (tile_transform cfg index t); [by eauto|done]. }
  rewrite (stamp_eq cfg ws index t tr prefab _ Htr Hp) in *.
  set (s0 := State (heap st) (entities st) (missing_gids st)
                   (tiles_processed st + 1) (brush_count st) (stdout st)) in *.
  destruct (for_each_progress (pass_inv_some cfg h0 ws lw) prefab
              (place_entity cfg tr.1.1 tr.1.2 tr.2 ws)) with (st := s0)
    as (st' & Hrun & _).
  - intros tpl s Hin (W' & S' & HI').
    assert (loaded h0 tpl) as Hl.
    { eapply Forall_forall; [|done]. by eapply (map_Forall_lookup_1 _ _ _ _ Hload). }
    assert (stampable h0 tpl = true) as Hs.
    { apply Is_true_true_1. apply Is_true_true_2, forallb_True in Hst.
      exact (proj1 (Forall_forall _ _) Hst tpl Hin). }
    destruct (place_entity_progress tr.1.1 tr.1.2 tr.2 tpl W' S' s
                Hl Hs HI') as (s' & Hrun).
    exists s'. split; [done|]. eexists _, _.
    eapply (place_entity_inv cfg h0 ws lw index t); [done..|].
    unfold cell_transform. by rewrite Htr.
  - exists W, S. by eapply pass_inv_ext.
  - exists st'. by apply Hinv.
Qed.

Lemma place_layer_progress (l : layer F) st :
  prefabs_loaded cfg h0 →
  Forall (λ c, cell_transformable cfg c = true ∧
               cell_stampable cfg h0 c.2 = true) (layer_cells l) →
  Forall (λ o, object_placeable cfg o = true)
         (match l with ObjectGroup os => os | _ => [] end) →
  pass_inv_some cfg h0 ws lw st →
  ∃ st', place_layer cfg ws l st = (Ok tt, st') ∧
         pass_inv_some cfg h0 ws lw st'.
Proof.
  intros Hload Hcells Hobjs HI. destruct l as [ts|os|]; cbn [place_layer].
  - rewrite for_enumerate_for_each. apply for_each_progress; [|done].
    intros [i t] s Hin HI'.
    destruct (proj1 (Forall_forall _ _) Hcells (i, t) Hin) as [Hct Hcs].
    by apply place_tile_progress.
  - apply for_each_progress; [|done]. intros o s Hin (W & S & HI').
    pose proof (proj1 (Forall_forall _ _) Hobjs o Hin) as Ho.
    unfold object_placeable in Ho.
    destruct (refused_property (obj_properties o)) eqn:Hr; [done|].
    destruct (object_planar cfg o) as [xy|] eqn:Hxy; [|done].
    eexists. split; [by apply place_object_ok|].
    eexists _, _. eapply place_object_inv; [done|]. by apply place_object_ok.
  - by exists st.
Qed.

End Stamping.

(** ** The number of brushes *)

Lemma run_count (cfg : inputs F) h0 st' :
  prefabs_loaded cfg h0 → run cfg h0 = (Ok tt, st') →
  brush_count st'
  = Z.of_nat (sum_list_with (λ c, stamped_brushes cfg h0 c.2) (cells cfg)).
Proof.
  intros Hload. unfold run, create_map, mbind, M_bind.
  destruct (create_worldspawn cfg (initial_state h0)) as [[ws|?] st] eqn:Hws;
    [|done].
  assert (counters st = counters (initial_state h0)) as Hu.
  { eapply unchanged_ok; [|exact Hws]. by apply unchanged_create_worldspawn. }
  apply create_worldspawn_inv in Hws as [lw HI]. intros Hrun.
  set (J := λ (ls : list (layer F)) (s : state F),
         pass_inv_some cfg h0 ws lw s ∧
         brush_count s
         = Z.of_nat (sum_list_with (λ c, stamped_brushes cfg h0 c.2)
                       (mjoin (layer_cells <$> ls)))).
  apply (for_each_acc J) with (vs := []) in Hrun; [apply Hrun| |].
  - intros l ls s1 s2 _ [(W' & S' & HI') Hc] Hb. split.
    + eexists _, _. by eapply place_layer_inv.
    + rewrite (place_layer_count _ _ _ _ _ _ _ _ _ Hload HI' Hb), Hc.
      rewrite fmap_app, join_app, sum_list_with_app. cbn. rewrite app_nil_r. lia.
  - split; [by eexists _, _|]. unfold counters in Hu. by injection Hu as _ _ -> _.
Qed.

Lemma describes_output_brushes cfg h0 ws lw h (others : list loc) S :
  Forall2 (describes cfg h0 ws lw h) others S →
  output_brushes h others = sum_list_with (source_brushes h0) S.
Proof.
  induction 1 as [|e src others S Hd _ IH]; [done|].
  unfold output_brushes in *. cbn [sum_list_with]. rewrite IH. f_equal.
  destruct src as [index t tpl|o]; cbn [source_brushes].
  - rewrite (describes_brushes _ _ _ _ _ _ _ _ _ Hd). cbn. by rewrite length_fmap.
  - destruct Hd as (_ & _ & _ & l & xy & Hd & _ & _ & Hl & _).
    unfold entity_brushes. rewrite Hd. unfold object_dict.
    rewrite !lookup_insert_ne by done. rewrite object_attrs_lookup.
    rewrite decide_False by done.
    destruct (last _) as [p|]; [by destruct (prop_value p)|].
    by rewrite lookup_singleton_eq, Hl.
Qed.

Lemma sum_filter_split {A} (f : A → nat) (P : A → bool) (xs : list A) :
  (sum_list_with f (filter (λ x, P x = true) xs)
   + sum_list_with f (filter (λ x, P x = false) xs))%nat
  = sum_list_with f xs.
Proof.
  induction xs as [|x xs IH]; [done|]. rewrite !filter_cons.
  repeat case_decide; try congruence; cbn [sum_list_with]; try lia.
  by destruct (P x).
Qed.

Lemma cell_brushes_split (cfg : inputs F) h0 index t :
  (length (cell_world_brushes cfg h0 index t)
   + sum_list_with (source_brushes h0) (cell_sources cfg h0 index t))%nat
  = stamped_brushes cfg h0 t.
Proof.
  rewrite cell_world_brushes_length. unfold cell_world_count, cell_sources,
    stamped_brushes.
  rewrite <-(sum_filter_split _ (is_world_template h0) (cell_prefab cfg t)).
  f_equal. induction (filter _ _) as [|x xs IH]; [done|]. cbn. by rewrite IH.
Qed.

Lemma layer_brushes_split (cfg : inputs F) h0 (l : layer F) :
  (length (layer_world_brushes cfg h0 l)
   + sum_list_with (source_brushes h0) (layer_sources cfg h0 l))%nat
  = sum_list_with (λ c, stamped_brushes cfg h0 c.2) (layer_cells l).
Proof.
  destruct l as [ts|os|]; cbn [layer_world_brushes layer_sources layer_cells].
  - induction (enumerate_from 0 ts) as [|[i t] cs IH]; [done|].
    rewrite !fmap_cons. change (mjoin (?a :: ?b)) with (a ++ mjoin b).
    rewrite length_app, sum_list_with_app. cbn [sum_list_with fst snd].
    rewrite <-IH, <-(cell_brushes_split cfg h0 i t). lia.
  - cbn. induction os as [|o os IH]; [done|]. cbn. exact IH.
  - done.
Qed.

Lemma run_brushes_split (cfg : inputs F) h0 :
  (length (world_brushes cfg h0)
   + sum_list_with (source_brushes h0) (sources cfg h0))%nat
  = sum_list_with (λ c, stamped_brushes cfg h0 c.2) (cells cfg).
Proof.
  unfold world_brushes, sources, cells.
  change (λ l : layer F, match l with
                         | Layer ts => enumerate_from 0 ts
                         | _ => []
                         end) with (@layer_cells F).
  induction (layers cfg) as [|l ls IH]; [done|].
  rewrite !fmap_cons. change (mjoin (?a :: ?b)) with (a ++ mjoin b).
  rewrite length_app, !sum_list_with_app, <-IH, <-layer_brushes_split. lia.
Qed.

(** X8: when the pass completes on a loaded cache, [brush_count] (the
    number that line 349 prints as "brushes written") is the number of
    brushes in the entities of the output list, the accumulator included,
    and it is the number of brushes of all template entities of the
    prefabs of all stamped cells. *)
Theorem brushes_written_count (cfg : inputs F) h0 st' :
  prefabs_loaded cfg h0 → run cfg h0 = (Ok tt, st') →
  brush_count st' = Z.of_nat (output_brushes (heap st') (entities st')) ∧
  brush_count st'
  = Z.of_nat (sum_list_with (λ c, stamped_brushes cfg h0 c.2) (cells cfg)).
Proof.
  intros Hload Hrun. pose proof (run_count cfg h0 st' Hload Hrun) as Hc.
  split; [|done]. rewrite Hc. f_equal.
  destruct (run_spec cfg h0 st' Hload Hrun) as (ws & lw & HI).
  pose proof (pass_inv_brushes _ _ _ _ _ _ _ HI) as Hb.
  destruct HI as (_ & _ & _ & _ & _ & others & -> & _ & Hdesc).
  unfold output_brushes. cbn [sum_list_with]. rewrite Hb. cbn [default].
  fold (output_brushes (heap st') others).
  rewrite (describes_output_brushes _ _ _ _ _ _ _ Hdesc).
  symmetry. apply run_brushes_split.
Qed.

Lemma objects_layer (cfg : inputs F) os o :
  ObjectGroup os ∈ layers cfg → o ∈ os → o ∈ objects cfg.
Proof.
  intros Hl Ho. unfold objects. apply list_elem_of_join.
  exists os. split; [done|]. apply list_elem_of_fmap. by exists (ObjectGroup os).
Qed.

(** X9: the pass completes, without any exception, when the cache is
    loaded, the prefab of gid 2 has a first entity with a [wad], the
    transform of every cell with a tile can be computed (the width and the
    height are not 0 and the offsets are in the range of the floats), every
    such cell has a gid of the cache whose template entities can all be
    stamped -- each has a classname, and if it is not a world entity its
    [origin] (if any) is the text of three floats, its [mangle] (if any)
    the text of three floats or more, and without [mangle] its [angle] (if
    any) is a number or the text of one --, and every object has
    properties that [setattr] accepts and coordinates that can be computed
    (the tile width is not 0, the numbers are in the range of the
    floats). *)
Theorem pass_completes (cfg : inputs F) h0 first rest wad :
  prefabs_loaded cfg h0 →
  tiles cfg !! 2 = Some (first :: rest) →
  entity_attr h0 first "wad" = Some wad →
  Forall (λ c, cell_transformable cfg c = true ∧
               cell_stampable cfg h0 c.2 = true) (cells cfg) →
  Forall (λ o, object_placeable cfg o = true) (objects cfg) →
  ∃ st', run cfg h0 = (Ok tt, st').
Proof.
  intros Hload H2 Hwad Hcells Hobjs.
  unfold entity_attr in Hwad.
  destruct (get_dict h0 first) as [d|] eqn:Hd; [|done].
  pose proof (create_worldspawn_cases cfg (initial_state h0)) as Hcw.
  cbn zeta in Hcw. cbn [heap initial_state] in Hcw. rewrite H2 in Hcw.
  set (l0 := fresh (dom h0)) in *. set (h1 := <[l0 := OList []]> h0) in *.
  set (ws := fresh (dom h1)) in *.
  set (d1 := <["classname" := VStr "worldspawn"]> {["brushes" := VRef l0]}) in *.
  set (h2 := <[ws := OEntity d1]> h1) in *.
  assert (get_dict h2 first = Some d) as Hd2.
  { assert (first ∈ dom h0) as Hin.
    { apply elem_of_dom. apply get_dict_Some in Hd. by eexists. }
    assert (l0 ∉ dom h0) as Hl0 by apply is_fresh.
    assert (ws ∉ dom h1) as Hws by apply is_fresh.
    unfold h1 in Hws. rewrite dom_insert_L in Hws.
    unfold h2, h1. rewrite !get_dict_insert_ne; [done|intros ->..].
    all: set_solver. }
  rewrite Hd2, Hwad in Hcw.
  destruct (create_worldspawn_inv cfg h0 _ _ Hcw) as [lw HI].
  destruct (for_each_progress (pass_inv_some cfg h0 ws lw) (layers cfg)
              (place_layer cfg ws))
    with (st := (create_worldspawn cfg (initial_state h0)).2)
    as (st' & Hrun & _).
  - intros l s Hl HI'. apply place_layer_progress; try done.
    + apply Forall_forall. intros c Hc.
      apply (proj1 (Forall_forall _ _) Hcells). by eapply cells_layer.
    + apply Forall_forall. intros o Ho.
      destruct l as [|os|]; try by apply elem_of_nil in Ho.
      apply (proj1 (Forall_forall _ _) Hobjs). by eapply objects_layer.
  - rewrite Hcw. by eexists _, _.
  - exists st'. unfold run, create_map. erewrite bind_ok by exact Hcw.
    by rewrite Hcw in Hrun.
Qed.

(** X10: when the pass completes on a loaded cache, the output shares no
    object with the cache: no entity of the output list is an object of
    the initial heap (a template entity of a prefab), every one is an
    entity of the final heap, and the list of brushes of none of them is a
    list of the initial heap. *)
Theorem output_shares_nothing (cfg : inputs F) h0 st' :
  prefabs_loaded cfg h0 → run cfg h0 = (Ok tt, st') →
  Forall (λ e, (e ∉ dom h0) ∧ is_Some (get_dict (heap st') e) ∧
               ∀ d l, get_dict (heap st') e = Some d →
                      d !! "brushes" = Some (VRef l) → l ∉ dom h0)
         (entities st').
Proof.
  intros Hload Hrun.
  assert (fresh_owned h0 st') as [_ Hown].
  { assert (fresh_owned h0 (initial_state h0)) as Hinit.
    { split; [done|]. intros e d l He Hl. cbn in Hl.
      exfalso. apply He. by apply elem_of_dom. }
    pose proof (frame_create_map h0 cfg _ Hinit) as H. unfold run in Hrun.
    by rewrite Hrun in H. }
  destruct (run_spec cfg h0 st' Hload Hrun) as (ws & lw & HI).
  destruct HI as (_ & Hws & Hlw & (wd & Hwd & Hwb & _) & _ & others & -> & _ & Hdesc).
  assert (∀ e, e ∉ dom h0 → is_Some (get_dict (heap st') e) →
            (e ∉ dom h0) ∧ is_Some (get_dict (heap st') e) ∧
            ∀ d l, get_dict (heap st') e = Some d →
                   d !! "brushes" = Some (VRef l) → l ∉ dom h0) as Hall.
  { intros e He Hs. split_and!; [done..|]. intros d l Hd Hl.
    eapply Hown; [done| |done]. by apply get_dict_Some. }
  constructor; [by apply Hall|].
  apply Forall_forall. intros e He.
  destruct (proj1 (list_elem_of_lookup _ _) He) as [i Hi].
  destruct (Forall2_lookup_l _ _ _ _ _ Hdesc Hi) as (src & _ & Hd).
  destruct Hd as (_ & _ & He0 & Hsrc). apply Hall; [done|].
  destruct src as [index t tpl|o].
  - destruct Hsrc as (d & l & _ & _ & Hd & _). by rewrite Hd.
  - destruct Hsrc as (l & scale & Hd & _). by rewrite Hd.
Qed.

(** ** A gid without cache entry, met again *)

Lemma place_tile_unmapped_again (cfg : inputs F) ws index t st st' :
  gid t ≠ 0 → tiles cfg !! gid t = None → gid t ∈ missing_gids st →
  place_tile cfg ws index t st ≠ (Ok tt, st').
Proof.
  intros Hg Hn Hin. rewrite place_tile_cases, decide_False by done.
  rewrite bool_decide_eq_true_2, andb_false_r by done.
  unfold mbind at 1, M_bind at 1, lift.
  destruct (tile_transform cfg index t); [|done].
  unfold mbind, M_bind. by rewrite Hn.
Qed.

(** X20: a pass that completes has met every gid without cache entry in one
    cell only.  The guard of line 217 lets a gid pass to line 252 once it is
    in [missing_gids], so the second cell of such a gid, in the same layer
    or a later one, stops the pass; among the cells of all the tile layers
    of a completed pass the gids that are not 0 and not in the cache are
    therefore pairwise different. *)
Theorem completed_pass_meets_unmapped_gid_once (cfg : inputs F) h0 st' :
  run cfg h0 = (Ok tt, st') → NoDup (unmapped_gids cfg (cells cfg)).
Proof.
  set (J := λ (vs : list (Z * tile)) (st : state F),
    NoDup (unmapped_gids cfg vs) ∧
    ∀ g, g ∈ unmapped_gids cfg vs → g ∈ missing_gids st).
  assert (∀ ws l vs st st1, J vs st → place_layer cfg ws l st = (Ok tt, st1) →
            J (vs ++ layer_cells l) st1) as Hlayer.
  { intros ws l vs st st1 HJ. destruct l as [ts|os|]; cbn [place_layer layer_cells].
    - rewrite for_enumerate_for_each.
      apply (for_each_acc J); [|done].
      intros [i t] vs' s1 s2 _ [Hnd Hm] Hrun. cbn [fst snd] in Hrun.
      pose proof (place_tile_counted _ _ _ _ _ _ Hrun) as (_ & Hmono & Hnew).
      unfold J, unmapped_gids. rewrite fmap_app, filter_app.
      cbn [fmap list_fmap snd]. rewrite filter_cons, filter_nil.
      case_decide as Hu.
      + destruct Hu as [Hg Hn]. split.
        * apply NoDup_app. split_and!; [done| |apply NoDup_singleton].
          intros g Hg1 ->%list_elem_of_singleton.
          eapply place_tile_unmapped_again; [done..| |exact Hrun]. by apply Hm.
        * intros g [Hin| ->%list_elem_of_singleton]%elem_of_app; [by auto|].
          apply Hnew; [done|]. unfold no_prefab. by rewrite Hn.
      + rewrite app_nil_r. split; [done|]. intros g Hin. by auto.
    - intros Hrun. rewrite app_nil_r.
      assert (progress_log st1 = progress_log st) as Hu.
      { eapply unchanged_ok; [|exact Hrun]. apply unchanged_for_each.
        intros. by apply unchanged_place_object. }
      unfold progress_log in Hu. injection Hu as Hm Htp _. unfold J.
      by rewrite Hm.
    - intros [= <-]. by rewrite app_nil_r. }
  unfold run, create_map. unfold mbind, M_bind.
  destruct (create_worldspawn cfg (initial_state h0)) as [[ws|?] st] eqn:Hws;
    [|done].
  intros Hrun.
  assert (J [] st) as HJ.
  { split; [constructor|]. intros g Hg. by apply elem_of_nil in Hg. }
  pose proof (for_each_acc (λ ls st, J (mjoin (layer_cells <$> ls)) st)
                (layers cfg) (place_layer cfg ws)) as Hacc.
  apply Hacc with (vs := []) in Hrun; [apply Hrun| |exact HJ].
  intros l ls s1 s2 _ HJ1 Hl. rewrite fmap_app, join_app. cbn.
  rewrite app_nil_r. by eapply Hlayer.
Qed.

End Observations.

(** ** The loader *)

Section LoaderProofs.
Context {P : Type}.
Implicit Types (env : loader_env P) (s : loader_state P).

Lemma loaded_by_nil env s : loaded_by env [] s s.
Proof. split_and!; [done|constructor|by rewrite app_nil_r]. Qed.

Lemma loaded_by_app env es1 es2 s0 s1 s2 :
  loaded_by env es1 s0 s1 → loaded_by env es2 s1 s2 →
  loaded_by env (es1 ++ es2) s0 s2.
Proof.
  intros (Hc1 & Hr1 & Hp1) (Hc2 & Hr2 & Hp2). split_and!.
  - intros g. rewrite Hc2. unfold entries_of. rewrite filter_app.
    destruct (filter _ es2) as [|e es] eqn:He using rev_ind.
    + rewrite app_nil_r. cbn. apply Hc1.
    + by rewrite (assoc_L (++)), !last_snoc.
  - by apply Forall_app.
  - rewrite Hp2, Hp1, fmap_app, filter_app, fmap_app. by rewrite (assoc_L (++)).
Qed.

Lemma load_each_acc {A} (f : A → list (Z * string)) env (xs : list A) body :
  (∀ x s s', x ∈ xs → body x s = (Ok tt, s') → loaded_by env (f x) s s') →
  ∀ s s', load_each xs body s = (Ok tt, s') →
          loaded_by env (mjoin (f <$> xs)) s s'.
Proof.
  induction xs as [|x xs IH]; intros Hb s s' Hrun.
  - injection Hrun as <-. apply loaded_by_nil.
  - cbn [load_each] in Hrun.
    destruct (body x s) as [[[]|?] s1] eqn:Hx; [|done].
    rewrite fmap_cons. change (mjoin (?a :: ?b)) with (a ++ mjoin b).
    eapply loaded_by_app; [by apply Hb; [left|]|].
    apply IH; [|done]. intros. apply Hb; [by right|done].
Qed.

Lemma load_each_ext {A} (xs : list A)
    (f g : A → loader_state P → result unit * loader_state P) s :
  (∀ x s, f x s = g x s) → load_each xs f s = load_each xs g s.
Proof.
  intros Hfg. revert s. induction xs as [|x xs IH]; intros s; [done|].
  cbn. rewrite Hfg. destruct (g x s) as [[[]|?] s1]; [apply IH|done].
Qed.

Lemma load_tile_loaded env first_gid tiles_obj tile_id s s' :
  load_tile env first_gid tiles_obj tile_id s = (Ok tt, s') →
  ∃ e, tile_entry env first_gid tiles_obj tile_id = Some e ∧
       loaded_by env [e] s s'.
Proof.
  unfold load_tile, tile_entry.
  destruct (py_int env tile_id) as [n|]; [|done].
  destruct (dict_get tiles_obj tile_id) as [fname|]; [|done]. cbn.
  intros Hrun. eexists. split; [done|].
  unfold loaded_by, entries_of. cbn [fmap list_fmap snd].
  destruct (path_exists env (tile_filepath env fname)) eqn:Hex; cbn [negb] in Hrun.
  - destruct (read_prefab env (tile_filepath env fname)) as [p|] eqn:Hp; [|done].
    injection Hrun as <-. cbn [cache printed]. split_and!.
    + intros g. rewrite filter_cons, filter_nil. cbn [fst snd].
      destruct (decide (n + first_gid = g)) as [<-|Hg].
      * rewrite decide_True by done. cbn. by rewrite lookup_insert_eq, Hp.
      * rewrite decide_False by by intros [? _]. cbn. by rewrite lookup_insert_ne.
    + apply Forall_singleton. by eexists.
    + rewrite filter_cons, filter_nil, decide_False by by rewrite Hex.
      by rewrite app_nil_r.
  - injection Hrun as <-. cbn [cache printed]. split_and!.
    + intros g. rewrite filter_cons, filter_nil. cbn [fst snd].
      rewrite decide_False; [done|]. rewrite Hex. by intros [_ ?].
    + apply Forall_singleton. cbn. by rewrite Hex.
    + by rewrite filter_cons, filter_nil, decide_True by done.
Qed.

Lemma load_keys_loaded env first_gid d (ks : list string) s s' :
  load_each ks (load_tile env first_gid d) s = (Ok tt, s') →
  loaded_by env (omap (tile_entry env first_gid d) ks) s s'.
Proof.
  revert s. induction ks as [|k ks IH]; intros s Hrun.
  - injection Hrun as <-. apply loaded_by_nil.
  - cbn [load_each] in Hrun.
    destruct (load_tile env first_gid d k s) as [[[]|?] s1] eqn:Hk; [|done].
    apply load_tile_loaded in Hk as (e & He & Hl).
    cbn [omap list_omap]. rewrite He.
    change (e :: ?l) with ([e] ++ l). eapply loaded_by_app; [done|by apply IH].
Qed.

Lemma load_tileset_loaded env tilesets tm s s' :
  load_tileset env tilesets tm s = (Ok tt, s') →
  loaded_by env (tileset_entries env tilesets tm) s s'.
Proof.
  unfold load_tileset, tileset_entries.
  destruct (tileset_definitions tilesets (filename tm)) as [|def defs].
  - intros [= <-]. apply loaded_by_nil.
  - apply load_keys_loaded.
Qed.

Lemma load_tiles_loaded env tilesets mapping s :
  load_tiles env tilesets mapping = (Ok tt, s) →
  loaded_by env (entries env tilesets mapping) (LoaderState ∅ []) s.
Proof.
  unfold load_tiles, entries. apply load_each_acc.
  intros tm s1 s2 _. apply load_tileset_loaded.
Qed.

(** X11: when the loading loop completes, the cache holds a prefab for a
    gid exactly when some tile entry of the mapping resolves to that gid
    (the number of its tile id plus the first gid of the first tileset of
    the tilemap whose image has the file name of the entry's tileset) and
    has a file that exists; the prefab is the one read from the file of
    the last such entry in the order of the mapping file, so a later entry
    replaces an earlier one with the same gid. *)
Theorem cache_holds_last_entry env tilesets mapping s :
  load_tiles env tilesets mapping = (Ok tt, s) →
  ∀ g, match last (entries_of env g (entries env tilesets mapping)) with
       | Some e => ∃ p, read_prefab env e.2 = Ok p ∧ cache s !! g = Some p
       | None => cache s !! g = None
       end.
Proof.
  intros (Hc & Hr & _)%load_tiles_loaded g. rewrite Hc.
  destruct (last _) as [e|] eqn:He; [|done].
  apply last_Some_elem_of in He. unfold entries_of in He.
  apply list_elem_of_filter in He as [[_ Hex] Hin].
  destruct (proj1 (Forall_forall _ _) Hr e Hin Hex) as [p Hp].
  exists p. by rewrite Hp.
Qed.

(** X12: when the loading loop completes, it has printed exactly one
    warning for every tile entry of the mapping whose file does not exist,
    in the order of the mapping file, each naming the path of the file;
    the entries of a tileset that the tilemap does not have give no
    warning. *)
Theorem missing_files_warned env tilesets mapping s :
  load_tiles env tilesets mapping = (Ok tt, s) →
  printed s
  = missing_file_warning
      <$> filter (λ p, path_exists env p = false)
                 (entries env tilesets mapping).*2.
Proof. by intros (_ & _ & ->)%load_tiles_loaded. Qed.

Lemma load_each_completes {A} (ok : A → bool) (xs : list A)
    (body : A → loader_state P → result unit * loader_state P) :
  (∀ x s, (∃ s', body x s = (Ok tt, s')) ↔ ok x = true) →
  ∀ s, (∃ s', load_each xs body s = (Ok tt, s')) ↔ forallb ok xs = true.
Proof.
  intros Hb. induction xs as [|x xs IH]; intros s; cbn [load_each forallb].
  - split; [done|]. by exists s.
  - rewrite andb_true_iff, <-(Hb x s).
    destruct (body x s) as [[[]|e] s1] eqn:Hx.
    + rewrite IH. split; [|by intros [_ ?]]. intros ?. split; [by eexists|done].
    + split; [by intros [? ?]|]. by intros [[? ?] _].
Qed.

Lemma load_tile_completes env first_gid d tile_id s :
  (∃ s', load_tile env first_gid d tile_id s = (Ok tt, s'))
  ↔ tile_loadable env d tile_id = true.
Proof.
  unfold load_tile, tile_loadable.
  destruct (py_int env tile_id) as [n|]; [|split; [by intros [? ?]|done]].
  destruct (dict_get d tile_id) as [fname|]; [|split; [by intros [? ?]|done]].
  destruct (path_exists env (tile_filepath env fname)); cbn [negb orb].
  - destruct (read_prefab env (tile_filepath env fname)).
    + split; [done|]. by eexists.
    + split; [by intros [? ?]|done].
  - split; [done|]. by eexists.
Qed.

(** X13: the loading loop completes exactly when every tile id of every
    tileset of the mapping that the tilemap has is read by [int] and has a
    file that is missing or can be read and parsed.  A missing file never
    stops the loop; a tileset of the mapping that the tilemap does not
    have is not looked into, whatever its tile ids. *)
Theorem load_completes_iff env tilesets mapping :
  (∃ s, load_tiles env tilesets mapping = (Ok tt, s))
  ↔ forallb (tileset_loadable env tilesets) mapping = true.
Proof.
  unfold load_tiles. apply load_each_completes. intros tm s.
  unfold load_tileset, tileset_loadable.
  destruct (tileset_definitions tilesets (filename tm)) as [|def defs].
  - split; [done|]. by eexists.
  - apply load_each_completes. intros. apply load_tile_completes.
Qed.

End LoaderProofs.

(** ** File names *)

Lemma has_char_app c (s1 s2 : string) :
  has_char c (s1 +:+ s2) = has_char c s1 || has_char c s2.
Proof.
  induction s1 as [|c' s1 IH]; [done|].
  change (String c' s1 +:+ s2) with (String c' (s1 +:+ s2)).
  cbn [has_char]. by rewrite IH, orb_assoc.
Qed.

Lemma has_char_rev_app c (s acc : string) :
  has_char c (String.rev_app s acc) = has_char c s || has_char c acc.
Proof.
  revert acc. induction s as [|c' s IH]; intros acc; [done|].
  cbn. rewrite IH. cbn. by destruct (Ascii.eqb c' c), (has_char c s).
Qed.

Lemma has_char_rev c (s : string) : has_char c (String.rev s) = has_char c s.
Proof. unfold String.rev. by rewrite has_char_rev_app, orb_false_r. Qed.

Lemma basename_aux_no_slash (cur p : string) :
  has_char "/" cur = false → has_char "/" (basename_aux cur p) = false.
Proof.
  revert cur. induction p as [|c p IH]; intros cur Hcur; cbn.
  - by rewrite has_char_rev.
  - destruct (Ascii.eqb c "/") eqn:Hc; apply IH; [done|]. cbn. by rewrite Hc.
Qed.

Lemma string_app_nil_r (s : string) : s +:+ "" = s.
Proof.
  induction s as [|c s IH]; [done|].
  change (String c s +:+ "") with (String c (s +:+ "")). by rewrite IH.
Qed.

Lemma string_app_assoc (s1 s2 s3 : string) :
  (s1 +:+ s2) +:+ s3 = s1 +:+ (s2 +:+ s3).
Proof.
  induction s1 as [|c s1 IH]; [done|].
  change (String c s1 +:+ s2) with (String c (s1 +:+ s2)).
  change (String c ?a +:+ ?b) with (String c (a +:+ b)). by rewrite IH.
Qed.

Lemma rev_app_app (s acc : string) :
  String.rev_app s acc = String.rev s +:+ acc.
Proof.
  unfold String.rev. revert acc. induction s as [|c s IH]; intros acc; [done|].
  cbn [String.rev_app]. rewrite IH, (IH (String c "")), string_app_assoc. done.
Qed.

Lemma basename_aux_whole (cur p : string) :
  has_char "/" p = false → basename_aux cur p = String.rev cur +:+ p.
Proof.
  revert cur. induction p as [|c p IH]; intros cur Hp; cbn [basename_aux].
  - by rewrite string_app_nil_r.
  - cbn in Hp. apply orb_false_elim in Hp as [Hc Hp]. rewrite Hc.
    rewrite IH by done. unfold String.rev at 1. cbn [String.rev_app].
    by rewrite rev_app_app, string_app_assoc.
Qed.

Lemma basename_idemp (p : string) : basename (basename p) = basename p.
Proof.
  unfold basename at 1. rewrite basename_aux_whole; [done|].
  by apply basename_aux_no_slash.
Qed.

Lemma first_field_split sep (s : string) :
  has_char sep (first_field sep s) = false ∧
  ∃ rest, s = first_field sep s +:+ rest ∧
          (rest = EmptyString ∨ ∃ rest', rest = String sep rest').
Proof.
  induction s as [|c s (IH1 & rest & IH2 & IH3)]; cbn.
  - split; [done|]. exists EmptyString. by split; [|left].
  - destruct (Ascii.eqb c sep) eqn:Hc.
    + apply Ascii.eqb_eq in Hc as ->. split; [done|].
      exists (String sep s). split; [done|]. right. by eexists.
    + cbn. rewrite Hc, IH1. split; [done|]. exists rest. split; [|done].
      change (String c ?a +:+ rest) with (String c (a +:+ rest)).
      by rewrite <-IH2.
Qed.

Lemma has_char_first_field c sep (s : string) :
  has_char c s = false → has_char c (first_field sep s) = false.
Proof.
  induction s as [|c' s IH]; [done|]. cbn.
  intros [H1 H2]%orb_false_elim. destruct (Ascii.eqb c' sep); [done|].
  cbn. by rewrite H1, IH.
Qed.

(** X14: the name of the map file written beside the tilemap is the file
    name of the tilemap cut at its first dot, followed by [.map]: the stem
    holds neither a dot nor a slash, and what is cut off is empty or
    starts with a dot (so every later dot and what follows it is dropped
    with the extension). *)
Theorem map_name_cut_at_first_dot (tilemap_file : string) :
  ∃ stem rest,
    map_name tilemap_file = stem +:+ ".map" ∧
    basename tilemap_file = stem +:+ rest ∧
    (rest = EmptyString ∨ ∃ rest', rest = String "." rest') ∧
    has_char "." stem = false ∧ has_char "/" stem = false.
Proof.
  destruct (first_field_split "." (basename tilemap_file))
    as (Hdot & rest & Hb & Hrest).
  exists (first_field "." (basename tilemap_file)), rest.
  split_and!; try done.
  apply has_char_first_field. by apply basename_aux_no_slash.
Qed.

Lemma tileset_definitions_fmap (f : tileset → tileset) tilesets name :
  (∀ t, basename (image_source (f t)) = basename (image_source t)) →
  tileset_definitions (f <$> tilesets) name
  = f <$> tileset_definitions tilesets name.
Proof.
  intros Hf. unfold tileset_definitions.
  induction tilesets as [|t ts IH]; [done|].
  rewrite fmap_cons, !filter_cons, Hf, IH. by case_decide.
Qed.

(** X15: of a tileset of the tilemap the loading loop reads the file name
    of the image (without its directories) and the first gid, and nothing
    else: the number of tiles of the tileset, read on line 170, has no
    effect, so a tile id is never checked against it. *)
Theorem tilecount_is_ignored {P} (env : loader_env P) (count : tileset → Z)
    (tilesets : list tileset) (mapping : list tileset_mapping) :
  load_tiles env
    ((λ t, Tileset (basename (image_source t)) (firstgid t) (count t))
       <$> tilesets) mapping
  = load_tiles env tilesets mapping.
Proof.
  unfold load_tiles. apply load_each_ext. intros tm s. unfold load_tileset.
  rewrite tileset_definitions_fmap by (intros; apply basename_idemp).
  by destruct (tileset_definitions tilesets (filename tm)).
Qed.

(** ** The text of a placed origin *)

Lemma rev_cons_app (c : ascii) (cur s : string) :
  String.rev (String c cur) +:+ s = String.rev cur +:+ String c s.
Proof.
  unfold String.rev at 1. cbn [String.rev_app].
  by rewrite rev_app_app, string_app_assoc.
Qed.

Lemma split_spaces_aux_last (cur s : string) :
  has_char " " s = false → split_spaces_aux cur s = [String.rev cur +:+ s].
Proof.
  revert cur. induction s as [|c s IH]; intros cur Hs; cbn [split_spaces_aux].
  - by rewrite string_app_nil_r.
  - cbn in Hs. apply orb_false_elim in Hs as [Hc Hs]. rewrite Hc.
    by rewrite IH, rev_cons_app.
Qed.

Lemma split_spaces_aux_field (cur s rest : string) :
  has_char " " s = false →
  split_spaces_aux cur (s +:+ (" " +:+ rest))
  = (String.rev cur +:+ s) :: split_spaces_aux "" rest.
Proof.
  change (" " +:+ rest) with (String " " rest). revert cur.
  induction s as [|c s IH]; intros cur Hs.
  - cbn. by rewrite string_app_nil_r.
  - cbn in Hs. apply orb_false_elim in Hs as [Hc Hs].
    change (String c s +:+ ?r) with (String c (s +:+ r)).
    cbn [split_spaces_aux]. rewrite Hc. by rewrite IH, rev_cons_app.
Qed.

Lemma split_join_spaces (l : list string) :
  l ≠ [] → Forall (λ s, has_char " " s = false) l →
  split_spaces (join_spaces l) = l.
Proof.
  unfold split_spaces, join_spaces. intros Hne Hall.
  induction Hall as [|s l Hs Hl IH]; [done|].
  destruct l as [|s' l].
  - change (String.concat " " [s]) with s. by rewrite split_spaces_aux_last.
  - change (String.concat " " (s :: s' :: l))
      with (s +:+ (" " +:+ String.concat " " (s' :: l))).
    rewrite split_spaces_aux_field by done. f_equal. by apply IH.
Qed.

Section OriginText.
Context {F : Type} `{!FloatArith F, !FloatText F}.

Lemma floats_of_strings_fmap (l : list F) :
  Forall (λ c, float_of_string (str_of_float c) = Some c) l →
  floats_of_strings (str_of_float <$> l) = Ok l.
Proof.
  induction 1 as [|c l Hc _ IH]; [done|]. cbn. by rewrite Hc, IH.
Qed.

(** X16: the [origin] that lines 270-272 write can be placed again.  For
    an origin of three floats, when [str] prints each of the three moved
    coordinates without a space and [float] reads it back, the new text
    is again the text of three floats, the moved point, so that it is an
    origin the same lines accept. *)
Theorem placed_origin_parses_back (mat : mat4 F) (s : string) (x y z : F) :
  floats_of_strings (split_spaces s) = Ok [x; y; z] →
  Forall (λ c, has_char " " (str_of_float c) = false ∧
               float_of_string (str_of_float c) = Some c)
         [(transform_point mat (x, y, z)).1.1;
          (transform_point mat (x, y, z)).1.2;
          (transform_point mat (x, y, z)).2] →
  ∃ o, place_origin mat (VStr s) = Ok (VStr o) ∧
       floats_of_strings (split_spaces o)
       = Ok [(transform_point mat (x, y, z)).1.1;
             (transform_point mat (x, y, z)).1.2;
             (transform_point mat (x, y, z)).2] ∧
       origin_ok (VStr o) = true.
Proof.
  intros Hs Hp. unfold place_origin. rewrite Hs. cbn [mbind result_bind].
  destruct (transform_point mat (x, y, z)) as [[x' y'] z']. cbn [fst snd] in *.
  eexists. split; [reflexivity|].
  assert (floats_of_strings
            (split_spaces (join_spaces (str_of_float <$> [x'; y'; z'])))
          = Ok [x'; y'; z']) as Hback.
  { rewrite split_join_spaces.
    - apply floats_of_strings_fmap. eapply Forall_impl; [exact Hp|]. by intros ? [].
    - done.
    - apply Forall_fmap. eapply Forall_impl; [exact Hp|]. by intros ? []. }
  split; [exact Hback|]. unfold origin_ok. by rewrite Hback.
Qed.

End OriginText.

(** * Further properties on the two float instances *)

Open Scope R_scope.

(** X19: in exact arithmetic (the floats taken as real numbers), with the
    clock reading [t1], [t2], [t3] and [t4] at the four calls of
    [record_step_time]: every call subtracts from the time elapsed since
    the start the step recorded before it, not the sum of the steps
    recorded before it.  The first two steps are the durations of the
    first two steps, the third is too long by the first, the fourth too
    long by the second, and the total printed on line 353 is the time
    elapsed at the second call plus the time elapsed at the fourth, not
    the time elapsed. *)
Theorem total_seconds_is_not_elapsed (start t1 t2 t3 t4 : R) :
  ∃ d1 d2 d3 d4 total,
    step_times start [t1; t2; t3; t4]
    = Ok [NInt 0%Z; NFloat d1; NFloat d2; NFloat d3; NFloat d4] ∧
    total_seconds start t1 t2 t3 t4 = Ok (NFloat total) ∧
    d1 = t1 - start ∧
    d2 = t2 - t1 ∧
    d3 = (t3 - t2) + (t1 - start) ∧
    d4 = (t4 - t3) + (t2 - t1) ∧
    total = (t2 - start) + (t4 - start).
Proof.
  eexists _, _, _, _, _. split; [reflexivity|]. split; [reflexivity|].
  cbn. change (0 + 0)%Z with 0%Z. split_and!; lra.
Qed.

Close Scope R_scope.

(** ** The further properties on concrete inputs *)

Lemma one_missing_cell_runs :
  run one_missing_cell prefab_heap
  = (Ok tt, (run one_missing_cell prefab_heap).2).
Proof. vm_compute. reflexivity. Qed.

Lemma completed_pass_meets_unmapped_gid_once_witness :
  run one_missing_cell prefab_heap
  = (Ok tt, (run one_missing_cell prefab_heap).2) ∧
  unmapped_gids one_missing_cell (cells one_missing_cell) = [7] ∧
  NoDup (unmapped_gids one_missing_cell (cells one_missing_cell)).
Proof.
  split_and!; [exact one_missing_cell_runs|vm_compute; reflexivity|].
  exact (completed_pass_meets_unmapped_gid_once one_missing_cell prefab_heap _
           one_missing_cell_runs).
Defined.

Lemma tiles_processed_accounting_witness :
  run one_missing_cell prefab_heap
  = (Ok tt, (run one_missing_cell prefab_heap).2) ∧
  tiles_processed (run one_missing_cell prefab_heap).2
  + Z.of_nat (length (missing_gids (run one_missing_cell prefab_heap).2)) = 3 ∧
  7 ∈ missing_gids (run one_missing_cell prefab_heap).2.
Proof.
  destruct (tiles_processed_accounting one_missing_cell prefab_heap _
              one_missing_cell_runs) as [H1 H2].
  split_and!; [exact one_missing_cell_runs|rewrite H1; vm_compute; reflexivity|].
  apply (H2 (1, Tile 7 false false false)).
  - vm_compute. right. left.
  - vm_compute. discriminate.
  - vm_compute. reflexivity.
Defined.

Lemma brushes_written_count_witness :
  prefabs_loaded small_map prefab_heap ∧
  run small_map prefab_heap = (Ok tt, (run small_map prefab_heap).2) ∧
  brush_count (run small_map prefab_heap).2 = 4 ∧
  output_brushes (heap (run small_map prefab_heap).2)
                 (entities (run small_map prefab_heap).2) = 4%nat.
Proof.
  destruct (brushes_written_count small_map prefab_heap _
              small_map_loaded small_map_runs) as [H1 H2].
  split_and!; [exact small_map_loaded|exact small_map_runs| |].
  - rewrite H2. vm_compute. reflexivity.
  - apply Nat2Z.inj. rewrite <-H1, H2. vm_compute. reflexivity.
Defined.

Lemma empty_prefab_counted_witness :
  tiles with_empty_prefab !! 4 = Some [] ∧
  place_tile with_empty_prefab 1%positive 1 (Tile 4 false false false)
    (State prefab_heap [] [4] 0 0 [missing_warning 4])
  = (Ok tt, State prefab_heap [] [4] 1 0 [missing_warning 4]).
Proof.
  assert (tiles with_empty_prefab !! 4 = Some []) as H4
    by (vm_compute; reflexivity).
  split; [exact H4|].
  rewrite (empty_prefab_counted with_empty_prefab 1%positive 1
             (Tile 4 false false false)
             (State prefab_heap [] [4] 0 0 [missing_warning 4])
             ltac:(discriminate) H4).
  vm_compute. reflexivity.
Defined.

Lemma light_placed :
  place_entity small_map (cell_transform small_map 0 (Tile 2 false false false)).1.1
    (cell_transform small_map 0 (Tile 2 false false false)).1.2 false
    1%positive 3%positive (initial_state prefab_heap)
  = (Ok tt,
     (place_entity small_map
        (cell_transform small_map 0 (Tile 2 false false false)).1.1
        (cell_transform small_map 0 (Tile 2 false false false)).1.2 false
        1%positive 3%positive (initial_state prefab_heap)).2).
Proof. vm_compute. reflexivity. Qed.

Lemma placed_entity_attributes_witness :
  get_dict prefab_heap 3%positive = Some light_dict ∧
  ∃ e d,
    entities (place_entity small_map
                (cell_transform small_map 0 (Tile 2 false false false)).1.1
                (cell_transform small_map 0 (Tile 2 false false false)).1.2 false
                1%positive 3%positive (initial_state prefab_heap)).2 = [e] ∧
    get_dict (heap (place_entity small_map
                (cell_transform small_map 0 (Tile 2 false false false)).1.1
                (cell_transform small_map 0 (Tile 2 false false false)).1.2 false
                1%positive 3%positive (initial_state prefab_heap)).2) e = Some d ∧
    d !! "classname" = Some (VStr "light") ∧ is_Some (d !! "angle").
Proof.
  assert (get_dict prefab_heap 3%positive = Some light_dict) as Htd
    by (vm_compute; reflexivity).
  split; [exact Htd|].
  destruct (placed_entity_attributes small_map
              (cell_transform small_map 0 (Tile 2 false false false)).1.1
              (cell_transform small_map 0 (Tile 2 false false false)).1.2 false
              1%positive 3%positive (initial_state prefab_heap) _ light_dict
              4%positive [] Htd ltac:(vm_compute; reflexivity)
              ltac:(vm_compute; reflexivity) light_placed)
    as (c & Hc & H).
  assert (c = VStr "light") as ->.
  { assert (light_dict !! "classname" = Some (VStr "light" : pyval Q)) as E
      by (vm_compute; reflexivity).
    rewrite E in Hc. by injection Hc. }
  destruct (H eq_refl) as (e & d & l & He & _ & Hd & Hcl & _ & Hk & _).
  exists e, d. split_and!; [exact He|exact Hd|exact Hcl|].
  apply Hk. by right.
Defined.

Lemma placed_entity_origin_witness :
  get_dict prefab_heap 3%positive = Some light_dict ∧
  ∃ e,
    entities (place_entity small_map
                (cell_transform small_map 0 (Tile 2 false false false)).1.1
                (cell_transform small_map 0 (Tile 2 false false false)).1.2 false
                1%positive 3%positive (initial_state prefab_heap)).2 = [e] ∧
    entity_attr (heap (place_entity small_map
                (cell_transform small_map 0 (Tile 2 false false false)).1.1
                (cell_transform small_map 0 (Tile 2 false false false)).1.2 false
                1%positive 3%positive (initial_state prefab_heap)).2) e "origin"
    = Some (VStr "-80.0 112.0 8.0").
Proof.
  assert (get_dict prefab_heap 3%positive = Some light_dict) as Htd
    by (vm_compute; reflexivity).
  split; [exact Htd|].
  destruct (placed_entity_origin small_map
              (cell_transform small_map 0 (Tile 2 false false false)).1.1
              (cell_transform small_map 0 (Tile 2 false false false)).1.2 false
              1%positive 3%positive (initial_state prefab_heap) _ light_dict
              4%positive [] (VStr "light") Htd ltac:(vm_compute; reflexivity)
              ltac:(vm_compute; reflexivity) ltac:(vm_compute; reflexivity)
              eq_refl light_placed)
    as (e & He & Ho).
  exists e. split; [exact He|].
  assert (light_dict !! "origin" = Some (VStr "16 16 8" : pyval Q)) as E
    by (vm_compute; reflexivity).
  rewrite E in Ho. destruct Ho as (s & x & y & z & Hv & Hs & Ho).
  injection Hv as <-.
  assert (floats_of_strings (split_spaces "16 16 8") = Ok [16; 16; 8]%Q) as E2
    by (vm_compute; reflexivity).
  rewrite E2 in Hs. injection Hs as <- <- <-.
  rewrite Ho. vm_compute. reflexivity.
Defined.

Lemma cell_positions_witness :
  0 < width tall_grid < height tall_grid ∧
  tile_xy tall_grid 0 = tile_xy tall_grid 2.
Proof.
  assert (0 < width tall_grid < height tall_grid) as H by (cbn; lia).
  split; [exact H|]. exact (proj1 (proj2 (cell_positions tall_grid) H)).
Defined.

Lemma small_map_stampable :
  Forall (λ c, cell_transformable small_map c = true ∧
               cell_stampable small_map prefab_heap c.2 = true)
         (cells small_map).
Proof. apply (bool_decide_unpack _). vm_compute. exact I. Qed.

Lemma small_map_objects :
  Forall (λ o, object_placeable small_map o = true) (objects small_map).
Proof. apply (bool_decide_unpack _). vm_compute. exact I. Qed.

Lemma pass_completes_witness :
  prefabs_loaded small_map prefab_heap ∧
  Forall (λ c, cell_transformable small_map c = true ∧
               cell_stampable small_map prefab_heap c.2 = true)
         (cells small_map) ∧
  Forall (λ o, object_placeable small_map o = true) (objects small_map) ∧
  objects small_map = [player] ∧
  ∃ st', run small_map prefab_heap = (Ok tt, st').
Proof.
  split_and!; [exact small_map_loaded|exact small_map_stampable
              |exact small_map_objects|vm_compute; reflexivity|].
  apply (pass_completes small_map prefab_heap 1%positive [3%positive]
           (VStr "base.wad")).
  - exact small_map_loaded.
  - vm_compute. reflexivity.
  - vm_compute. reflexivity.
  - exact small_map_stampable.
  - exact small_map_objects.
Defined.

Lemma output_shares_nothing_witness :
  prefabs_loaded small_map prefab_heap ∧
  run small_map prefab_heap = (Ok tt, (run small_map prefab_heap).2) ∧
  Forall (λ e, e ∉ dom prefab_heap)
         (entities (run small_map prefab_heap).2).
Proof.
  split_and!; [exact small_map_loaded|exact small_map_runs|].
  eapply Forall_impl.
  - exact (output_shares_nothing small_map prefab_heap _
             small_map_loaded small_map_runs).
  - intros e H. exact (proj1 H).
Defined.

Lemma walls_loaded :
  load_tiles tiles_dir two_tilesets walls_mapping
  = (Ok tt, (load_tiles tiles_dir two_tilesets walls_mapping).2).
Proof. vm_compute. reflexivity. Qed.

Lemma cache_holds_last_entry_witness :
  load_tiles tiles_dir two_tilesets walls_mapping
  = (Ok tt, (load_tiles tiles_dir two_tilesets walls_mapping).2) ∧
  cache (load_tiles tiles_dir two_tilesets walls_mapping).2 !! 2
  = Some "tiles/wall2.map" ∧
  cache (load_tiles tiles_dir two_tilesets walls_mapping).2 !! 3 = None.
Proof.
  split; [exact walls_loaded|].
  pose proof (cache_holds_last_entry tiles_dir two_tilesets walls_mapping _
                walls_loaded) as H.
  split.
  - specialize (H 2).
    assert (last (entries_of tiles_dir 2
                    (entries tiles_dir two_tilesets walls_mapping))
            = Some (2, "tiles/wall2.map")) as E by (vm_compute; reflexivity).
    rewrite E in H. destruct H as (p & Hp & Hc). injection Hp as <-. exact Hc.
  - specialize (H 3).
    assert (last (entries_of tiles_dir 3
                    (entries tiles_dir two_tilesets walls_mapping))
            = None) as E by (vm_compute; reflexivity).
    rewrite E in H. exact H.
Defined.

Lemma missing_files_warned_witness :
  load_tiles tiles_dir two_tilesets walls_mapping
  = (Ok tt, (load_tiles tiles_dir two_tilesets walls_mapping).2) ∧
  printed (load_tiles tiles_dir two_tilesets walls_mapping).2
  = ["WARNING: Missing 3d tile: tiles/gone.map"].
Proof.
  split; [exact walls_loaded|].
  rewrite (missing_files_warned tiles_dir two_tilesets walls_mapping _
             walls_loaded).
  vm_compute. reflexivity.
Defined.

Lemma placed_origin_parses_back_witness :
  floats_of_strings (split_spaces "16 16 8") = Ok [16; 16; 8]%Q ∧
  ∃ o, place_origin
         (cell_transform small_map 0 (Tile 2 false false false)).1.1
         (VStr "16 16 8") = Ok (VStr o) ∧
       origin_ok (VStr o : pyval Q) = true.
Proof.
  assert (floats_of_strings (split_spaces "16 16 8") = Ok [16; 16; 8]%Q) as Hs
    by (vm_compute; reflexivity).
  split; [exact Hs|].
  destruct (placed_origin_parses_back
              (cell_transform small_map 0 (Tile 2 false false false)).1.1
              "16 16 8" 16%Q 16%Q 8%Q Hs) as (o & Ho & _ & Hok).
  - repeat (constructor; [split; vm_compute; reflexivity|]). constructor.
  - exists o. split; [exact Ho|exact Hok].
Defined.

